(** * openssl-cross-mobile: the build orchestrator of [index.ts]

    A shallow embedding of [src/index.ts].  The script drives external
    programs through Bun's shell and Node's [fs], [path] and [process]
    modules, so the embedding threads an explicit [World] (file system,
    working directory, environment, registered exit hooks, log, and the
    list of shell commands issued) through a small state-and-exception
    monad.  Build tools ([tar], [./Configure], [make], [lipo],
    [xcode-select]) and the network are opaque: they are variables of the
    section that holds the script. *)

From Stdlib Require Import List String Ascii Bool NArith Arith Lia.
From Stdlib Require Import DecimalString.
Import ListNotations.
Open Scope string_scope.
Open Scope list_scope.

Set Implicit Arguments.

(** String concatenation, as in a template literal. *)
Infix "+++" := String.append (right associativity, at level 60).

(* ================================================================== *)
(** ** JavaScript strings *)
(* ================================================================== *)

Module Js.

(** [s.split(c)] for a one-character separator: always at least one field. *)
Fixpoint split (c : ascii) (s : string) : list string :=
  match s with
  | EmptyString => [EmptyString]
  | String a s' =>
      if Ascii.eqb a c then EmptyString :: split c s'
      else match split c s' with
           | h :: t => String a h :: t
           | [] => [String a EmptyString]
           end
  end.

Definition is_ws (a : ascii) : bool :=
  let n := nat_of_ascii a in
  Nat.eqb n 32 || (Nat.leb 9 n && Nat.leb n 13).

Fixpoint trim_left (s : string) : string :=
  match s with
  | EmptyString => EmptyString
  | String a s' => if is_ws a then trim_left s' else s
  end.

Fixpoint trim_right (s : string) : string :=
  match s with
  | EmptyString => EmptyString
  | String a s' =>
      match trim_right s' with
      | EmptyString => if is_ws a then EmptyString else String a EmptyString
      | t => String a t
      end
  end.

(** [s.trim()] on ASCII white space. *)
Definition trim (s : string) : string := trim_right (trim_left s).

(** [l.join(sep)]. *)
Definition join (sep : string) (l : list string) : string := String.concat sep l.

(** [l.includes(x)]. *)
Definition includes (x : string) (l : list string) : bool :=
  existsb (String.eqb x) l.

(** Truthiness of a field that is absent ([undefined]) or holds a string. *)
Definition truthy_str (v : option string) : bool :=
  match v with
  | Some s => negb (String.eqb s "")
  | None => false
  end.

(** Truthiness of a field that is absent or holds a boolean. *)
Definition truthy_bool (v : option bool) : bool :=
  match v with
  | Some b => b
  | None => false
  end.

(** [a || b] where [a] is absent or a boolean and [b] a boolean: the left
    operand when it is truthy, the right one otherwise. *)
Definition or_bool (a : option bool) (b : bool) : bool :=
  match a with
  | Some true => true
  | _ => b
  end.

(** A value interpolated into a template literal. *)
Definition show_str (v : option string) : string :=
  match v with
  | Some s => s
  | None => "undefined"
  end.

Definition show_N (n : N) : string := NilEmpty.string_of_uint (N.to_uint n).

Definition starts_with_slash (s : string) : bool :=
  match s with
  | String a _ => Ascii.eqb a "/"
  | EmptyString => false
  end.

(** [s] has no occurrence of the character [c]. *)
Fixpoint lacks (c : ascii) (s : string) : bool :=
  match s with
  | EmptyString => true
  | String a s' => negb (Ascii.eqb a c) && lacks c s'
  end.

End Js.

(* ================================================================== *)
(** ** Paths and the file system *)
(* ================================================================== *)

Module Fs.

(** A resolved path: the components below the root. *)
Definition path := list string.

(** One step of lexical normalisation: empty and [.] components are
    dropped, [..] removes the last component (and is dropped at the root). *)
Definition norm_step (acc : path) (seg : string) : path :=
  if String.eqb seg "" then acc
  else if String.eqb seg "." then acc
  else if String.eqb seg ".." then removelast acc
  else acc ++ [seg].

Definition normalize (segs : list string) : path :=
  fold_left norm_step segs [].

(** The components a path string denotes in a process whose working
    directory is [cwd]. *)
Definition path_of (cwd p : string) : path :=
  if Js.starts_with_slash p then normalize (Js.split "/" p)
  else fold_left norm_step (Js.split "/" p) (normalize (Js.split "/" cwd)).

(** The absolute path string of a resolved path. *)
Definition render (p : path) : string := "/" +++ Js.join "/" p.

#[warnings="-register-all"]
Inductive node : Type :=
| File (content : string)
| Dir (entries : list (string * node)).

Definition is_dir (n : node) : bool :=
  match n with Dir _ => true | File _ => false end.

Fixpoint assoc (k : string) (es : list (string * node)) : option node :=
  match es with
  | [] => None
  | (k', v) :: es' => if String.eqb k k' then Some v else assoc k es'
  end.

Fixpoint assoc_set (k : string) (v : node) (es : list (string * node))
  : list (string * node) :=
  match es with
  | [] => [(k, v)]
  | (k', v') :: es' =>
      if String.eqb k k' then (k, v) :: es' else (k', v') :: assoc_set k v es'
  end.

Fixpoint assoc_del (k : string) (es : list (string * node))
  : list (string * node) :=
  match es with
  | [] => []
  | (k', v') :: es' =>
      if String.eqb k k' then assoc_del k es' else (k', v') :: assoc_del k es'
  end.

Fixpoint lookup (p : path) (n : node) : option node :=
  match p with
  | [] => Some n
  | x :: p' =>
      match n with
      | Dir es => match assoc x es with
                  | Some c => lookup p' c
                  | None => None
                  end
      | File _ => None
      end
  end.

Definition exists_at (p : path) (n : node) : bool :=
  match lookup p n with Some _ => true | None => false end.

Definition dir_at (p : path) (n : node) : bool :=
  match lookup p n with Some (Dir _) => true | _ => false end.

(** Removal of the node at [p]; the root itself is never removed. *)
Fixpoint remove (p : path) (n : node) : node :=
  match p with
  | [] => n
  | x :: p' =>
      match n with
      | Dir es =>
          match p' with
          | [] => Dir (assoc_del x es)
          | _ :: _ =>
              match assoc x es with
              | Some c => Dir (assoc_set x (remove p' c) es)
              | None => n
              end
          end
      | File _ => n
      end
  end.

(** Placing [v] at [p]; the parent of [p] has to be a directory. *)
Fixpoint write (p : path) (v : node) (n : node) : option node :=
  match p with
  | [] => Some v
  | x :: p' =>
      match n with
      | Dir es =>
          match p' with
          | [] => Some (Dir (assoc_set x v es))
          | _ :: _ =>
              match assoc x es with
              | Some c =>
                  match write p' v c with
                  | Some c' => Some (Dir (assoc_set x c' es))
                  | None => None
                  end
              | None => None
              end
          end
      | File _ => None
      end
  end.

(** [mkdir -p]: every missing directory on the way is created; a file on
    the way is an error. *)
Fixpoint mkdirp (p : path) (n : node) : option node :=
  match n with
  | File _ => None
  | Dir es =>
      match p with
      | [] => Some n
      | x :: p' =>
          match mkdirp p' (match assoc x es with
                           | Some c => c
                           | None => Dir []
                           end) with
          | Some c' => Some (Dir (assoc_set x c' es))
          | None => None
          end
      end
  end.

(** Recursive copy of [src] over an existing [dst]: directories are merged,
    files replace files, and a file/directory clash is left as it was and
    reported ([false]). *)
Fixpoint overlay (src dst : node) {struct src} : node * bool :=
  match src with
  | File c =>
      match dst with
      | File _ => (File c, true)
      | Dir _ => (dst, false)
      end
  | Dir es =>
      match dst with
      | File _ => (dst, false)
      | Dir ds =>
          let fix go (es : list (string * node)) (acc : list (string * node))
                     (ok : bool) {struct es} : list (string * node) * bool :=
            match es with
            | [] => (acc, ok)
            | (k, v) :: es' =>
                match assoc k acc with
                | Some d =>
                    let (n', ok') := overlay v d in
                    go es' (assoc_set k n' acc) (ok && ok')
                | None => go es' (assoc_set k v acc) ok
                end
            end in
          let (ds', ok) := go es ds true in
          (Dir ds', ok)
      end
  end.

Fixpoint is_prefix (p q : path) : bool :=
  match p, q with
  | [], _ => true
  | x :: p', y :: q' => String.eqb x y && is_prefix p' q'
  | _ :: _, [] => false
  end.

(** A path component that normalisation keeps. *)
Definition kept (x : string) : bool :=
  negb (String.eqb x "") && negb (String.eqb x ".") && negb (String.eqb x "..").

(** The line terminator. *)
Definition nl : string := String (ascii_of_nat 10) EmptyString.

End Fs.

(* ================================================================== *)
(** ** The world the script runs in *)
(* ================================================================== *)

Inductive level : Type := Debug | Info | Error | Console.

(** What a [throw] carries.  [ShellError] is what Bun's [$] raises when a
    command exits with a non-zero status; [SysError] stands for the errors
    of [process.chdir] and [Bun.write]. *)
Inductive error : Type :=
| JsError (msg : string)
| TypeError (msg : string)
| ShellError (argv : list string) (code : N)
| SysError (msg : string).

(** [`${error}`]. *)
Definition show_error (e : error) : string :=
  match e with
  | JsError m => "Error: " +++ m
  | TypeError m => "TypeError: " +++ m
  | ShellError _ c => "ShellError: Failed with exit code " +++ Js.show_N c
  | SysError m => "Error: " +++ m
  end.

(** A handler registered with [process.on("exit", ...)].  Each of them runs
    [rm -rf] on a path it closes over: a [const], whose value is fixed when
    the handler is registered, or a [let] variable that is assigned again
    later, in which case the handler removes what the variable holds when
    the process exits. *)
Inductive hook : Type :=
| Remove (p : string)
| RemoveVar (x : nat).

Record World : Type := mkWorld {
  fs : Fs.node;                        (* the root directory *)
  cwd : string;                        (* process.cwd() *)
  env : list (string * string);        (* process.env *)
  exitHooks : list hook;               (* the handlers registered with
                                          process.on("exit", ...) *)
  logs : list (level * string);        (* winston / console output *)
  trace : list (list string);          (* argv of every shell command run *)
  vars : list string                   (* the [let] variables that handlers
                                          close over, by number *)
}.

Definition set_fs (n : Fs.node) (w : World) : World :=
  mkWorld n (cwd w) (env w) (exitHooks w) (logs w) (trace w) (vars w).
Definition set_cwd (c : string) (w : World) : World :=
  mkWorld (fs w) c (env w) (exitHooks w) (logs w) (trace w) (vars w).
Definition set_env (e : list (string * string)) (w : World) : World :=
  mkWorld (fs w) (cwd w) e (exitHooks w) (logs w) (trace w) (vars w).
Definition add_hook (h : hook) (w : World) : World :=
  mkWorld (fs w) (cwd w) (env w) (exitHooks w ++ [h]) (logs w) (trace w) (vars w).
Definition add_log (l : level) (m : string) (w : World) : World :=
  mkWorld (fs w) (cwd w) (env w) (exitHooks w) (logs w ++ [(l, m)]) (trace w) (vars w).
Definition add_trace (argv : list string) (w : World) : World :=
  mkWorld (fs w) (cwd w) (env w) (exitHooks w) (logs w) (trace w ++ [argv]) (vars w).
Definition set_vars (v : list string) (w : World) : World :=
  mkWorld (fs w) (cwd w) (env w) (exitHooks w) (logs w) (trace w) v.

(** The path a handler removes if the process exits in the world [w]. *)
Definition hook_path (w : World) (h : hook) : string :=
  match h with
  | Remove p => p
  | RemoveVar x => nth x (vars w) ""
  end.

(** How a computation ends: with a value, with a thrown error, or with
    [process.exit(code)], which no handler intercepts. *)
Inductive outcome (A : Type) : Type :=
| Ok (a : A)
| Throw (e : error)
| Exit (code : N).
Arguments Ok {A} a.
Arguments Throw {A} e.
Arguments Exit {A} code.

Definition M (A : Type) : Type := World -> outcome A * World.

Definition ret {A} (a : A) : M A := fun w => (Ok a, w).

Definition bind {A B} (m : M A) (k : A -> M B) : M B :=
  fun w =>
    match m w with
    | (Ok a, w1) => k a w1
    | (Throw e, w1) => (Throw e, w1)
    | (Exit n, w1) => (Exit n, w1)
    end.

Definition throw {A} (e : error) : M A := fun w => (Throw e, w).

Definition exit {A} (code : N) : M A := fun w => (Exit code, w).

(** [try { m } catch (error) { h error }]. *)
Definition try_catch {A} (m : M A) (h : error -> M A) : M A :=
  fun w =>
    match m w with
    | (Throw e, w1) => h e w1
    | r => r
    end.

(** [try { return m } finally { f }]: [f] runs after a value and after a
    throw; an error raised by [f] replaces either. *)
Definition try_finally {A} (m : M A) (f : M unit) : M A :=
  fun w =>
    match m w with
    | (Exit n, w1) => (Exit n, w1)
    | (r, w1) =>
        match f w1 with
        | (Ok _, w2) => (r, w2)
        | (Throw e, w2) => (Throw e, w2)
        | (Exit n, w2) => (Exit n, w2)
        end
    end.

Declare Scope script_scope.
Delimit Scope script_scope with script.
Notation "x <- m ;; k" := (bind m (fun x => k))
  (at level 100, m at next level, right associativity) : script_scope.
Notation "m ;; k" := (bind m (fun _ => k))
  (at level 100, right associativity) : script_scope.
Open Scope script_scope.

(** [for (const x of l) { f x }]. *)
Fixpoint for_of {A} (l : list A) (f : A -> M unit) : M unit :=
  match l with
  | [] => ret tt
  | x :: l' => f x ;; for_of l' f
  end.

Definition when (b : bool) (m : M unit) : M unit :=
  if b then m else ret tt.

(* ------------------------------------------------------------------ *)
(** *** Node and Bun primitives *)

Definition log (l : level) (m : string) : M unit :=
  fun w => (Ok tt, add_log l m w).

(** [fs.existsSync(p)]. *)
Definition existsSync (p : string) : M bool :=
  fun w => (Ok (Fs.exists_at (Fs.path_of (cwd w) p) (fs w)), w).

Fixpoint env_get (k : string) (e : list (string * string)) : option string :=
  match e with
  | [] => None
  | (k', v) :: e' => if String.eqb k k' then Some v else env_get k e'
  end.

Fixpoint env_set (k v : string) (e : list (string * string))
  : list (string * string) :=
  match e with
  | [] => [(k, v)]
  | (k', v') :: e' =>
      if String.eqb k k' then (k, v) :: e' else (k', v') :: env_set k v e'
  end.

(** [process.env.NAME]. *)
Definition getenv (k : string) : M (option string) :=
  fun w => (Ok (env_get k (env w)), w).

(** [process.env.NAME = v]: the value is stored as a string. *)
Definition setenv (k : string) (v : option string) : M unit :=
  fun w => (Ok tt, set_env (env_set k (Js.show_str v) (env w)) w).

(** [process.cwd()]. *)
Definition getcwd : M string := fun w => (Ok (cwd w), w).

(** [process.chdir(p)]: fails unless [p] is an existing directory. *)
Definition chdir (p : string) : M unit :=
  fun w =>
    let q := Fs.path_of (cwd w) p in
    if Fs.dir_at q (fs w) then (Ok tt, set_cwd (Fs.render q) w)
    else (Throw (SysError ("ENOENT: no such file or directory, chdir " +++ p)), w).

(** [process.on("exit", async () => { ... rm -rf p ... })] where [p] is a
    [const]. *)
Definition onExit (p : string) : M unit :=
  fun w => (Ok tt, add_hook (Remove p) w).

(** [let x = init], for a variable that handlers close over: a fresh
    variable, named by its number. *)
Definition newVar (init : string) : M nat :=
  fun w => (Ok (List.length (vars w)), set_vars (vars w ++ [init]) w).

Fixpoint set_nth (x : nat) (v : string) (l : list string) : list string :=
  match l, x with
  | [], _ => []
  | _ :: l', O => v :: l'
  | a :: l', S x' => a :: set_nth x' v l'
  end.

(** [x = v]. *)
Definition assign (x : nat) (v : string) : M unit :=
  fun w => (Ok tt, set_vars (set_nth x v (vars w)) w).

(** [process.on("exit", async () => { ... rm -rf x ... })] where [x] is a
    [let] variable: the handler reads [x] when it runs. *)
Definition onExitVar (x : nat) : M unit :=
  fun w => (Ok tt, add_hook (RemoveVar x) w).

(** [Bun.write(p, data)]. *)
Definition bunWrite (p content : string) : M unit :=
  fun w =>
    let q := Fs.path_of (cwd w) p in
    if Fs.dir_at q (fs w) then
      (Throw (SysError ("EISDIR: illegal operation on a directory, open " +++ p)), w)
    else
      match Fs.write q (Fs.File content) (fs w) with
      | Some n => (Ok tt, set_fs n w)
      | None => (Throw (SysError ("ENOENT: no such file or directory, open " +++ p)), w)
      end.

(* ------------------------------------------------------------------ *)
(** *** Shell commands

    [rm], [mkdir], [cp] and [ls] act on the modelled file system (ideal
    semantics: no permissions, links or device errors, so that a command
    fails only for a reason the tree itself shows).  Every other command is
    left to the host. *)

Definition cmd_result : Type := N * string * Fs.node.

Definition run_rm_rf (p : string) (w : World) : cmd_result :=
  match Fs.path_of (cwd w) p with
  | [] => (1%N, "", fs w)
  | q => (0%N, "", Fs.remove q (fs w))
  end.

Definition run_rm (p : string) (w : World) : cmd_result :=
  let q := Fs.path_of (cwd w) p in
  match Fs.lookup q (fs w) with
  | Some (Fs.File _) => (0%N, "", Fs.remove q (fs w))
  | _ => (1%N, "", fs w)
  end.

Definition run_mkdir_p (p : string) (w : World) : cmd_result :=
  match Fs.mkdirp (Fs.path_of (cwd w) p) (fs w) with
  | Some n => (0%N, "", n)
  | None => (1%N, "", fs w)
  end.

(** [cp src dst] and, with [recursive], [cp -a src dst]. *)
Definition run_cp (recursive : bool) (src dst : string) (w : World) : cmd_result :=
  let s := Fs.path_of (cwd w) src in
  let d := Fs.path_of (cwd w) dst in
  match Fs.lookup s (fs w) with
  | None => (1%N, "", fs w)
  | Some n =>
      if Fs.is_dir n && negb recursive then (1%N, "", fs w)
      else
        let t := if Fs.dir_at d (fs w) then d ++ [List.last s ""] else d in
        if Fs.is_prefix s t then (1%N, "", fs w)
        else
          let (n', ok) := match Fs.lookup t (fs w) with
                          | Some old => Fs.overlay n old
                          | None => (n, true)
                          end in
          match Fs.write t n' (fs w) with
          | Some r => ((if ok then 0 else 1)%N, "", r)
          | None => (1%N, "", fs w)
          end
  end.

(** [ls] does not list the entries whose name starts with a dot. *)
Definition hidden (name : string) : bool :=
  match name with
  | String a _ => Ascii.eqb a "."
  | EmptyString => false
  end.

Definition run_ls (p : string) (w : World) : cmd_result :=
  match Fs.lookup (Fs.path_of (cwd w) p) (fs w) with
  | Some (Fs.Dir es) =>
      (0%N,
       String.concat ""
         (map (fun e => fst e +++ Fs.nl) (filter (fun e => negb (hidden (fst e))) es)),
       fs w)
  | Some (Fs.File _) => (0%N, p +++ Fs.nl, fs w)
  | None => (1%N, "", fs w)
  end.

(* ================================================================== *)
(** ** The script *)
(* ================================================================== *)

(** What [program.opts()] hands to [createOptions] (typed [any] in the
    source): every field is absent ([None], JavaScript's [undefined]) or
    holds a value of the type the [Options] declaration gives it. *)
Record Input : Type := mkInput {
  in_opensslVersion : option string;
  in_target : option string;
  in_clean : option bool;
  in_distPath : option string;
  in_androidAPI : option string;
  in_androidArchs : option string;
  in_iphoneosArchs : option string;
  in_iphonesimArchs : option string;
  in_help : option bool
}.

(** The [Options] object.  [createOptions] copies five fields without
    looking at them, so they may still be absent. *)
Record Options : Type := mkOptions {
  opensslVersion : string;
  target : option string;
  clean : bool;
  distPath : string;
  androidAPI : option string;
  androidArchs : option string;
  iphoneosArchs : option string;
  iphonesimArchs : option string
}.

Definition HELP_TEXT : string := "
OpenSSL Cross-Platform Builder
=============================

This script builds OpenSSL libraries for Android and iOS platforms from a macOS host.

Environment Requirements:
------------------------
- For Android builds: ANDROID_NDK_HOME environment variable must be set
- For iOS builds: Xcode must be installed with command line tools

Examples:
--------------

1. Build for all
    bun index.ts --cc $(which clang) --clean --openssl-version=3.4.0 --target=all

2. Build for Android only
    bun index.ts --cc $(which clang) --clean --openssl-version 3.4.0 --target=android --android-archs arm64 --android-api 28

3. Build for iphonesim only
    bun index.ts --cc $(which clang) --clean --openssl-version=3.4.0 --target=iphonesim --iphonesim-archs=x86_64,arm64

4. Build for iphoneos only
    bun index.ts --cc $(which clang) --clean --openssl-version=3.4.0 --target=iphoneos ---iphoneos-archs=arm64
".

(** Node's [path.resolve(p)] with one argument: [p], made absolute against
    the working directory and normalised; a [TypeError] when [p] is not a
    string. *)
Definition path_resolve (p : option string) : M string :=
  fun w =>
    match p with
    | Some s => (Ok (Fs.render (Fs.path_of (cwd w) s)), w)
    | None =>
        (Throw (TypeError "The paths[0] argument must be of type string. Received undefined"), w)
    end.

(** [x.split(",")] on a field that may be absent. *)
Definition split_field (name : string) (v : option string) : M (list string) :=
  match v with
  | Some s => ret (Js.split "," s)
  | None =>
      throw (TypeError ("undefined is not an object (evaluating 'options." +++ name +++ ".split')"))
  end.

(** [options.target === t]. *)
Definition target_is (o : Options) (t : string) : bool :=
  match target o with
  | Some s => String.eqb s t
  | None => false
  end.

Definition nl_char : ascii := ascii_of_nat 10.

Section Host.

(** The programs the script only invokes: given the command line and the
    world, an exit status, the text written to standard output, and the file
    system left behind. *)
Variable tools : list string -> World -> cmd_result.

(** The network: the body served for a URL, or [None] when the request is
    rejected. *)
Variable net : string -> World -> option string.

(** [JSON.stringify(options, null, 2)]. *)
Variable json_stringify : Options -> string.

(** Commander: [program.parse(process.argv)] followed by [program.opts()].
    It returns the options it read from the command line, or ends the
    process itself, as it does with status 1 when the command line has an
    option that was not declared. *)
Variable parse : list string -> M Input.

Definition run_cmd (argv : list string) (w : World) : cmd_result :=
  match argv with
  | [] => tools argv w
  | c :: args =>
      if String.eqb c "rm" then
        match args with
        | [f; p] => if String.eqb f "-rf" then run_rm_rf p w else tools argv w
        | [p] => run_rm p w
        | _ => tools argv w
        end
      else if String.eqb c "mkdir" then
        match args with
        | [f; p] => if String.eqb f "-p" then run_mkdir_p p w else tools argv w
        | _ => tools argv w
        end
      else if String.eqb c "cp" then
        match args with
        | [f; s; d] => if String.eqb f "-a" then run_cp true s d w else tools argv w
        | [s; d] => run_cp false s d w
        | _ => tools argv w
        end
      else if String.eqb c "ls" then
        match args with
        | [p] => run_ls p w
        | _ => tools argv w
        end
      else if String.eqb c "xcode-select" then
        (* a query: its output is the host's, the file system is untouched *)
        let '(code, out, _) := tools argv w in (code, out, fs w)
      else tools argv w
  end.

(** [await $`...`]: the words of the command after Bun's interpolation (an
    interpolated string is one word, an interpolated array one word per
    element).  A non-zero exit status throws. *)
Definition sh (argv : list string) : M string :=
  fun w =>
    let '(code, out, n) := run_cmd argv w in
    let w1 := set_fs n (add_trace argv w) in
    if N.eqb code 0 then (Ok out, w1) else (Throw (ShellError argv code), w1).

(** [await fetch(url)] followed by [response.arrayBuffer()]. *)
Definition fetch (url : string) : M string :=
  fun w =>
    match net url w with
    | Some body => (Ok body, w)
    | None => (Throw (TypeError "fetch failed"), w)
    end.

(** index.ts, lines 58-72. *)
Definition createOptions (input : Input) : M Options :=
  match in_opensslVersion input with
  | None => throw (JsError "OpenSSL version not specified")
  | Some v =>
      if String.eqb v "" then throw (JsError "OpenSSL version not specified")
      else
        resolved <- path_resolve (in_distPath input) ;;
        ret {| opensslVersion := v;
               target := in_target input;
               clean := Js.or_bool (in_clean input) true;
               distPath := resolved;
               androidAPI := in_androidAPI input;
               androidArchs := in_androidArchs input;
               iphoneosArchs := in_iphoneosArchs input;
               iphonesimArchs := in_iphonesimArchs input |}
  end.

(** index.ts, lines 74-105. *)
Definition downloadOpenssl (opensslVersion : string) (shouldClean : bool) : M string :=
  let downloadPath := "/tmp/openssl-" +++ opensslVersion +++ ".tar.gz" in
  present <- existsSync downloadPath ;;
  if present && negb shouldClean then
    log Info ("Using existing OpenSSL tar in " +++ downloadPath) ;;
    ret downloadPath
  else
    let srcPath := "/tmp/openssl-" +++ opensslVersion in
    sh ["rm"; "-rf"; downloadPath] ;;
    sh ["rm"; "-rf"; srcPath] ;;
    sh ["mkdir"; "-p"; srcPath] ;;
    log Info ("Downloading OpenSSL " +++ opensslVersion +++ " to " +++ downloadPath) ;;
    arrayBuffer <- fetch ("https://www.openssl.org/source/openssl-" +++ opensslVersion +++ ".tar.gz") ;;
    bunWrite downloadPath arrayBuffer ;;
    when shouldClean (onExit downloadPath) ;;
    ret downloadPath.

(** index.ts, lines 109-121. *)
Definition withDir {T : Type} (dirPath : string) (callback : M T) : M T :=
  originalDir <- getcwd ;;
  try_finally (chdir dirPath ;; callback) (chdir originalDir).

Definition android_valid_archs : list string := ["arm"; "arm64"; "x86"; "x86_64"].

Definition android_libs : list string :=
  ["libssl.a"; "libcrypto.a"; "libssl.so"; "libcrypto.so"].

Definition ios_libs : list string := ["libssl.a"; "libcrypto.a"].

(** index.ts, lines 184-241: one turn of the loop over [archs]. *)
Definition androidArch (options : Options) (androidNDKHome toolchainBinPath distPath : string)
  (arch : string) : M unit :=
  log Info ("Building OpenSSL for Android " +++ arch) ;;
  try_catch
    (let installPath := "/tmp/openssl-android-" +++ arch in
     when (clean options) (onExit installPath) ;;
     sh ["rm"; "-rf"; installPath] ;;
     setenv "ANDROID_NDK_HOME" (Some androidNDKHome) ;;
     setenv "ANDROID_API" (androidAPI options) ;;
     oldPath <- getenv "PATH" ;;
     setenv "PATH" (Some (toolchainBinPath +++ ":" +++ Js.show_str oldPath)) ;;
     let config := "android-" +++ arch in
     log Debug ("Configuring and building for Android " +++ arch +++ ". Will install in "
                +++ installPath +++ ": Config: " +++ config) ;;
     sh ["./Configure"; config; "-fPIC"; "no-ui-console"; "no-engine"; "no-filenames";
         "no-stdio"; "--prefix=" +++ installPath] ;;
     sh ["make"; "-j8"] ;;
     sh ["make"; "-j8"; "install_sw"] ;;
     sh ["make"; "-j8"; "install_ssldirs"] ;;
     let archDistPath := distPath +++ "/" +++ arch in
     sh ["mkdir"; "-p"; archDistPath] ;;
     for_of android_libs (fun lib =>
       let srcLibPath := installPath +++ "/lib/" +++ lib in
       let dstLibPath := archDistPath +++ "/" +++ lib in
       present <- existsSync srcLibPath ;;
       if present then
         log Debug ("Copying " +++ srcLibPath +++ " to " +++ dstLibPath) ;;
         sh ["cp"; "-a"; srcLibPath; dstLibPath] ;;
         ret tt
       else throw (JsError ("Library " +++ lib +++ " not found"))) ;;
     sh ["rm"; "-rf"; distPath +++ "/include"] ;;
     sh ["cp"; "-a"; installPath +++ "/include"; distPath] ;;
     ret tt)
    (fun error =>
       throw (JsError ("Failed to build OpenSSL for Android " +++ arch +++ ": "
                       +++ show_error error))).

(** index.ts, lines 129-244. *)
Definition buildForAndroid (tarPath : string) (options : Options) : M unit :=
  log Info "Building OpenSSL for Android" ;;
  archs <- split_field "androidArchs" (androidArchs options) ;;
  for_of archs (fun arch =>
    if negb (Js.includes arch android_valid_archs) then
      throw (JsError ("Invalid Android architecture: " +++ arch))
    else ret tt) ;;
  ndk <- getenv "ANDROID_NDK_HOME" ;;
  if negb (Js.truthy_str ndk) then
    throw (JsError "Please set ANDROID_NDK_HOME environment variable")
  else
    let androidNDKHome := Js.show_str ndk in
    let toolchainPath := androidNDKHome +++ "/toolchains/llvm/prebuilt" in
    present <- existsSync toolchainPath ;;
    if negb present then
      throw (JsError "Please set ANDROID_NDK_HOME environment variable to the correct path")
    else
      output <- sh ["ls"; toolchainPath] ;;
      let hostDirs := Js.split nl_char (Js.trim output) in
      if negb (Nat.eqb (List.length hostDirs) 1) then
        throw (JsError "Failed to find a suitable toolchain")
      else
        let toolchainBinPath := toolchainPath +++ "/" +++ hd "" hostDirs +++ "/bin" in
        let distPath := distPath options +++ "/android" in
        sh ["mkdir"; "-p"; distPath] ;;
        let srcPath := "/tmp/openssl_android" in
        cached <- existsSync srcPath ;;
        if cached && negb (clean options) then
          log Info ("Using existing build in " +++ srcPath)
        else
          sh ["rm"; "-rf"; srcPath] ;;
          sh ["mkdir"; "-p"; srcPath] ;;
          log Debug ("Extracting OpenSSL from " +++ tarPath +++ " to " +++ srcPath) ;;
          try_catch (sh ["tar"; "xf"; tarPath; "-C"; srcPath] ;; ret tt)
            (fun error => throw (JsError ("Failed to untar OpenSSL: " +++ show_error error))) ;;
          extracted <- existsSync srcPath ;;
          if negb extracted then
            throw (JsError "Failed to extract OpenSSL to correct path")
          else
            let extractedSrcPath := srcPath +++ "/openssl-" +++ opensslVersion options in
            withDir extractedSrcPath
              (for_of archs (androidArch options androidNDKHome toolchainBinPath distPath)).

(** The preamble the two iOS builds share word for word apart from the
    platform name (index.ts, lines 263-300 and 396-434): the Xcode query,
    the output directory, the reuse check, and the extraction.  It yields
    [None] when an existing source directory is reused. *)
Definition iosPrepare (platform : string) (tarPath : string) (options : Options)
  : M (option string) :=
  try_catch
    (out <- sh ["xcode-select"; "-print-path"] ;; ret (Js.trim out))
    (fun error =>
       throw (JsError ("Error getting Xcode developer path: " +++ show_error error))) ;;
  let distPath := distPath options +++ "/" +++ platform in
  sh ["mkdir"; "-p"; distPath] ;;
  let srcPath := "/tmp/openssl_" +++ platform in
  cached <- existsSync srcPath ;;
  if cached && negb (clean options) then
    log Info ("Using existing build in " +++ srcPath) ;;
    ret None
  else
    sh ["rm"; "-rf"; srcPath] ;;
    sh ["mkdir"; "-p"; srcPath] ;;
    log Debug ("Extracting OpenSSL from " +++ tarPath +++ " to " +++ srcPath) ;;
    try_catch (sh ["tar"; "xf"; tarPath; "-C"; srcPath] ;; ret tt)
      (fun error => throw (JsError ("Failed to untar OpenSSL: " +++ show_error error))) ;;
    extracted <- existsSync srcPath ;;
    if negb extracted then
      throw (JsError "Failed to extract OpenSSL to correct path")
    else
      let extractedSrcPath := srcPath +++ "/openssl-" +++ opensslVersion options in
      when (clean options) (onExit srcPath) ;;
      ret (Some extractedSrcPath).

(** index.ts, lines 306-359: one turn of the loop over [archs].  The
    variable [installPath] is declared once, before the loop (line 305):
    [x] is that variable.  The turn assigns it (line 312) and registers a
    handler that closes over it (lines 314-323); nothing assigns it again
    before the turn ends, so what the turn reads from it afterwards is the
    value it has just assigned. *)
Definition iphoneosArch (options : Options) (distPath : string) (archs : list string)
  (x : nat) (arch : string) : M unit :=
  log Info ("Building OpenSSL for iPhone OS " +++ arch) ;;
  try_catch
    (let config := if String.eqb arch "arm64" then "ios64-xcrun" else "ios-xcrun" in
     let installPath := "/tmp/openssl-iphoneos-" +++ arch in
     assign x installPath ;;
     when (clean options) (onExitVar x) ;;
     log Debug ("Configuring and building for iPhone OS " +++ arch +++ " in " +++ installPath) ;;
     sh ["rm"; "-rf"; installPath] ;;
     sh ["./Configure"; config; "no-ui-console"; "no-engine"; "no-filenames"; "no-shared";
         "--prefix=" +++ installPath] ;;
     sh ["make"; "-j8"] ;;
     sh ["make"; "-j8"; "install_sw"] ;;
     sh ["make"; "-j8"; "install_ssldirs"] ;;
     for_of ios_libs (fun lib =>
       let srcLibPath := installPath +++ "/lib/" +++ lib in
       let dstLibPath := distPath +++ "/" +++ lib in
       present <- existsSync srcLibPath ;;
       if present then
         log Debug ("Copying " +++ srcLibPath +++ " to " +++ dstLibPath) ;;
         (if Nat.ltb 1 (List.length archs) then
            sh ["cp"; srcLibPath; dstLibPath +++ "." +++ arch]
          else
            sh ["cp"; srcLibPath; dstLibPath]) ;;
         ret tt
       else throw (JsError ("Library " +++ lib +++ " not found"))) ;;
     sh ["rm"; "-rf"; distPath +++ "/include"] ;;
     sh ["cp"; "-a"; installPath +++ "/include"; distPath] ;;
     ret tt)
    (fun error =>
       throw (JsError ("Failed building OpenSSL for iPhone OS " +++ arch +++ ": "
                       +++ show_error error))).

(** index.ts, lines 360-373.  [archFiles] is the [join(" ")] of the staged
    names: one string, hence one word of the [lipo] command line. *)
Definition iphoneosMerge (distPath : string) (archs : list string) : M unit :=
  when (Nat.ltb 1 (List.length archs))
    (log Info "Creating a fat binary for iphoneos" ;;
     for_of ios_libs (fun lib =>
       let archFiles :=
         Js.join " " (map (fun arch => distPath +++ "/" +++ lib +++ "." +++ arch) archs) in
       sh ["lipo"; archFiles; "-create"; "-output"; distPath +++ "/" +++ lib] ;;
       for_of archs (fun arch =>
         sh ["rm"; distPath +++ "/" +++ lib +++ "." +++ arch] ;; ret tt))).

(** index.ts, lines 253-375. *)
Definition buildForIosIphoneos (tarPath : string) (options : Options) : M unit :=
  log Info "Building OpenSSL for iOS devices" ;;
  if negb (Js.truthy_str (iphoneosArchs options)) then
    throw (JsError "iOS architectures not specified")
  else
    prepared <- iosPrepare "iphoneos" tarPath options ;;
    match prepared with
    | None => ret tt
    | Some extractedSrcPath =>
        let distPath := distPath options +++ "/iphoneos" in
        withDir extractedSrcPath
          (let archs := Js.split "," (Js.show_str (iphoneosArchs options)) in
           installPath <- newVar "" ;;
           for_of archs (iphoneosArch options distPath archs installPath) ;;
           iphoneosMerge distPath archs)
    end.

(** index.ts, lines 438-493: one turn of the loop over [archs]. *)
Definition iphonesimArch (options : Options) (distPath : string) (archs : list string)
  (arch : string) : M unit :=
  log Info ("Building OpenSSL for iOS simulator " +++ arch) ;;
  try_catch
    (let config := if String.eqb arch "arm64" then "iossimulator-arm64-xcrun"
                   else "iossimulator-x86_64-xcrun" in
     let installPath := "/tmp/openssl-iphonesim-" +++ arch in
     when (clean options) (onExit installPath) ;;
     log Debug ("Configuring and building for iOS simulator " +++ arch +++ " in "
                +++ installPath +++ ". Config: " +++ config) ;;
     sh ["rm"; "-rf"; installPath] ;;
     sh ["./Configure"; config; "no-ui-console"; "no-engine"; "no-filenames"; "no-shared";
         "--prefix=" +++ installPath] ;;
     sh ["make"; "-j8"] ;;
     sh ["make"; "-j8"; "install_sw"] ;;
     sh ["make"; "-j8"; "install_ssldirs"] ;;
     for_of ios_libs (fun lib =>
       let srcLibPath := installPath +++ "/lib/" +++ lib in
       let dstLibPath := distPath +++ "/" +++ lib in
       present <- existsSync srcLibPath ;;
       if present then
         log Debug ("Copying " +++ lib +++ " for iphonesim " +++ arch) ;;
         (if Nat.ltb 1 (List.length archs) then
            sh ["cp"; srcLibPath; dstLibPath +++ "." +++ arch]
          else
            sh ["cp"; srcLibPath; dstLibPath]) ;;
         ret tt
       else throw (JsError ("Library " +++ lib +++ " not found"))) ;;
     sh ["rm"; "-rf"; distPath +++ "/include"] ;;
     sh ["cp"; "-a"; installPath +++ "/include"; distPath] ;;
     ret tt)
    (fun error =>
       throw (JsError ("Building OpenSSL for iphonesim " +++ arch +++ ": "
                       +++ show_error error))).

(** index.ts, lines 494-508.  [archFiles] is an array: Bun expands it to one
    word per staged file. *)
Definition iphonesimMerge (distPath : string) (archs : list string) : M unit :=
  when (Nat.ltb 1 (List.length archs))
    (log Info "Creating a fat binary for iphonesim" ;;
     for_of ios_libs (fun lib =>
       let archFiles := map (fun arch => distPath +++ "/" +++ lib +++ "." +++ arch) archs in
       sh (["lipo"] ++ archFiles ++ ["-create"; "-output"; distPath +++ "/" +++ lib]) ;;
       for_of archs (fun arch =>
         sh ["rm"; distPath +++ "/" +++ lib +++ "." +++ arch] ;; ret tt))).

(** index.ts, lines 385-510. *)
Definition buildForIosIphonesim (tarPath : string) (options : Options) : M unit :=
  log Info "Building OpenSSL for iphonesim" ;;
  if negb (Js.truthy_str (iphonesimArchs options)) then
    throw (JsError "iOS simulator architectures not specified")
  else
    prepared <- iosPrepare "iphonesim" tarPath options ;;
    match prepared with
    | None => ret tt
    | Some extractedSrcPath =>
        let distPath := distPath options +++ "/iphonesim" in
        withDir extractedSrcPath
          (let archs := Js.split "," (Js.show_str (iphonesimArchs options)) in
           for_of archs (iphonesimArch options distPath archs) ;;
           iphonesimMerge distPath archs)
    end.

(** index.ts, lines 550-559: what [main] does before the first build. *)
Definition mainSetup (opts : Input) : M (Options * string) :=
  options <- createOptions opts ;;
  log Info ("Options: " +++ json_stringify options) ;;
  when (clean options) (sh ["rm"; "-rf"; distPath options] ;; ret tt) ;;
  sh ["mkdir"; "-p"; distPath options] ;;
  tarPath <- downloadOpenssl (opensslVersion options) (clean options) ;;
  ret (options, tarPath).

(** index.ts, lines 560-570: the builds, in their fixed order. *)
Definition mainBuilds (options : Options) (tarPath : string) : M unit :=
  when (target_is options "android" || target_is options "all")
    (buildForAndroid tarPath options) ;;
  when (target_is options "iphoneos" || target_is options "all")
    (buildForIosIphoneos tarPath options) ;;
  when (target_is options "iphonesim" || target_is options "all")
    (buildForIosIphonesim tarPath options) ;;
  log Info "Build completed successfully!".

(** index.ts, lines 545-571: [main] from the point where commander has
    parsed the command line (line 544) and returned [opts]. *)
Definition main (opts : Input) : M unit :=
  if Js.truthy_bool (in_help opts) then
    log Console HELP_TEXT ;;
    exit 0%N
  else
    setup <- mainSetup opts ;;
    mainBuilds (fst setup) (snd setup).

(** index.ts, lines 573-578: the program and its exit status, from the
    point where commander has returned [opts]. *)
Definition program (opts : Input) (w : World) : N * World :=
  match main opts w with
  | (Ok _, w1) => (0%N, w1)
  | (Throw error, w1) => (1%N, add_log Error (show_error error) w1)
  | (Exit code, w1) => (code, w1)
  end.

(** index.ts, lines 512-571: [main] from the command line [argv].  The
    options are declared (lines 513-543), commander parses the command line
    (line 544), and [main] goes on with what it returns. *)
Definition mainArgv (argv : list string) : M unit :=
  opts <- parse argv ;;
  main opts.

(** index.ts, lines 573-578: the whole program and its exit status. *)
Definition programArgv (argv : list string) (w : World) : N * World :=
  match mainArgv argv w with
  | (Ok _, w1) => (0%N, w1)
  | (Throw error, w1) => (1%N, add_log Error (show_error error) w1)
  | (Exit code, w1) => (code, w1)
  end.

End Host.

(* ================================================================== *)
(** ** A simulated host

    A small executable stand-in for the build tools, used to run the script
    on concrete inputs.  The archive holds the name of its top-level
    directory; [./Configure] records the configuration and the prefix in the
    source tree; [make install_sw] installs four libraries and a header whose
    contents name the configuration; [lipo] needs every input to be a file. *)
(* ================================================================== *)

Module Sim.

Definition prefix_of (args : list string) : string :=
  let a := List.last args "" in
  String.substring 9 (String.length a - 9) a.

Definition file_at (p : Fs.path) (n : Fs.node) : option string :=
  match Fs.lookup p n with
  | Some (Fs.File c) => Some c
  | _ => None
  end.

Fixpoint write_all (l : list (Fs.path * string)) (n : Fs.node) : Fs.node :=
  match l with
  | [] => n
  | (p, c) :: l' =>
      match Fs.mkdirp (removelast p) n with
      | Some n1 =>
          match Fs.write p (Fs.File c) n1 with
          | Some n2 => write_all l' n2
          | None => write_all l' n1
          end
      | None => write_all l' n
      end
  end.

Fixpoint lipo_inputs (args : list string) : list string :=
  match args with
  | [] => []
  | a :: args' => if String.eqb a "-create" then [] else a :: lipo_inputs args'
  end.

Fixpoint read_all (c : string) (l : list string) (n : Fs.node) : option string :=
  match l with
  | [] => Some ""
  | p :: l' =>
      match file_at (Fs.path_of c p) n, read_all c l' n with
      | Some x, Some y => Some (x +++ ";" +++ y)
      | _, _ => None
      end
  end.

Definition tools (argv : list string) (w : World) : cmd_result :=
  let here := Fs.path_of (cwd w) "" in
  match argv with
  | [] => (127%N, "", fs w)
  | c :: args =>
      if String.eqb c "xcode-select" then
        (0%N, "/Applications/Xcode.app/Contents/Developer" +++ Fs.nl, fs w)
      else if String.eqb c "tar" then
        match args with
        | [_; archive; _; dst] =>
            match file_at (Fs.path_of (cwd w) archive) (fs w) with
            | Some top =>
                (0%N, "",
                 write_all [(Fs.path_of (cwd w) dst ++ [top; "Configure"], "#!perl")] (fs w))
            | None => (2%N, "", fs w)
            end
        | _ => (2%N, "", fs w)
        end
      else if String.eqb c "./Configure" then
        match file_at (here ++ ["Configure"]) (fs w) with
        | Some _ =>
            (0%N, "",
             write_all [(here ++ ["configured.cfg"], hd "" args);
                        (here ++ ["configured.prefix"], prefix_of args)] (fs w))
        | None => (127%N, "", fs w)
        end
      else if String.eqb c "make" then
        match file_at (here ++ ["configured.cfg"]) (fs w),
              file_at (here ++ ["configured.prefix"]) (fs w) with
        | Some cfg, Some prefix =>
            let p := Fs.path_of (cwd w) prefix in
            if String.eqb (List.last args "") "install_sw" then
              (0%N, "",
               write_all [(p ++ ["lib"; "libssl.a"], "ssl " +++ cfg);
                          (p ++ ["lib"; "libcrypto.a"], "crypto " +++ cfg);
                          (p ++ ["lib"; "libssl.so"], "ssl.so " +++ cfg);
                          (p ++ ["lib"; "libcrypto.so"], "crypto.so " +++ cfg);
                          (p ++ ["include"; "openssl"; "ssl.h"], "headers of " +++ cfg)]
                 (fs w))
            else if String.eqb (List.last args "") "install_ssldirs" then
              (0%N, "", write_all [(p ++ ["ssl"; "openssl.cnf"], "")] (fs w))
            else (0%N, "", fs w)
        | _, _ => (2%N, "", fs w)
        end
      else if String.eqb c "lipo" then
        match read_all (cwd w) (lipo_inputs args) (fs w) with
        | Some fat =>
            (0%N, "", write_all [(Fs.path_of (cwd w) (List.last args ""), fat)] (fs w))
        | None => (1%N, "", fs w)
        end
      else (127%N, "", fs w)
  end.

Definition net (url : string) (w : World) : option string := Some "openssl-3.4.0".

Definition json (o : Options) : string := "{}".

Definition ndk : Fs.node :=
  Fs.Dir [("toolchains",
           Fs.Dir [("llvm",
                    Fs.Dir [("prebuilt",
                             Fs.Dir [("darwin-x86_64", Fs.Dir [("bin", Fs.Dir [])])])])])].

(** A fresh machine: an NDK, an empty [/tmp], and the user's directory. *)
Definition world0 : World :=
  {| fs := Fs.Dir [("tmp", Fs.Dir []);
                   ("home", Fs.Dir [("u", Fs.Dir [])]);
                   ("ndk", ndk)];
     cwd := "/home/u";
     env := [("PATH", "/usr/bin"); ("ANDROID_NDK_HOME", "/ndk")];
     exitHooks := [];
     logs := [];
     trace := [];
     vars := [] |}.

(** What commander yields for [--clean --target=t] with the declared
    defaults and the given architecture lists. *)
Definition opts (t : string) (android iphoneos iphonesim : string) : Input :=
  {| in_opensslVersion := Some "3.4.0";
     in_target := Some t;
     in_clean := Some true;
     in_distPath := Some "dist";
     in_androidAPI := None;
     in_androidArchs := Some android;
     in_iphoneosArchs := Some iphoneos;
     in_iphonesimArchs := Some iphonesim;
     in_help := Some false |}.

(** What commander yields when the command line has no option at all.  The
    key commander derives from [--android-api] is [androidApi], so the field
    [createOptions] reads, [androidAPI], is absent. *)
Definition defaults : Input :=
  {| in_opensslVersion := Some "3.4.0";
     in_target := Some "all";
     in_clean := Some false;
     in_distPath := Some "dist";
     in_androidAPI := None;
     in_androidArchs := Some "arm64";
     in_iphoneosArchs := Some "";
     in_iphonesimArchs := Some "";
     in_help := Some false |}.

Definition no_distPath : Input :=
  {| in_opensslVersion := Some "3.4.0";
     in_target := Some "all";
     in_clean := Some false;
     in_distPath := None;
     in_androidAPI := None;
     in_androidArchs := Some "arm64";
     in_iphoneosArchs := Some "";
     in_iphonesimArchs := Some "";
     in_help := Some false |}.

(** The same machine without [ANDROID_NDK_HOME]. *)
Definition world_no_ndk : World := set_env [("PATH", "/usr/bin")] world0.

(** The same machine with an NDK whose [prebuilt] directory is empty. *)
Definition world_empty_prebuilt : World :=
  set_fs (Fs.Dir [("tmp", Fs.Dir []);
                  ("home", Fs.Dir [("u", Fs.Dir [])]);
                  ("ndk", Fs.Dir [("toolchains",
                                   Fs.Dir [("llvm", Fs.Dir [("prebuilt", Fs.Dir [])])])])])
    world0.

(** The same machine after an earlier run left the archive and the install
    directory of [iphoneos/arm64] behind. *)
Definition world_stale_install : World :=
  set_fs (Fs.Dir [("tmp", Fs.Dir [("openssl-3.4.0.tar.gz", Fs.File "openssl-3.4.0");
                                  ("openssl-iphoneos-arm64",
                                   Fs.Dir [("stale", Fs.File "earlier build")])]);
                  ("home", Fs.Dir [("u", Fs.Dir [])]);
                  ("ndk", ndk)])
    world0.

(** The same machine after an earlier run left the archive and the source
    directory of [iphoneos] behind. *)
Definition world_stale_source : World :=
  set_fs (Fs.Dir [("tmp", Fs.Dir [("openssl-3.4.0.tar.gz", Fs.File "openssl-3.4.0");
                                  ("openssl_iphoneos", Fs.Dir [])]);
                  ("home", Fs.Dir [("u", Fs.Dir [])]);
                  ("ndk", ndk)])
    world0.

(** The same machine with the archive already downloaded. *)
Definition world_archive : World :=
  set_fs (Fs.Dir [("tmp", Fs.Dir [("openssl-3.4.0.tar.gz", Fs.File "openssl-3.4.0")]);
                  ("home", Fs.Dir [("u", Fs.Dir [])]);
                  ("ndk", ndk)])
    world0.

(** Options as [createOptions] produces them ([clean = true], an absolute
    [distPath]) for the given architecture lists. *)
Definition options (android iphoneos iphonesim : string) : Options :=
  {| opensslVersion := "3.4.0";
     target := Some "all";
     clean := true;
     distPath := "/home/u/dist";
     androidAPI := None;
     androidArchs := Some android;
     iphoneosArchs := Some iphoneos;
     iphonesimArchs := Some iphonesim |}.

(** Options with [clean = false], as a direct caller of a build function
    can pass them. *)
Definition options_keep : Options :=
  {| opensslVersion := "3.4.0";
     target := Some "iphoneos";
     clean := false;
     distPath := "/home/u/dist";
     androidAPI := None;
     androidArchs := Some "arm64";
     iphoneosArchs := Some "arm64";
     iphonesimArchs := Some "arm64" |}.

(** Options whose Android list has two entries that are no Android
    architecture, [mips] before [sparc]. *)
Definition options_mips : Options :=
  {| opensslVersion := "3.4.0";
     target := Some "android";
     clean := true;
     distPath := "/home/u/dist";
     androidAPI := None;
     androidArchs := Some "arm64,mips,x86,sparc";
     iphoneosArchs := Some "";
     iphonesimArchs := Some "" |}.

(** A network that serves nothing. *)
Definition offline (url : string) (w : World) : option string := None.

(** The option [name] of the command line set to [value]; [None] when
    [main] declares no such option. *)
Definition set_option (name value : string) (i : Input) : option Input :=
  let with_field (f : Input -> Input) := Some (f i) in
  if String.eqb name "--openssl-version" then
    with_field (fun i => mkInput (Some value) (in_target i) (in_clean i) (in_distPath i)
                           (in_androidAPI i) (in_androidArchs i) (in_iphoneosArchs i)
                           (in_iphonesimArchs i) (in_help i))
  else if String.eqb name "--target" then
    with_field (fun i => mkInput (in_opensslVersion i) (Some value) (in_clean i)
                           (in_distPath i) (in_androidAPI i) (in_androidArchs i)
                           (in_iphoneosArchs i) (in_iphonesimArchs i) (in_help i))
  else if String.eqb name "--dist-path" then
    with_field (fun i => mkInput (in_opensslVersion i) (in_target i) (in_clean i)
                           (Some value) (in_androidAPI i) (in_androidArchs i)
                           (in_iphoneosArchs i) (in_iphonesimArchs i) (in_help i))
  else if String.eqb name "--android-api" then
    (* stored under the key [androidApi], which [createOptions] does not read *)
    Some i
  else if String.eqb name "--android-archs" then
    with_field (fun i => mkInput (in_opensslVersion i) (in_target i) (in_clean i)
                           (in_distPath i) (in_androidAPI i) (Some value)
                           (in_iphoneosArchs i) (in_iphonesimArchs i) (in_help i))
  else if String.eqb name "--iphoneos-archs" then
    with_field (fun i => mkInput (in_opensslVersion i) (in_target i) (in_clean i)
                           (in_distPath i) (in_androidAPI i) (in_androidArchs i)
                           (Some value) (in_iphonesimArchs i) (in_help i))
  else if String.eqb name "--iphonesim-archs" then
    with_field (fun i => mkInput (in_opensslVersion i) (in_target i) (in_clean i)
                           (in_distPath i) (in_androidAPI i) (in_androidArchs i)
                           (in_iphoneosArchs i) (Some value) (in_help i))
  else None.

(** A word [--name=value] cut at its first [=]. *)
Fixpoint cut_at_equals (s : string) : string * option string :=
  match s with
  | EmptyString => (EmptyString, None)
  | String a s' =>
      if Ascii.eqb a "=" then (EmptyString, Some s')
      else let (n, v) := cut_at_equals s' in (String a n, v)
  end.

(** The words of the command line, read from left to right; [pending] is
    an option still waiting for its value.  The result is the options, or
    the message commander ends the process with. *)
Fixpoint read_words (pending : option string) (words : list string) (i : Input)
  : Input + string :=
  match words with
  | [] =>
      match pending with
      | None => inl i
      | Some name => inr ("error: option '" +++ name +++ "' argument missing")
      end
  | a :: words' =>
      match pending with
      | Some name =>
          match set_option name a i with
          | Some i' => read_words None words' i'
          | None => inr ("error: unknown option '" +++ name +++ "'")
          end
      | None =>
          if String.eqb a "--clean" then
            read_words None words'
              (mkInput (in_opensslVersion i) (in_target i) (Some true) (in_distPath i)
                 (in_androidAPI i) (in_androidArchs i) (in_iphoneosArchs i)
                 (in_iphonesimArchs i) (in_help i))
          else if String.eqb a "-h" || String.eqb a "--help" then
            read_words None words'
              (mkInput (in_opensslVersion i) (in_target i) (in_clean i) (in_distPath i)
                 (in_androidAPI i) (in_androidArchs i) (in_iphoneosArchs i)
                 (in_iphonesimArchs i) (Some true))
          else
            match cut_at_equals a with
            | (name, Some value) =>
                match set_option name value i with
                | Some i' => read_words None words' i'
                | None => inr ("error: unknown option '" +++ a +++ "'")
                end
            | (name, None) =>
                match set_option name "" i with
                | Some _ => read_words (Some name) words' i
                | None => inr ("error: unknown option '" +++ a +++ "'")
                end
            end
      end
  end.

(** A stand-in for commander with the options [main] declares.  The first
    two words of [process.argv] are the runtime and the script.  A command
    line it rejects ends the process with status 1, after the message has
    gone to standard error. *)
Definition parse (argv : list string) : M Input :=
  fun w =>
    match read_words None (skipn 2 argv) defaults with
    | inl i => (Ok i, w)
    | inr msg => (Exit 1%N, add_log Error msg w)
    end.

End Sim.

(* ================================================================== *)
(** ** Vocabulary of the statements *)
(* ================================================================== *)

(** Some command of the trace [t] invokes the program [cmd]. *)
Definition ran (cmd : string) (t : list (list string)) : bool :=
  existsb (fun argv => String.eqb (hd "" argv) cmd) t.

(** A run that started in [w] and ended as [res] ran an initial part of the
    commands [L], and all of them if it returned. *)
Definition traces_from (w : World) (res : outcome unit * World)
  (L : list (list string)) : Prop :=
  exists d, trace (snd res) = trace w ++ d /\
            (exists rest, L = d ++ rest) /\
            (fst res = Ok tt -> d = L).

(** What an iOS build of the single architecture [arch] runs when nothing
    fails: the preamble, the build of [arch], the direct copy of the two
    libraries, and the headers. *)
Definition ios_single_run (platform config tarPath : string) (o : Options)
  (arch : string) : list (list string) :=
  let dist := distPath o +++ "/" +++ platform in
  let src := "/tmp/openssl_" +++ platform in
  let install := "/tmp/openssl-" +++ platform +++ "-" +++ arch in
  [["xcode-select"; "-print-path"];
   ["mkdir"; "-p"; dist];
   ["rm"; "-rf"; src];
   ["mkdir"; "-p"; src];
   ["tar"; "xf"; tarPath; "-C"; src];
   ["rm"; "-rf"; install];
   ["./Configure"; config; "no-ui-console"; "no-engine"; "no-filenames"; "no-shared";
    "--prefix=" +++ install];
   ["make"; "-j8"];
   ["make"; "-j8"; "install_sw"];
   ["make"; "-j8"; "install_ssldirs"];
   ["cp"; install +++ "/lib/libssl.a"; dist +++ "/libssl.a"];
   ["cp"; install +++ "/lib/libcrypto.a"; dist +++ "/libcrypto.a"];
   ["rm"; "-rf"; dist +++ "/include"];
   ["cp"; "-a"; install +++ "/include"; dist]].

(** The outcome of an iOS build of a single architecture: the commands run
    are an initial part of [ios_single_run]; a run that returns has run all
    of them, unless it reused an existing source directory and stopped after
    the first two. *)
Definition ios_single_outcome (w : World) (res : outcome unit * World)
  (clean : bool) (full : list (list string)) : Prop :=
  exists d, trace (snd res) = trace w ++ d /\
            (exists rest, full = d ++ rest) /\
            (fst res = Ok tt -> d = full \/ (clean = false /\ d = firstn 2 full)).

(** The output directory [dist] of a platform holds the very headers of the
    install directory [install]. *)
Definition same_headers (w : World) (dist install : string) : Prop :=
  exists n,
    Fs.lookup (Fs.path_of (cwd w) (dist +++ "/include")) (fs w) = Some n /\
    Fs.lookup (Fs.path_of (cwd w) (install +++ "/include")) (fs w) = Some n.

(** [lipo] writes its output file and nothing else: a path that neither
    contains the output nor lies inside it is left as it was. *)
Definition lipo_confined (tools : list string -> World -> cmd_result) : Prop :=
  forall (args : list string) (w : World) (q : Fs.path),
    Fs.is_prefix (Fs.path_of (cwd w) (List.last args "")) q = false ->
    Fs.is_prefix q (Fs.path_of (cwd w) (List.last args "")) = false ->
    Fs.lookup q (snd (tools ("lipo" :: args) w)) = Fs.lookup q (fs w).

(** A handler that rethrows. *)
Definition rethrows {A} (h : error -> M A) : Prop :=
  forall e w, exists e', h e w = (Throw e', w).

(** [quiet m]: [m] runs no command and leaves the file system and the
    working directory alone. *)
Definition quiet {A} (m : M A) : Prop :=
  forall w r w', m w = (r, w') ->
    fs w' = fs w /\ cwd w' = cwd w /\ trace w' = trace w.

(** [traces m L]: whatever the outcome, the commands [m] runs are an initial
    part of [L], and all of [L] when [m] returns a value. *)
Definition traces {A} (m : M A) (L : list (list string)) : Prop :=
  forall w r w', m w = (r, w') ->
    exists d, trace w' = trace w ++ d /\
              (exists rest, L = d ++ rest) /\
              (forall a, r = Ok a -> d = L).

(** [extends m]: [m] only adds to the list of commands run. *)
Definition extends {A} (m : M A) : Prop :=
  forall w r w', m w = (r, w') -> exists d, trace w' = trace w ++ d.

(** [starts_with argv m]: whatever the outcome, the first command [m] runs
    is [argv]. *)
Definition starts_with {A} (argv : list string) (m : M A) : Prop :=
  forall w r w', m w = (r, w') -> exists rest, trace w' = trace w ++ argv :: rest.

(** [unfailing m]: [m] returns a value and runs no command. *)
Definition unfailing {A} (m : M A) : Prop :=
  forall w, exists a w1, m w = (Ok a, w1) /\ trace w1 = trace w.

(** [keeps q m]: whatever [m] does, the node at [q] is the same before and
    after. *)
Definition keeps {A} (q : Fs.path) (m : M A) : Prop :=
  forall w r w', m w = (r, w') -> Fs.lookup q (fs w') = Fs.lookup q (fs w).

(** A name that starts with the letter l: the libraries and their staged
    copies. *)
Definition lib_name (x : string) : bool :=
  match x with
  | String a _ => Ascii.eqb a "l"
  | EmptyString => false
  end.

(** [q] is clear of the files of the directory [d] that carry a library
    name: it is none of them, contains none, and lies in none. *)
Definition clear_of (d q : Fs.path) : Prop :=
  forall x, lib_name x = true ->
    Fs.is_prefix (d ++ [x]) q = false /\ Fs.is_prefix q (d ++ [x]) = false.

(** The commands of [t] that invoke [cmd]. *)
Definition calls (cmd : string) (t : list (list string)) : list (list string) :=
  filter (fun argv => String.eqb (hd "" argv) cmd) t.

(** The directory the process is in. *)
Definition cwd_path (w : World) : Fs.path := Fs.normalize (Js.split "/" (cwd w)).

(** [process.cwd()] is an absolute, normalised path. *)
Definition absolute_cwd (w : World) : Prop :=
  Js.starts_with_slash (cwd w) = true /\ Fs.render (cwd_path w) = cwd w.

(** [preserves f m]: whatever [m] does, the component [f] of the world is
    the same before and after. *)
Definition preserves {A X} (f : World -> X) (m : M A) : Prop :=
  forall w r w', m w = (r, w') -> f w' = f w.

(** [appends f m L]: whatever the outcome, what [m] adds to the list [f] of
    the world is an initial part of [L], and all of [L] when [m] returns a
    value. *)
Definition appends {A X} (f : World -> list X) (m : M A) (L : list X) : Prop :=
  forall w r w', m w = (r, w') ->
    exists d, f w' = f w ++ d /\
              (exists rest, L = d ++ rest) /\
              (forall a, r = Ok a -> d = L).

(** [no_exit m]: [m] never ends the process. *)
Definition no_exit {A} (m : M A) : Prop :=
  forall w r w', m w = (r, w') -> forall n, r <> Exit n.

(** [throws_only P m]: every error [m] throws satisfies [P]. *)
Definition throws_only {A} (P : error -> Prop) (m : M A) : Prop :=
  forall w e w', m w = (Throw e, w') -> P e.

(** [returns_home m]: started in an absolute directory, a run of [m] that
    returns a value ends in the directory it started in. *)
Definition returns_home {A} (m : M A) : Prop :=
  forall w a w', absolute_cwd w -> m w = (Ok a, w') -> cwd w' = cwd w.

(** The archive [downloadOpenssl] works with. *)
Definition archive_of (v : string) : string := "/tmp/openssl-" +++ v +++ ".tar.gz".

(** The commands of [main] before the first build, when nothing fails. *)
Definition setup_commands (o : Options) : list (list string) :=
  [["rm"; "-rf"; distPath o];
   ["mkdir"; "-p"; distPath o];
   ["rm"; "-rf"; archive_of (opensslVersion o)];
   ["rm"; "-rf"; "/tmp/openssl-" +++ opensslVersion o];
   ["mkdir"; "-p"; "/tmp/openssl-" +++ opensslVersion o]].

(** [bin] put [n] times in front of a search path. *)
Fixpoint prepend_times (n : nat) (bin path : string) : string :=
  match n with
  | O => path
  | S n' => bin +++ ":" +++ prepend_times n' bin path
  end.

(** What a turn of a platform loop can fail with: a command that exits with
    a non-zero status, or a library the install directory does not hold. *)
Definition turn_failure (libs : list string) (e : error) : Prop :=
  (exists argv code, e = ShellError argv code /\ code <> 0%N) \/
  (exists lib, In lib libs /\ e = JsError ("Library " +++ lib +++ " not found")).

(** The commands of one turn of the Android loop, when nothing fails. *)
Definition android_turn_run (dist arch : string) : list (list string) :=
  let install := "/tmp/openssl-android-" +++ arch in
  [["rm"; "-rf"; install];
   ["./Configure"; "android-" +++ arch; "-fPIC"; "no-ui-console"; "no-engine";
    "no-filenames"; "no-stdio"; "--prefix=" +++ install];
   ["make"; "-j8"];
   ["make"; "-j8"; "install_sw"];
   ["make"; "-j8"; "install_ssldirs"];
   ["mkdir"; "-p"; dist +++ "/" +++ arch]]
  ++ map (fun lib => ["cp"; "-a"; install +++ "/lib/" +++ lib;
                      (dist +++ "/" +++ arch) +++ "/" +++ lib]) android_libs
  ++ [["rm"; "-rf"; dist +++ "/include"];
      ["cp"; "-a"; install +++ "/include"; dist]].

(** The commands of an Android build of [archs] with the NDK at [ndk], when
    nothing fails. *)
Definition android_run (ndk tarPath : string) (o : Options) (archs : list string)
  : list (list string) :=
  [["ls"; ndk +++ "/toolchains/llvm/prebuilt"];
   ["mkdir"; "-p"; distPath o +++ "/android"];
   ["rm"; "-rf"; "/tmp/openssl_android"];
   ["mkdir"; "-p"; "/tmp/openssl_android"];
   ["tar"; "xf"; tarPath; "-C"; "/tmp/openssl_android"]]
  ++ List.concat (map (android_turn_run (distPath o +++ "/android")) archs).

(** The OpenSSL configuration an iOS build picks for an architecture. *)
Definition ios_config (platform arch : string) : string :=
  if String.eqb platform "iphoneos" then
    if String.eqb arch "arm64" then "ios64-xcrun" else "ios-xcrun"
  else
    if String.eqb arch "arm64" then "iossimulator-arm64-xcrun"
    else "iossimulator-x86_64-xcrun".

(** The staged copy of [lib] for one architecture. *)
Definition staged_file (dist lib arch : string) : string :=
  dist +++ "/" +++ lib +++ "." +++ arch.

(** The commands of one turn of an iOS loop, when nothing fails; with
    [staged] the libraries are copied to their staged names. *)
Definition ios_turn_run (platform dist : string) (staged : bool) (arch : string)
  : list (list string) :=
  let install := "/tmp/openssl-" +++ platform +++ "-" +++ arch in
  [["rm"; "-rf"; install];
   ["./Configure"; ios_config platform arch; "no-ui-console"; "no-engine"; "no-filenames";
    "no-shared"; "--prefix=" +++ install];
   ["make"; "-j8"];
   ["make"; "-j8"; "install_sw"];
   ["make"; "-j8"; "install_ssldirs"]]
  ++ map (fun lib => ["cp"; install +++ "/lib/" +++ lib;
                      if staged then staged_file dist lib arch
                      else dist +++ "/" +++ lib]) ios_libs
  ++ [["rm"; "-rf"; dist +++ "/include"];
      ["cp"; "-a"; install +++ "/include"; dist]].

(** The staged copies of [lib], one per architecture. *)
Definition staged_files (dist lib : string) (archs : list string) : list string :=
  map (staged_file dist lib) archs.

(** The commands of the merge step for one library; [words] is what the
    staged copies become on the command line of [lipo]. *)
Definition merge_run (words : list string -> list string) (dist : string)
  (archs : list string) (lib : string) : list (list string) :=
  (["lipo"] ++ words (staged_files dist lib archs)
            ++ ["-create"; "-output"; dist +++ "/" +++ lib])
  :: map (fun file => ["rm"; file]) (staged_files dist lib archs).

(** The commands of an iOS build of [archs], when nothing fails. *)
Definition ios_run (platform : string) (words : list string -> list string)
  (tarPath : string) (o : Options) (archs : list string) : list (list string) :=
  let dist := distPath o +++ "/" +++ platform in
  let src := "/tmp/openssl_" +++ platform in
  let several := Nat.ltb 1 (List.length archs) in
  [["xcode-select"; "-print-path"];
   ["mkdir"; "-p"; dist];
   ["rm"; "-rf"; src];
   ["mkdir"; "-p"; src];
   ["tar"; "xf"; tarPath; "-C"; src]]
  ++ List.concat (map (ios_turn_run platform dist several) archs)
  ++ (if several then List.concat (map (merge_run words dist archs) ios_libs) else []).

(** The commands of a whole run with target [all], when nothing fails: the
    setup, then the three builds in their fixed order. *)
Definition all_run (ndk : string) (o : Options) (android iphoneos iphonesim : list string)
  : list (list string) :=
  let tarPath := archive_of (opensslVersion o) in
  setup_commands o
  ++ android_run ndk tarPath o android
  ++ ios_run "iphoneos" (fun files => [Js.join " " files]) tarPath o iphoneos
  ++ ios_run "iphonesim" (fun files => files) tarPath o iphonesim.

(* ================================================================== *)
(** ** Facts about strings and paths *)
(* ================================================================== *)

Module JsFacts.
Import Js.

Lemma split_nonempty (c : ascii) (s : string) : split c s <> [].
Proof.
  destruct s as [|a s]; simpl; [discriminate|].
  destruct (Ascii.eqb a c); [discriminate|].
  destruct (split c s); discriminate.
Qed.

(** Splitting around one separator splits both sides. *)
Lemma split_app (c : ascii) (a b : string) :
  split c (a +++ String c b) = split c a ++ split c b.
Proof.
  induction a as [|x a IH]; simpl.
  - now rewrite Ascii.eqb_refl.
  - destruct (Ascii.eqb x c); [now rewrite IH|].
    rewrite IH. destruct (split c a) as [|h t] eqn:E; [|reflexivity].
    now apply split_nonempty in E.
Qed.

(** A string without the separator is a single field. *)
Lemma split_lacks (c : ascii) (s : string) : lacks c s = true -> split c s = [s].
Proof.
  induction s as [|a s IH]; simpl; [reflexivity|].
  intros H. apply andb_prop in H as [Ha Hs].
  apply negb_true_iff in Ha. rewrite Ha, (IH Hs). reflexivity.
Qed.

Lemma append_nil_r (s : string) : s +++ "" = s.
Proof. induction s; simpl; congruence. Qed.

Lemma append_assoc (a b c : string) : (a +++ b) +++ c = a +++ b +++ c.
Proof. induction a; simpl; congruence. Qed.

End JsFacts.

Module FsFacts.
Import Fs.

Lemma norm_step_kept (p : path) (x : string) : kept x = true -> norm_step p x = p ++ [x].
Proof.
  unfold kept, norm_step. intros H.
  apply andb_prop in H as [H H3]. apply andb_prop in H as [H1 H2].
  apply negb_true_iff in H1, H2, H3. now rewrite H1, H2, H3.
Qed.

(** Below a non-empty path string, [a/s] resolves from where [a] does. *)
Lemma path_of_sub (c a s : string) :
  a <> "" ->
  path_of c (a +++ String "/" s) = fold_left norm_step (Js.split "/" s) (path_of c a).
Proof.
  intros Ha. unfold path_of.
  assert (E : Js.starts_with_slash (a +++ String "/" s) = Js.starts_with_slash a)
    by (destruct a; [congruence | reflexivity]).
  rewrite E, JsFacts.split_app.
  destruct (Js.starts_with_slash a); unfold normalize; now rewrite fold_left_app.
Qed.

(** The same for a single kept component. *)
Lemma path_of_child (c a x : string) :
  a <> "" -> Js.lacks "/" x = true -> kept x = true ->
  path_of c (a +++ String "/" x) = path_of c a ++ [x].
Proof.
  intros Ha Hx Hk. rewrite path_of_sub by assumption.
  rewrite (JsFacts.split_lacks _ _ Hx). simpl. now apply norm_step_kept.
Qed.

Lemma path_of_child_app (c a x : string) :
  a <> "" -> Js.lacks "/" x = true -> kept x = true ->
  path_of c (a +++ "/" +++ x) = path_of c a ++ [x].
Proof. apply path_of_child. Qed.

Lemma assoc_set_same k v es : assoc k (assoc_set k v es) = Some v.
Proof.
  induction es as [|[k' v'] es IH]; simpl.
  - now rewrite String.eqb_refl.
  - destruct (String.eqb k k') eqn:E; simpl.
    + now rewrite String.eqb_refl.
    + now rewrite E.
Qed.

Lemma assoc_set_other k k' v es : k <> k' -> assoc k' (assoc_set k v es) = assoc k' es.
Proof.
  intros Hne. induction es as [|[k0 v0] es IH]; simpl.
  - destruct (String.eqb k' k) eqn:E; [|reflexivity].
    apply String.eqb_eq in E. congruence.
  - destruct (String.eqb k k0) eqn:E; simpl.
    + apply String.eqb_eq in E. subst k0.
      destruct (String.eqb k' k) eqn:E'; [|reflexivity].
      apply String.eqb_eq in E'. congruence.
    + now rewrite IH.
Qed.

Lemma assoc_del_same k es : assoc k (assoc_del k es) = None.
Proof.
  induction es as [|[k0 v0] es IH]; simpl; [reflexivity|].
  destruct (String.eqb k k0) eqn:E; simpl; [assumption|now rewrite E].
Qed.

Lemma assoc_del_other k k' es : k <> k' -> assoc k' (assoc_del k es) = assoc k' es.
Proof.
  intros Hne. induction es as [|[k0 v0] es IH]; simpl; [reflexivity|].
  destruct (String.eqb k k0) eqn:E; simpl.
  - apply String.eqb_eq in E. subst k0.
    destruct (String.eqb k' k) eqn:E'; [|assumption].
    apply String.eqb_eq in E'. congruence.
  - now rewrite IH.
Qed.

Lemma lookup_app p q n :
  lookup (p ++ q) n = match lookup p n with Some m => lookup q m | None => None end.
Proof.
  revert n. induction p as [|x p IH]; intros n; simpl; [reflexivity|].
  destruct n as [|es]; [reflexivity|].
  destruct (assoc x es); [apply IH|reflexivity].
Qed.

Lemma lookup_below_file q c : q <> [] -> lookup q (File c) = None.
Proof. destruct q; [congruence | reflexivity]. Qed.

(** Something exists below [p] only if [p] is a directory. *)
Lemma dir_at_above p x q n m :
  lookup (p ++ x :: q) n = Some m -> dir_at p n = true.
Proof.
  rewrite lookup_app. unfold dir_at.
  destruct (lookup p n) as [[c|es]|]; simpl; congruence.
Qed.

Lemma dir_at_prefix p q n : dir_at (p ++ q) n = true -> dir_at p n = true.
Proof.
  destruct q as [|x q]; [now rewrite app_nil_r|].
  unfold dir_at at 1. destruct (lookup (p ++ x :: q) n) eqn:E; [|discriminate].
  intros _. eapply dir_at_above; eauto.
Qed.

Lemma is_prefix_app p q : is_prefix p (p ++ q) = true.
Proof. induction p; simpl; [reflexivity|]. now rewrite String.eqb_refl. Qed.

Lemma is_prefix_spec p q : is_prefix p q = true -> exists r, q = p ++ r.
Proof.
  revert q. induction p as [|x p IH]; intros q H; simpl in *.
  - now exists q.
  - destruct q as [|y q]; [discriminate|].
    apply andb_prop in H as [Hx Hp]. apply String.eqb_eq in Hx. subst y.
    destruct (IH _ Hp) as [r ->]. now exists r.
Qed.

Lemma write_lookup_same p v n r : write p v n = Some r -> lookup p r = Some v.
Proof.
  revert n r. induction p as [|x p IH]; intros n r H; simpl in *.
  - congruence.
  - destruct n as [|es]; [discriminate|].
    destruct p as [|y p].
    + inversion H; subst. simpl. now rewrite assoc_set_same.
    + destruct (assoc x es) as [c|]; [|discriminate].
      destruct (write (y :: p) v c) as [c'|] eqn:E; [|discriminate].
      inversion H; subst. cbn [lookup]. rewrite assoc_set_same. eapply IH; eauto.
Qed.

(** Writing at [p] leaves every path that neither contains [p] nor lies
    inside it as it was. *)
Lemma write_lookup_other p v n r q :
  write p v n = Some r ->
  is_prefix p q = false -> is_prefix q p = false ->
  lookup q r = lookup q n.
Proof.
  revert n r q. induction p as [|x p IH]; intros n r q H Hpq Hqp; simpl in *.
  - discriminate.
  - destruct q as [|y q]; [discriminate|].
    destruct n as [|es]; [discriminate|].
    simpl in Hpq, Hqp.
    destruct (String.eqb x y) eqn:Exy.
    + apply String.eqb_eq in Exy. subst y. rewrite String.eqb_refl in Hqp.
      simpl in Hpq, Hqp.
      destruct p as [|z p].
      * simpl in Hpq. discriminate.
      * destruct (assoc x es) as [c|] eqn:Ec; [|discriminate].
        destruct (write (z :: p) v c) as [c'|] eqn:E; [|discriminate].
        inversion H; subst. cbn [lookup]. rewrite assoc_set_same, Ec.
        eapply IH; eauto.
    + assert (x <> y) by (intros ->; now rewrite String.eqb_refl in Exy).
      destruct p as [|z p].
      * inversion H; subst. cbn [lookup]. now rewrite assoc_set_other.
      * destruct (assoc x es) as [c|] eqn:Ec; [|discriminate].
        destruct (write (z :: p) v c) as [c'|] eqn:E; [|discriminate].
        inversion H; subst. cbn [lookup]. now rewrite assoc_set_other.
Qed.

(** After a write the parent of the target is a directory. *)
Lemma write_parent p x v n r : write (p ++ [x]) v n = Some r -> dir_at p r = true.
Proof.
  intros H. apply write_lookup_same in H. eapply dir_at_above; eauto.
Qed.

Lemma remove_cons y t es :
  t <> [] ->
  remove (y :: t) (Dir es) =
  match assoc y es with
  | Some c => Dir (assoc_set y (remove t c) es)
  | None => Dir es
  end.
Proof. destruct t; [congruence | reflexivity]. Qed.

Lemma remove_lookup_same p x n : lookup (p ++ [x]) (remove (p ++ [x]) n) = None.
Proof.
  revert n. induction p as [|y p IH]; intros n.
  - simpl. destruct n as [|es]; [reflexivity|]. now rewrite assoc_del_same.
  - change ((y :: p) ++ [x]) with (y :: (p ++ [x])).
    destruct n as [|es]; [reflexivity|].
    rewrite remove_cons by (now destruct p).
    destruct (assoc y es) as [c|] eqn:Ec.
    + cbn [lookup]. rewrite assoc_set_same. apply IH.
    + cbn [lookup]. now rewrite Ec.
Qed.

(** Removing something inside [p] leaves [p] a directory. *)
Lemma remove_keeps_dir p x q n :
  dir_at p n = true -> dir_at p (remove (p ++ x :: q) n) = true.
Proof.
  revert n. induction p as [|y p IH]; intros n H.
  - unfold dir_at in *. simpl in *. destruct n as [|es]; [discriminate|].
    destruct q; [reflexivity|]. now destruct (assoc x es).
  - unfold dir_at in H. cbn [lookup] in H.
    destruct n as [|es]; [discriminate|].
    destruct (assoc y es) as [c|] eqn:Ec; [|discriminate].
    change ((y :: p) ++ x :: q) with (y :: (p ++ x :: q)).
    rewrite remove_cons by (now destruct p).
    rewrite Ec. unfold dir_at. cbn [lookup]. rewrite assoc_set_same.
    apply (IH c). exact H.
Qed.

(** [mkdir -p] removes nothing. *)
Lemma mkdirp_keeps q : forall p n r m,
  mkdirp q n = Some r -> lookup p n = Some m -> exists_at p r = true.
Proof.
  induction q as [|x q IH]; intros p n r m H Hp.
  - destruct n; simpl in H; [discriminate|]. inversion H; subst.
    unfold exists_at. now rewrite Hp.
  - destruct n as [|es]; simpl in H; [discriminate|].
    destruct (mkdirp q match assoc x es with Some c => c | None => Dir [] end)
      as [c'|] eqn:E; [|discriminate].
    inversion H; subst. clear H.
    destruct p as [|y p]; [reflexivity|].
    unfold exists_at. cbn [lookup] in *.
    destruct (String.eqb_spec x y) as [->|Hne].
    + rewrite assoc_set_same. destruct (assoc y es) as [c|]; [|discriminate].
      specialize (IH p c c' m E Hp). exact IH.
    + rewrite assoc_set_other by assumption.
      destruct (assoc y es); [|discriminate]. now rewrite Hp.
Qed.

(** [mkdir -p p] changes nothing at a path that is no initial part of [p]. *)
Lemma mkdirp_lookup_other p : forall q n r,
  mkdirp p n = Some r -> is_prefix q p = false -> lookup q r = lookup q n.
Proof.
  induction p as [|x p IH]; intros q n r H Hq.
  - destruct n; simpl in H; [discriminate|]. now inversion H.
  - destruct n as [|es]; simpl in H; [discriminate|].
    destruct (mkdirp p match assoc x es with Some c => c | None => Dir [] end)
      as [c'|] eqn:E; [|discriminate].
    inversion H; subst. clear H.
    destruct q as [|y q]; [discriminate|]. cbn [lookup]. simpl in Hq.
    destruct (String.eqb_spec y x) as [->|Hne].
    + simpl in Hq. rewrite assoc_set_same, (IH _ _ _ E Hq).
      destruct (assoc x es); [reflexivity|].
      destruct q; [discriminate | reflexivity].
    + now rewrite assoc_set_other by congruence.
Qed.

Lemma is_prefix_removelast q p : is_prefix q (removelast p) = true -> is_prefix q p = true.
Proof.
  intros H. apply is_prefix_spec in H as [r Hr].
  destruct p as [|x p] using rev_ind.
  - simpl in Hr. symmetry in Hr. apply app_eq_nil in Hr as [-> _]. reflexivity.
  - rewrite removelast_last in Hr. subst p. rewrite <- app_assoc. apply is_prefix_app.
Qed.

End FsFacts.

(* ================================================================== *)
(** ** Reasoning about scripts *)
(* ================================================================== *)

Lemma bind_run {A B} (m : M A) (k : A -> M B) (w : World) :
  bind m k w =
  match m w with
  | (Ok a, w1) => k a w1
  | (Throw e, w1) => (Throw e, w1)
  | (Exit n, w1) => (Exit n, w1)
  end.
Proof. reflexivity. Qed.

Lemma bind_ok {A B} (m : M A) (k : A -> M B) w a w1 :
  m w = (Ok a, w1) -> bind m k w = k a w1.
Proof. intros H. now rewrite bind_run, H. Qed.

Lemma bind_throw {A B} (m : M A) (k : A -> M B) w e w1 :
  m w = (Throw e, w1) -> bind m k w = (Throw e, w1).
Proof. intros H. now rewrite bind_run, H. Qed.

Lemma bind_ok_inv {A B} (m : M A) (k : A -> M B) w b w' :
  bind m k w = (Ok b, w') ->
  exists a w1, m w = (Ok a, w1) /\ k a w1 = (Ok b, w').
Proof.
  rewrite bind_run. destruct (m w) as [[a|e|n] w1]; intros H; try discriminate.
  now exists a, w1.
Qed.

Lemma rethrows_throw {A} (f : error -> error) :
  rethrows (fun e => @throw A (f e)).
Proof. intros e w. now exists (f e). Qed.

Lemma try_catch_ok_inv {A} (m : M A) h w a w' :
  rethrows h -> try_catch m h w = (Ok a, w') -> m w = (Ok a, w').
Proof.
  intros Hh. unfold try_catch. destruct (m w) as [[x|e|n] w1]; intros H; try discriminate.
  - exact H.
  - destruct (Hh e w1) as [e' E]. rewrite E in H. discriminate.
Qed.

Lemma for_of_app {A} (l1 l2 : list A) (f : A -> M unit) w :
  for_of (l1 ++ l2) f w =
  match for_of l1 f w with
  | (Ok _, w1) => for_of l2 f w1
  | r => r
  end.
Proof.
  revert w. induction l1 as [|x l1 IH]; intros w; simpl.
  - reflexivity.
  - rewrite !bind_run. destruct (f x w) as [[[]|e|n] w1]; try reflexivity. apply IH.
Qed.

(** A loop that completes has completed its last turn from the world the
    earlier turns left. *)
Lemma for_of_last_inv {A} (l : list A) (x : A) (f : A -> M unit) w w' :
  for_of (l ++ [x]) f w = (Ok tt, w') ->
  exists w1, for_of l f w = (Ok tt, w1) /\ f x w1 = (Ok tt, w').
Proof.
  rewrite for_of_app. destruct (for_of l f w) as [[[]|e|n] w1]; try discriminate.
  simpl. rewrite bind_run. intros H. exists w1. split; [reflexivity|].
  destruct (f x w1) as [[[]|e|n] w2]; try discriminate.
  unfold ret in H. congruence.
Qed.

Lemma quiet_log l s : quiet (log l s).
Proof. intros w r w' H. inversion H; subst. now simpl. Qed.

Lemma quiet_onExit p : quiet (onExit p).
Proof. intros w r w' H. inversion H; subst. now simpl. Qed.

Lemma quiet_onExitVar x : quiet (onExitVar x).
Proof. intros w r w' H. inversion H; subst. now simpl. Qed.

Lemma quiet_assign x v : quiet (assign x v).
Proof. intros w r w' H. inversion H; subst. now simpl. Qed.

Lemma quiet_newVar v : quiet (newVar v).
Proof. intros w r w' H. inversion H; subst. now simpl. Qed.

Lemma quiet_existsSync p : quiet (existsSync p).
Proof. intros w r w' H. inversion H; subst. now simpl. Qed.

Lemma quiet_getenv k : quiet (getenv k).
Proof. intros w r w' H. inversion H; subst. now simpl. Qed.

Lemma quiet_setenv k v : quiet (setenv k v).
Proof. intros w r w' H. inversion H; subst. now simpl. Qed.

Lemma quiet_ret {A} (a : A) : quiet (ret a).
Proof. intros w r w' H. inversion H; subst. now simpl. Qed.

Lemma quiet_throw {A} e : quiet (@throw A e).
Proof. intros w r w' H. inversion H; subst. now simpl. Qed.

Lemma quiet_when b m : quiet m -> quiet (when b m).
Proof. destruct b; simpl; [auto | intros _; apply quiet_ret]. Qed.

Lemma quiet_bind {A B} (m : M A) (k : A -> M B) :
  quiet m -> (forall a, quiet (k a)) -> quiet (bind m k).
Proof.
  intros Hm Hk w r w'. rewrite bind_run.
  destruct (m w) as [[a|e|n] w1] eqn:E; intros H.
  - destruct (Hm _ _ _ E) as (F & C & T). destruct (Hk a _ _ _ H) as (F' & C' & T').
    repeat split; congruence.
  - inversion H; subst. eauto.
  - inversion H; subst. eauto.
Qed.

Create HintDb script.

#[export] Hint Resolve quiet_log quiet_onExit quiet_onExitVar quiet_assign quiet_newVar
  quiet_existsSync quiet_getenv quiet_setenv
  quiet_ret quiet_throw quiet_when quiet_bind : script.

Lemma traces_quiet {A} (m : M A) : quiet m -> traces m [].
Proof.
  intros Hq w r w' H. destruct (Hq _ _ _ H) as (_ & _ & T).
  exists []. rewrite app_nil_r. repeat split; auto. now exists [].
Qed.

Lemma traces_throw {A} e L : traces (@throw A e) L.
Proof.
  intros w r w' H. inversion H; subst. exists []. rewrite app_nil_r.
  repeat split; [now exists L | discriminate].
Qed.

Lemma traces_bind {A B} (m : M A) (k : A -> M B) L1 L2 :
  traces m L1 -> (forall a, traces (k a) L2) -> traces (bind m k) (L1 ++ L2).
Proof.
  intros Hm Hk w r w'. rewrite bind_run.
  destruct (m w) as [[a|e|n] w1] eqn:E; intros H.
  - destruct (Hm _ _ _ E) as (d1 & T1 & _ & F1). rewrite (F1 a eq_refl) in T1.
    destruct (Hk a _ _ _ H) as (d2 & T2 & (rest & R2) & F2).
    exists (L1 ++ d2). rewrite T2, T1, app_assoc. split; [reflexivity|]. split.
    + exists rest. now rewrite R2, app_assoc.
    + intros b Hb. now rewrite (F2 b Hb).
  - inversion H; subst. destruct (Hm _ _ _ E) as (d1 & T1 & (rest & R1) & _).
    exists d1. split; [assumption|]. split; [|discriminate].
    exists (rest ++ L2). now rewrite R1, app_assoc.
  - inversion H; subst. destruct (Hm _ _ _ E) as (d1 & T1 & (rest & R1) & _).
    exists d1. split; [assumption|]. split; [|discriminate].
    exists (rest ++ L2). now rewrite R1, app_assoc.
Qed.

Lemma traces_quiet_bind {A B} (m : M A) (k : A -> M B) L :
  quiet m -> (forall a, traces (k a) L) -> traces (bind m k) L.
Proof.
  intros Hm Hk. change L with ([] ++ L).
  apply traces_bind; [now apply traces_quiet | assumption].
Qed.

Lemma traces_try_catch {A} (m : M A) h L :
  traces m L -> (forall e, quiet (h e)) -> rethrows h -> traces (try_catch m h) L.
Proof.
  intros Hm Hq Hh w r w'. unfold try_catch.
  destruct (m w) as [[a|e|n] w1] eqn:E; intros H.
  - inversion H; subst. eauto.
  - destruct (Hm _ _ _ E) as (d & T & R & _). destruct (Hq e _ _ _ H) as (_ & _ & T').
    destruct (Hh e w1) as [e' E']. rewrite E' in H. inversion H; subst.
    exists d. repeat split; auto. discriminate.
  - inversion H; subst. eauto.
Qed.

Lemma traces_try_finally {A} (m : M A) f L :
  traces m L -> quiet f -> traces (try_finally m f) L.
Proof.
  intros Hm Hq w r w'. unfold try_finally.
  destruct (m w) as [[a|e|n] w1] eqn:E.
  - destruct (Hm _ _ _ E) as (d & T & R & F).
    destruct (f w1) as [[[]|e'|n'] w2] eqn:Ef; intros H; inversion H; subst;
      destruct (Hq _ _ _ Ef) as (_ & _ & T'); exists d; rewrite T';
      repeat split; eauto; try discriminate.
  - destruct (Hm _ _ _ E) as (d & T & R & F).
    destruct (f w1) as [[[]|e'|n'] w2] eqn:Ef; intros H; inversion H; subst;
      destruct (Hq _ _ _ Ef) as (_ & _ & T'); exists d; rewrite T';
      repeat split; auto; discriminate.
  - intros H. inversion H; subst. eauto.
Qed.

Lemma traces_for_of {A} (l : list A) (f : A -> M unit) (g : A -> list (list string)) :
  (forall x, traces (f x) (g x)) -> traces (for_of l f) (List.concat (map g l)).
Proof.
  intros Hf. induction l as [|x l IH]; simpl.
  - apply traces_quiet, quiet_ret.
  - apply traces_bind; auto.
Qed.

Lemma quiet_chdir p : forall w r w', chdir p w = (r, w') -> fs w' = fs w /\ trace w' = trace w.
Proof.
  intros w r w'. unfold chdir.
  destruct (Fs.dir_at _ _); intros H; inversion H; subst; now simpl.
Qed.

Lemma traces_chdir p : traces (chdir p) [].
Proof.
  intros w r w' H. destruct (quiet_chdir _ _ H) as (_ & T).
  exists []. rewrite app_nil_r. repeat split; auto. now exists [].
Qed.

Lemma traces_withDir {T} dirPath (callback : M T) L :
  traces callback L -> traces (withDir dirPath callback) L.
Proof.
  intros Hc. unfold withDir.
  apply traces_quiet_bind; [intros w r w' H; inversion H; subst; auto|].
  intros originalDir w r w'. unfold try_finally.
  assert (Hb : traces (chdir dirPath ;; callback) L)
    by (change L with ([] ++ L); apply traces_bind; [apply traces_chdir | auto]).
  destruct ((chdir dirPath ;; callback) w) as [[a|e|n] w1] eqn:E.
  - destruct (Hb _ _ _ E) as (d & T1 & R & F).
    destruct (chdir originalDir w1) as [[[]|e'|n'] w2] eqn:Ef; intros H; inversion H; subst;
      destruct (quiet_chdir _ _ Ef) as (_ & T'); exists d; rewrite T';
      repeat split; eauto; try discriminate.
  - destruct (Hb _ _ _ E) as (d & T1 & R & F).
    destruct (chdir originalDir w1) as [[[]|e'|n'] w2] eqn:Ef; intros H; inversion H; subst;
      destruct (quiet_chdir _ _ Ef) as (_ & T'); exists d; rewrite T';
      repeat split; auto; discriminate.
  - intros H. inversion H; subst. eauto.
Qed.

Lemma quiet_getcwd : quiet getcwd.
Proof. intros w r w' H. inversion H; subst. now simpl. Qed.

#[export] Hint Resolve quiet_getcwd : script.

Lemma extends_quiet {A} (m : M A) : quiet m -> extends m.
Proof.
  intros Hq w r w' H. destruct (Hq _ _ _ H) as (_ & _ & T).
  exists []. now rewrite app_nil_r.
Qed.

Lemma extends_bind {A B} (m : M A) (k : A -> M B) :
  extends m -> (forall a, extends (k a)) -> extends (bind m k).
Proof.
  intros Hm Hk w r w'. rewrite bind_run.
  destruct (m w) as [[a|e|n] w1] eqn:E; intros H.
  - destruct (Hm _ _ _ E) as (d1 & T1). destruct (Hk a _ _ _ H) as (d2 & T2).
    exists (d1 ++ d2). now rewrite T2, T1, app_assoc.
  - injection H as <- <-. eauto.
  - injection H as <- <-. eauto.
Qed.

Lemma extends_try_catch {A} (m : M A) h :
  extends m -> (forall e, extends (h e)) -> extends (try_catch m h).
Proof.
  intros Hm Hh w r w'. unfold try_catch.
  destruct (m w) as [[a|e|n] w1] eqn:E; intros H.
  - injection H as <- <-. eauto.
  - destruct (Hm _ _ _ E) as (d1 & T1). destruct (Hh e _ _ _ H) as (d2 & T2).
    exists (d1 ++ d2). now rewrite T2, T1, app_assoc.
  - injection H as <- <-. eauto.
Qed.

Lemma extends_for_of {A} (l : list A) (f : A -> M unit) :
  (forall x, extends (f x)) -> extends (for_of l f).
Proof.
  intros Hf. induction l as [|x l IH]; cbn [for_of].
  - apply extends_quiet, quiet_ret.
  - apply extends_bind; auto.
Qed.

Lemma extends_when b m : extends m -> extends (when b m).
Proof. destruct b; cbn [when]; [auto | intros _; apply extends_quiet, quiet_ret]. Qed.

Lemma extends_chdir p : extends (chdir p).
Proof.
  intros w r w' H. destruct (quiet_chdir _ _ H) as (_ & Ht).
  exists []. now rewrite app_nil_r.
Qed.

Lemma extends_withDir {A} dirPath (callback : M A) :
  extends callback -> extends (withDir dirPath callback).
Proof.
  intros Hc. unfold withDir.
  apply extends_bind; [apply extends_quiet; auto with script|].
  intros originalDir w r w'. unfold try_finally.
  assert (Hb : extends (chdir dirPath ;; callback))
    by (apply extends_bind; [apply extends_chdir | auto]).
  destruct ((chdir dirPath ;; callback) w) as [[a|e|n] w1] eqn:E.
  - destruct (Hb _ _ _ E) as (d & T1).
    destruct (chdir originalDir w1) as [[[]|e'|n'] w2] eqn:Ef; intros H0;
      injection H0 as <- <-; destruct (quiet_chdir _ _ Ef) as (_ & T');
      exists d; now rewrite T'.
  - destruct (Hb _ _ _ E) as (d & T1).
    destruct (chdir originalDir w1) as [[[]|e'|n'] w2] eqn:Ef; intros H0;
      injection H0 as <- <-; destruct (quiet_chdir _ _ Ef) as (_ & T');
      exists d; now rewrite T'.
  - intros H0. injection H0 as <- <-. eauto.
Qed.

Lemma unfailing_log l s : unfailing (log l s).
Proof. intros w. now eexists _, _. Qed.

Lemma unfailing_onExit p : unfailing (onExit p).
Proof. intros w. now eexists _, _. Qed.

Lemma unfailing_onExitVar x : unfailing (onExitVar x).
Proof. intros w. now eexists _, _. Qed.

Lemma unfailing_assign x v : unfailing (assign x v).
Proof. intros w. now eexists _, _. Qed.

Lemma unfailing_ret {A} (a : A) : unfailing (ret a).
Proof. intros w. now eexists _, _. Qed.

Lemma unfailing_when b m : unfailing m -> unfailing (when b m).
Proof. destruct b; cbn [when]; [auto | intros _; apply unfailing_ret]. Qed.

Lemma starts_after {A B} argv (m : M A) (k : A -> M B) :
  unfailing m -> (forall a, starts_with argv (k a)) -> starts_with argv (bind m k).
Proof.
  intros Hm Hk w r w'. rewrite bind_run.
  destruct (Hm w) as (a & w1 & E & T). rewrite E. intros H.
  destruct (Hk a _ _ _ H) as (rest & T'). exists rest. now rewrite T', T.
Qed.

Lemma starts_bind {A B} argv (m : M A) (k : A -> M B) :
  starts_with argv m -> (forall a, extends (k a)) -> starts_with argv (bind m k).
Proof.
  intros Hm Hk w r w'. rewrite bind_run.
  destruct (m w) as [[a|e|n] w1] eqn:E; intros H.
  - destruct (Hm _ _ _ E) as (rest & T). destruct (Hk a _ _ _ H) as (d & T').
    exists (rest ++ d). rewrite T', T, <- app_assoc. reflexivity.
  - injection H as <- <-. eauto.
  - injection H as <- <-. eauto.
Qed.

Lemma starts_try_catch {A} argv (m : M A) h :
  starts_with argv m -> (forall e, extends (h e)) -> starts_with argv (try_catch m h).
Proof.
  intros Hm Hh w r w'. unfold try_catch.
  destruct (m w) as [[a|e|n] w1] eqn:E; intros H.
  - injection H as <- <-. eauto.
  - destruct (Hm _ _ _ E) as (rest & T). destruct (Hh e _ _ _ H) as (d & T').
    exists (rest ++ d). rewrite T', T, <- app_assoc. reflexivity.
  - injection H as <- <-. eauto.
Qed.

(** A run that ends here, with the commands recorded in [T]. *)
Ltac stop_with T :=
  intros [= <- <-]; eexists; (split; [exact T|]);
  (split; [try (eexists; reflexivity) | try discriminate]).

Section HostFacts.

Variable tools : list string -> World -> cmd_result.

Lemma sh_run (argv : list string) (w : World) :
  exists code out n,
    run_cmd tools argv w = (code, out, n) /\
    sh tools argv w =
    (if N.eqb code 0 then Ok out else Throw (ShellError argv code),
     set_fs n (add_trace argv w)).
Proof.
  unfold sh. destruct (run_cmd tools argv w) as [[code out] n].
  exists code, out, n. split; [reflexivity|]. now destruct (N.eqb code 0).
Qed.

(** Every command is recorded, and none moves the process. *)
Lemma sh_frame argv w r w' :
  sh tools argv w = (r, w') ->
  trace w' = trace w ++ [argv] /\ cwd w' = cwd w.
Proof.
  destruct (sh_run argv w) as (code & out & n & _ & E). rewrite E.
  intros H. inversion H; subst. now simpl.
Qed.

Lemma sh_ok_inv argv w out w' :
  sh tools argv w = (Ok out, w') ->
  exists n, run_cmd tools argv w = (0%N, out, n) /\ w' = set_fs n (add_trace argv w).
Proof.
  destruct (sh_run argv w) as (code & out' & n & R & E). rewrite E.
  destruct (N.eqb_spec code 0); intros H; inversion H; subst. now exists n.
Qed.

Lemma traces_sh argv : traces (sh tools argv) [argv].
Proof.
  intros w r w' H. destruct (sh_frame _ _ H) as (T & _).
  exists [argv]. repeat split; auto. now exists [].
Qed.

Lemma traces_sh_bind {B} argv (k : string -> M B) L :
  (forall out, traces (k out) L) -> traces (bind (sh tools argv) k) (argv :: L).
Proof. intros H. change (argv :: L) with ([argv] ++ L). apply traces_bind; [apply traces_sh | exact H]. Qed.

Lemma starts_sh {B} argv (k : string -> M B) :
  (forall a, extends (k a)) -> starts_with argv (bind (sh tools argv) k).
Proof.
  intros Hk. apply starts_bind; [|exact Hk].
  intros w r w' H. destruct (sh_frame _ _ H) as (T & _). exists []. exact T.
Qed.

Lemma extends_sh argv : extends (sh tools argv).
Proof. intros w r w' H. destruct (sh_frame _ _ H) as (T & _). eauto. Qed.

End HostFacts.

(** Show that a script only adds to the list of commands run. *)
Ltac extends_tac :=
  cbv zeta;
  repeat first
    [ apply extends_sh
    | apply extends_bind; [|intros]
    | apply extends_try_catch; [|intros]
    | apply extends_withDir
    | apply extends_for_of; intros
    | apply extends_when
    | match goal with |- extends (if ?b then _ else _) => destruct b end
    | match goal with |- extends (match ?x with _ => _ end) => destruct x end
    | apply extends_quiet; solve [auto 10 with script]
    | progress cbv zeta ].

(* ================================================================== *)
(** ** createOptions *)
(* ================================================================== *)

(** What [createOptions] returns has an absolute [distPath]. *)
Lemma createOptions_sets_up (input : Input) (w w' : World) (o : Options) :
  createOptions input w = (Ok o, w') -> Js.starts_with_slash (distPath o) = true.
Proof.
  unfold createOptions.
  destruct (in_opensslVersion input) as [v|]; [|discriminate].
  destruct (String.eqb v ""); [discriminate|].
  rewrite bind_run. unfold path_resolve.
  destruct (in_distPath input); [|discriminate].
  intros H. inversion H; subst. reflexivity.
Qed.

(** C1.  Every input [createOptions] accepts yields [clean = true], also
    when the caller passes [clean = false]: [input.clean || true] never
    evaluates to [false]. *)
Theorem createOptions_forces_clean (input : Input) (w w' : World) (o : Options) :
  createOptions input w = (Ok o, w') -> clean o = true.
Proof.
  unfold createOptions.
  destruct (in_opensslVersion input) as [v|]; [|discriminate].
  destruct (String.eqb v ""); [discriminate|].
  rewrite bind_run. unfold path_resolve.
  destruct (in_distPath input); [|discriminate].
  intros H. inversion H; subst. simpl.
  now destruct (in_clean input) as [[|]|].
Qed.

Lemma createOptions_forces_clean_witness :
  in_clean Sim.defaults = Some false /\
  exists o, createOptions Sim.defaults Sim.world0 = (Ok o, Sim.world0) /\ clean o = true.
Proof.
  split; [reflexivity|]. eexists. split; [reflexivity|].
  apply (createOptions_forces_clean Sim.defaults Sim.world0 (w' := Sim.world0)).
  reflexivity.
Defined.

(** C10, as the code has it.  [createOptions] throws exactly when
    [opensslVersion] is absent or empty or [distPath] is absent (which
    [path.resolve] rejects).  It changes nothing in the world; the version,
    the target, the API level and the three architecture lists are returned
    as they came; [distPath] is returned resolved against the working
    directory, and [clean] as [input.clean || true]. *)
Theorem createOptions_accepts (input : Input) (w : World) :
  ((exists e w', createOptions input w = (Throw e, w')) <->
   (Js.truthy_str (in_opensslVersion input) = false \/ in_distPath input = None)) /\
  (forall o w', createOptions input w = (Ok o, w') ->
     w' = w /\
     in_opensslVersion input = Some (opensslVersion o) /\
     target o = in_target input /\
     androidAPI o = in_androidAPI input /\
     androidArchs o = in_androidArchs input /\
     iphoneosArchs o = in_iphoneosArchs input /\
     iphonesimArchs o = in_iphonesimArchs input /\
     clean o = Js.or_bool (in_clean input) true /\
     exists d, in_distPath input = Some d /\
               distPath o = Fs.render (Fs.path_of (cwd w) d)).
Proof.
  unfold createOptions, Js.truthy_str.
  destruct (in_opensslVersion input) as [v|].
  2:{ split; [|discriminate]. split; [auto|]. intros _. now eexists _, _. }
  destruct (String.eqb v "") eqn:Ev; simpl.
  { split; [|discriminate]. split; [auto|]. intros _. now eexists _, _. }
  rewrite bind_run. unfold path_resolve.
  destruct (in_distPath input) as [d|].
  - split.
    + split; [intros (e & w' & H); discriminate | intros [H|H]; discriminate].
    + intros o w' H. inversion H; subst. simpl. repeat split; eauto.
  - split; [|discriminate]. split; [auto|]. intros _. now eexists _, _.
Qed.

Lemma createOptions_accepts_witness :
  exists o, createOptions Sim.defaults Sim.world0 = (Ok o, Sim.world0) /\
            target o = Some "all" /\ distPath o = "/home/u/dist".
Proof.
  eexists. split; [reflexivity|].
  destruct (createOptions_accepts Sim.defaults Sim.world0) as [_ H].
  destruct (H _ _ eq_refl) as (_ & _ & Ht & _ & _ & _ & _ & _ & d & Hd & Hp).
  split; [exact Ht|]. inversion Hd; subst d. exact Hp.
Defined.

(** C10 as stated fails twice over: with commander's defaults the returned
    [distPath] is not the one passed in, and an input whose version is set
    but whose [distPath] is absent is rejected. *)
Lemma createOptions_not_unchanged :
  (exists o, createOptions Sim.defaults Sim.world0 = (Ok o, Sim.world0) /\
             in_distPath Sim.defaults = Some "dist" /\
             distPath o = "/home/u/dist" /\ distPath o <> "dist") /\
  (Js.truthy_str (in_opensslVersion Sim.no_distPath) = true /\
   exists e, createOptions Sim.no_distPath Sim.world0 = (Throw e, Sim.world0)).
Proof.
  split.
  - eexists. repeat split; try reflexivity. discriminate.
  - split; [reflexivity|]. eexists. reflexivity.
Qed.

(* ================================================================== *)
(** ** withDir *)
(* ================================================================== *)

(** C9, as the code has it.  When the directory the process started in is
    still there once the callback is over, [withDir] is back in it on both
    paths, returns the callback's value when there is one, and rethrows the
    callback's error (or that of the first [chdir]) otherwise.  When that
    directory is gone, the [chdir] of the [finally] block throws: the
    process stays where the callback left it and the error replaces the
    callback's outcome. *)
Theorem withDir_restores {T : Type} (dirPath : string) (callback : M T) (w : World) :
  absolute_cwd w ->
  (forall e w0, chdir dirPath w = (Throw e, w0) ->
     Fs.dir_at (cwd_path w) (fs w0) = true ->
     withDir dirPath callback w = (Throw e, set_cwd (cwd w) w0)) /\
  (forall w0 a w1, chdir dirPath w = (Ok tt, w0) -> callback w0 = (Ok a, w1) ->
     Fs.dir_at (cwd_path w) (fs w1) = true ->
     withDir dirPath callback w = (Ok a, set_cwd (cwd w) w1)) /\
  (forall w0 e w1, chdir dirPath w = (Ok tt, w0) -> callback w0 = (Throw e, w1) ->
     Fs.dir_at (cwd_path w) (fs w1) = true ->
     withDir dirPath callback w = (Throw e, set_cwd (cwd w) w1)) /\
  (forall w0 r w1, chdir dirPath w = (Ok tt, w0) -> callback w0 = (r, w1) ->
     (forall n, r <> Exit n) ->
     Fs.dir_at (cwd_path w) (fs w1) = false ->
     withDir dirPath callback w =
     (Throw (SysError ("ENOENT: no such file or directory, chdir " +++ cwd w)), w1)).
Proof.
  intros [Habs Hnorm].
  assert (E : forall w1 : World, Fs.path_of (cwd w1) (cwd w) = cwd_path w)
    by (intros w1; unfold Fs.path_of, cwd_path; now rewrite Habs).
  assert (Hback : forall w1 : World,
             Fs.dir_at (cwd_path w) (fs w1) = true ->
             chdir (cwd w) w1 = (Ok tt, set_cwd (cwd w) w1)).
  { intros w1 Hd. unfold chdir. rewrite E, Hd, Hnorm. reflexivity. }
  assert (Hstuck : forall w1 : World,
             Fs.dir_at (cwd_path w) (fs w1) = false ->
             chdir (cwd w) w1 =
             (Throw (SysError ("ENOENT: no such file or directory, chdir " +++ cwd w)), w1)).
  { intros w1 Hd. unfold chdir. rewrite E, Hd. reflexivity. }
  unfold withDir. rewrite !bind_run. unfold getcwd, try_finally.
  repeat split.
  - intros e w0 Hc Hd. rewrite bind_run, Hc, (Hback _ Hd). reflexivity.
  - intros w0 a w1 Hc Hcb Hd. rewrite bind_run, Hc, Hcb, (Hback _ Hd). reflexivity.
  - intros w0 e w1 Hc Hcb Hd. rewrite bind_run, Hc, Hcb, (Hback _ Hd). reflexivity.
  - intros w0 r w1 Hc Hcb Hr Hd. rewrite bind_run, Hc, Hcb, (Hstuck _ Hd).
    destruct r as [a|e|n]; [reflexivity | reflexivity | now destruct (Hr n)].
Qed.

Lemma withDir_restores_witness :
  withDir "/tmp" (existsSync "/ndk") Sim.world0 = (Ok true, Sim.world0).
Proof.
  assert (A : absolute_cwd Sim.world0) by (split; reflexivity).
  destruct (withDir_restores "/tmp" (existsSync "/ndk") A) as (_ & H & _).
  apply (H (set_cwd "/tmp" Sim.world0) true (set_cwd "/tmp" Sim.world0));
    reflexivity.
Defined.

(** C9 as stated fails when the callback removes the directory the process
    started in: the callback returns a value, yet [withDir] throws and the
    process stays in [dirPath]. *)
Lemma withDir_stranded :
  let callback := sh Sim.tools ["rm"; "-rf"; "/home/u"] in
  let w0 := set_cwd "/tmp" Sim.world0 in
  chdir "/tmp" Sim.world0 = (Ok tt, w0) /\
  (exists w1, callback w0 = (Ok "", w1)) /\
  (exists e, fst (withDir "/tmp" callback Sim.world0) = Throw e) /\
  cwd (snd (withDir "/tmp" callback Sim.world0)) = "/tmp" /\
  cwd Sim.world0 = "/home/u".
Proof.
  cbv zeta. repeat split; try reflexivity.
  - eexists. vm_compute. reflexivity.
  - eexists. vm_compute. reflexivity.
Qed.

(* ================================================================== *)
(** ** The first command of each part of a build *)
(* ================================================================== *)

Section FirstCommand.

Variable tools : list string -> World -> cmd_result.

(** Every turn of the Android loop starts by removing the install
    directory of its architecture. *)
Lemma androidArch_starts o ndk bin dist arch :
  starts_with ["rm"; "-rf"; "/tmp/openssl-android-" +++ arch]
    (androidArch tools o ndk bin dist arch).
Proof.
  unfold androidArch. apply starts_after; [apply unfailing_log|]. intros _.
  apply starts_try_catch; [|intros; extends_tac].
  apply starts_after; [apply unfailing_when, unfailing_onExit|]. intros _.
  apply starts_sh. intros. unfold android_libs. extends_tac.
Qed.

(** So does every turn of the iOS device loop. *)
Lemma iphoneosArch_starts o dist archs x arch :
  starts_with ["rm"; "-rf"; "/tmp/openssl-iphoneos-" +++ arch]
    (iphoneosArch tools o dist archs x arch).
Proof.
  unfold iphoneosArch. apply starts_after; [apply unfailing_log|]. intros _.
  apply starts_try_catch; [|intros; extends_tac].
  apply starts_after; [apply unfailing_assign|]. intros _.
  apply starts_after; [apply unfailing_when, unfailing_onExitVar|]. intros _.
  apply starts_after; [apply unfailing_log|]. intros _.
  apply starts_sh. intros. unfold ios_libs. extends_tac.
Qed.

(** And every turn of the simulator loop. *)
Lemma iphonesimArch_starts o dist archs arch :
  starts_with ["rm"; "-rf"; "/tmp/openssl-iphonesim-" +++ arch]
    (iphonesimArch tools o dist archs arch).
Proof.
  unfold iphonesimArch. apply starts_after; [apply unfailing_log|]. intros _.
  apply starts_try_catch; [|intros; extends_tac].
  apply starts_after; [apply unfailing_when, unfailing_onExit|]. intros _.
  apply starts_after; [apply unfailing_log|]. intros _.
  apply starts_sh. intros. unfold ios_libs. extends_tac.
Qed.

Lemma extends_iphoneosArch o dist archs x arch :
  extends (iphoneosArch tools o dist archs x arch).
Proof. unfold iphoneosArch, ios_libs. extends_tac. Qed.

Lemma extends_iphonesimArch o dist archs arch : extends (iphonesimArch tools o dist archs arch).
Proof. unfold iphonesimArch, ios_libs. extends_tac. Qed.

Lemma extends_iphoneosMerge dist archs : extends (iphoneosMerge tools dist archs).
Proof. unfold iphoneosMerge, ios_libs. extends_tac. Qed.

Lemma extends_iphonesimMerge dist archs : extends (iphonesimMerge tools dist archs).
Proof. unfold iphonesimMerge, ios_libs. extends_tac. Qed.

(** The iOS preamble starts by asking Xcode. *)
Lemma iosPrepare_starts platform tarPath o :
  starts_with ["xcode-select"; "-print-path"] (iosPrepare tools platform tarPath o).
Proof.
  unfold iosPrepare. apply starts_bind; [|intros; extends_tac].
  apply starts_try_catch; [|intros; extends_tac].
  apply starts_sh. intros. extends_tac.
Qed.

(** An iOS device build whose list is not empty asks Xcode, whatever the
    entries of the list. *)
Lemma buildForIosIphoneos_starts tarPath o :
  Js.truthy_str (iphoneosArchs o) = true ->
  starts_with ["xcode-select"; "-print-path"] (buildForIosIphoneos tools tarPath o).
Proof.
  intros Ht. unfold buildForIosIphoneos. rewrite Ht. cbn [negb].
  apply starts_after; [apply unfailing_log|]. intros _.
  apply starts_bind; [apply iosPrepare_starts|]. intros [x|]; [|extends_tac].
  apply extends_withDir. cbv zeta.
  apply extends_bind; [apply extends_quiet, quiet_newVar|]. intros v.
  apply extends_bind; [|intros; apply extends_iphoneosMerge].
  apply extends_for_of. intros. apply extends_iphoneosArch.
Qed.

(** The same for the simulator build. *)
Lemma buildForIosIphonesim_starts tarPath o :
  Js.truthy_str (iphonesimArchs o) = true ->
  starts_with ["xcode-select"; "-print-path"] (buildForIosIphonesim tools tarPath o).
Proof.
  intros Ht. unfold buildForIosIphonesim. rewrite Ht. cbn [negb].
  apply starts_after; [apply unfailing_log|]. intros _.
  apply starts_bind; [apply iosPrepare_starts|]. intros [x|]; [|extends_tac].
  apply extends_withDir. cbv zeta. apply extends_bind; [|intros; apply extends_iphonesimMerge].
  apply extends_for_of. intros. apply extends_iphonesimArch.
Qed.

End FirstCommand.

(* ================================================================== *)
(** ** main: what happens after a platform fails *)
(* ================================================================== *)

Section MainFacts.

Variable tools : list string -> World -> cmd_result.
Variable net : string -> World -> option string.
Variable json_stringify : Options -> string.

(** C2, as the code has it.  With target [all], the first platform build
    that throws ends the run: [main] rethrows from the very world the failed
    build left (no later command, no later log line), and the program logs
    the error and exits with status 1. *)
Theorem main_stops_at_first_failure (opts : Input) (w w1 : World) (o : Options)
  (tarPath : string) :
  Js.truthy_bool (in_help opts) = false ->
  mainSetup tools net json_stringify opts w = (Ok (o, tarPath), w1) ->
  target_is o "all" = true ->
  (forall e w2,
     buildForAndroid tools tarPath o w1 = (Throw e, w2) ->
     main tools net json_stringify opts w = (Throw e, w2) /\
     program tools net json_stringify opts w = (1%N, add_log Error (show_error e) w2)) /\
  (forall w2 e w3,
     buildForAndroid tools tarPath o w1 = (Ok tt, w2) ->
     buildForIosIphoneos tools tarPath o w2 = (Throw e, w3) ->
     main tools net json_stringify opts w = (Throw e, w3) /\
     program tools net json_stringify opts w = (1%N, add_log Error (show_error e) w3)) /\
  (forall w2 w3 e w4,
     buildForAndroid tools tarPath o w1 = (Ok tt, w2) ->
     buildForIosIphoneos tools tarPath o w2 = (Ok tt, w3) ->
     buildForIosIphonesim tools tarPath o w3 = (Throw e, w4) ->
     main tools net json_stringify opts w = (Throw e, w4) /\
     program tools net json_stringify opts w = (1%N, add_log Error (show_error e) w4)).
Proof.
  intros Hhelp Hsetup Hall.
  assert (Hmain : main tools net json_stringify opts w =
                  mainBuilds tools o tarPath w1).
  { unfold main. rewrite Hhelp, bind_run, Hsetup. reflexivity. }
  unfold program. rewrite Hmain. unfold mainBuilds.
  rewrite Hall, !orb_true_r. cbn [when].
  repeat split; intros.
  - now rewrite (bind_throw _ _ _ H).
  - now rewrite (bind_throw _ _ _ H).
  - rewrite (bind_ok _ _ _ H). now rewrite (bind_throw _ _ _ H0).
  - rewrite (bind_ok _ _ _ H). now rewrite (bind_throw _ _ _ H0).
  - rewrite (bind_ok _ _ _ H), (bind_ok _ _ _ H0). now rewrite (bind_throw _ _ _ H1).
  - rewrite (bind_ok _ _ _ H), (bind_ok _ _ _ H0). now rewrite (bind_throw _ _ _ H1).
Qed.

End MainFacts.

Lemma main_stops_at_first_failure_witness :
  fst (program Sim.tools Sim.net Sim.json (Sim.opts "all" "arm64" "arm64" "arm64")
         Sim.world_no_ndk) = 1%N.
Proof.
  pose (opts := Sim.opts "all" "arm64" "arm64" "arm64").
  pose (s := mainSetup Sim.tools Sim.net Sim.json opts Sim.world_no_ndk).
  pose (o := match fst s with Ok x => fst x | _ => Sim.options_keep end).
  pose (b := buildForAndroid Sim.tools "/tmp/openssl-3.4.0.tar.gz" o (snd s)).
  destruct (@main_stops_at_first_failure Sim.tools Sim.net Sim.json opts
              Sim.world_no_ndk (snd s) o "/tmp/openssl-3.4.0.tar.gz")
    as (H & _); [reflexivity | vm_compute; reflexivity | reflexivity |].
  destruct (H (JsError "Please set ANDROID_NDK_HOME environment variable") (snd b))
    as [_ Hp]; [vm_compute; reflexivity|].
  fold opts. rewrite Hp. reflexivity.
Defined.

(** C2 as stated fails: with target [all] and no NDK, the Android build
    throws, the exit status is 1, and no command of the iOS builds is ever
    run, although the iOS device build on its own succeeds on that
    machine. *)
Lemma main_does_not_isolate_platforms :
  let r := program Sim.tools Sim.net Sim.json (Sim.opts "all" "arm64" "arm64" "arm64")
             Sim.world_no_ndk in
  fst r = 1%N /\
  ran "xcode-select" (trace (snd r)) = false /\
  ran "./Configure" (trace (snd r)) = false /\
  List.last (logs (snd r)) (Info, "") =
    (Error, "Error: Please set ANDROID_NDK_HOME environment variable") /\
  fst (program Sim.tools Sim.net Sim.json (Sim.opts "iphoneos" "arm64" "arm64" "arm64")
         Sim.world_no_ndk) = 0%N.
Proof. vm_compute. repeat split; reflexivity. Qed.

(* ================================================================== *)
(** ** Architecture lists *)
(* ================================================================== *)

Section ArchFacts.

Variable tools : list string -> World -> cmd_result.

(** A list with an entry that is no Android architecture has a first such
    entry: the entries before it are all valid. *)
Lemma first_invalid (archs : list string) :
  existsb (fun a => negb (Js.includes a android_valid_archs)) archs = true ->
  exists pre a post,
    archs = pre ++ a :: post /\
    Forall (fun x => Js.includes x android_valid_archs = true) pre /\
    Js.includes a android_valid_archs = false.
Proof.
  induction archs as [|x archs IH]; [discriminate|]. cbn [existsb].
  destruct (Js.includes x android_valid_archs) eqn:E; cbn [negb orb].
  - intros H. destruct (IH H) as (pre & a & post & -> & Hpre & Ha).
    exists (x :: pre), a, post. repeat split; auto.
  - intros _. exists [], x, archs. repeat split; auto.
Qed.

(** The check at the top of [buildForAndroid] passes a list of valid
    entries, and touches nothing. *)
Lemma android_check_passes (archs : list string) (w : World) :
  Forall (fun a => Js.includes a android_valid_archs = true) archs ->
  for_of archs (fun arch =>
    if negb (Js.includes arch android_valid_archs) then
      throw (JsError ("Invalid Android architecture: " +++ arch))
    else ret tt) w = (Ok tt, w).
Proof.
  induction 1 as [|x archs Hx _ IH]; cbn [for_of]; [reflexivity|].
  rewrite bind_run, Hx. exact IH.
Qed.

(** It stops at the first entry that is not a valid architecture, names
    it, and touches nothing. *)
Lemma android_check_rejects (pre : list string) (a : string) (post : list string)
  (w : World) :
  Forall (fun x => Js.includes x android_valid_archs = true) pre ->
  Js.includes a android_valid_archs = false ->
  for_of (pre ++ a :: post) (fun arch =>
    if negb (Js.includes arch android_valid_archs) then
      throw (JsError ("Invalid Android architecture: " +++ arch))
    else ret tt) w
  = (Throw (JsError ("Invalid Android architecture: " +++ a)), w).
Proof.
  intros Hpre Ha. rewrite for_of_app, (android_check_passes w Hpre).
  cbn [for_of]. now rewrite bind_run, Ha.
Qed.

(** C3, as the code has it.  For Android, a list with an entry outside
    [arm, arm64, x86, x86_64] is rejected before any command runs, with an
    invalid-architecture error that names the first such entry: the entry
    [a] of the list such that every entry before it is valid.  For the two
    iOS platforms the only list rejected is the absent or empty one, also
    before any command runs; the entries are compared with no set: whatever
    they are, a build whose list is not empty goes on to its first command,
    the Xcode query. *)
Theorem arch_lists_checked (tarPath : string) (o : Options) (w : World) :
  (forall A,
     androidArchs o = Some A ->
     existsb (fun a => negb (Js.includes a android_valid_archs)) (Js.split "," A) = true ->
     exists pre a post,
       Js.split "," A = pre ++ a :: post /\
       Forall (fun x => Js.includes x android_valid_archs = true) pre /\
       Js.includes a android_valid_archs = false /\
       buildForAndroid tools tarPath o w =
       (Throw (JsError ("Invalid Android architecture: " +++ a)),
        add_log Info "Building OpenSSL for Android" w)) /\
  (Js.truthy_str (iphoneosArchs o) = false ->
     buildForIosIphoneos tools tarPath o w =
     (Throw (JsError "iOS architectures not specified"),
      add_log Info "Building OpenSSL for iOS devices" w)) /\
  (Js.truthy_str (iphonesimArchs o) = false ->
     buildForIosIphonesim tools tarPath o w =
     (Throw (JsError "iOS simulator architectures not specified"),
      add_log Info "Building OpenSSL for iphonesim" w)) /\
  (Js.truthy_str (iphoneosArchs o) = true ->
     starts_with ["xcode-select"; "-print-path"] (buildForIosIphoneos tools tarPath o)) /\
  (Js.truthy_str (iphonesimArchs o) = true ->
     starts_with ["xcode-select"; "-print-path"] (buildForIosIphonesim tools tarPath o)).
Proof.
  split; [|split; [|split; [|split]]];
    [| | | apply buildForIosIphoneos_starts | apply buildForIosIphonesim_starts].
  - intros A HA Hbad.
    destruct (first_invalid _ Hbad) as (pre & a & post & Hsplit & Hpre & Ha).
    exists pre, a, post. repeat split; auto.
    unfold buildForAndroid. rewrite bind_run. unfold log at 1.
    rewrite HA. unfold split_field. rewrite bind_run. unfold ret at 1.
    rewrite Hsplit.
    now rewrite (bind_throw _ _ _
                   (@android_check_rejects pre a post
                      (add_log Info "Building OpenSSL for Android" w) Hpre Ha)).
  - intros H. unfold buildForIosIphoneos. rewrite bind_run, H. reflexivity.
  - intros H. unfold buildForIosIphonesim. rewrite bind_run, H. reflexivity.
Qed.

End ArchFacts.

Lemma arch_lists_checked_witness :
  buildForAndroid Sim.tools "/tmp/openssl-3.4.0.tar.gz" Sim.options_mips Sim.world0 =
  (Throw (JsError "Invalid Android architecture: mips"),
   add_log Info "Building OpenSSL for Android" Sim.world0).
Proof.
  destruct (arch_lists_checked Sim.tools "/tmp/openssl-3.4.0.tar.gz" Sim.options_mips Sim.world0)
    as (H & _).
  destruct (H "arm64,mips,x86,sparc" eq_refl eq_refl) as (pre & a & post & Hs & Hpre & Hv & Hr).
  rewrite Hr. repeat f_equal.
  change (Js.split "," "arm64,mips,x86,sparc") with ["arm64"; "mips"; "x86"; "sparc"] in Hs.
  destruct pre as [|x0 [|x1 pre]]; cbn [app] in Hs.
  - injection Hs as <- _. discriminate Hv.
  - injection Hs as _ <- _. reflexivity.
  - injection Hs as _ <- _. inversion Hpre as [|? ? _ Hrest]. inversion Hrest as [|? ? Hm _].
    discriminate Hm.
Defined.

(** C3 as stated fails for iOS: with [--iphoneos-archs=mips] nothing is
    rejected.  The run configures [ios-xcrun] for [mips], installs, and
    exits with status 0. *)
Lemma ios_arch_not_validated :
  let r := program Sim.tools Sim.net Sim.json (Sim.opts "iphoneos" "arm64" "mips" "")
             Sim.world0 in
  fst r = 0%N /\
  calls "./Configure" (trace (snd r)) =
    [["./Configure"; "ios-xcrun"; "no-ui-console"; "no-engine"; "no-filenames";
      "no-shared"; "--prefix=/tmp/openssl-iphoneos-mips"]] /\
  Fs.exists_at ["home"; "u"; "dist"; "iphoneos"; "libssl.a"] (fs (snd r)) = true.
Proof. vm_compute. repeat split; reflexivity. Qed.

(* ================================================================== *)
(** ** The Android toolchain directory *)
(* ================================================================== *)

(** C8 at its failing input: an NDK whose [toolchains/llvm/prebuilt] holds no
    entry.  [ls] prints nothing, the empty string splits into one (empty)
    field, so the check [hostDirs.length !== 1] passes: the run goes on to
    configure with [prebuilt//bin] on the search path and exits with
    status 0. *)
Theorem android_empty_prebuilt_accepted :
  let r := program Sim.tools Sim.net Sim.json (Sim.opts "android" "arm64" "" "")
             Sim.world_empty_prebuilt in
  Fs.lookup ["ndk"; "toolchains"; "llvm"; "prebuilt"] (fs Sim.world_empty_prebuilt)
    = Some (Fs.Dir []) /\
  Js.split nl_char (Js.trim "") = [""] /\
  fst r = 0%N /\
  calls "./Configure" (trace (snd r)) =
    [["./Configure"; "android-arm64"; "-fPIC"; "no-ui-console"; "no-engine";
      "no-filenames"; "no-stdio"; "--prefix=/tmp/openssl-android-arm64"]] /\
  env_get "PATH" (env (snd r)) = Some "/ndk/toolchains/llvm/prebuilt//bin:/usr/bin".
Proof. vm_compute. repeat split; reflexivity. Qed.

(* ================================================================== *)
(** ** The merge step *)
(* ================================================================== *)

(** C4 at its failing input: [--iphoneos-archs=arm64,x86_64].  Both
    architectures are built and staged, then [lipo] is run with a single
    input word, the two staged names joined by a space.  No such file
    exists: the merge fails, the exit status is 1, the staged files stay and
    no [libssl.a] is produced.  The simulator build, which passes the array
    itself, hands [lipo] one word per staged file and succeeds. *)
Theorem iphoneos_lipo_gets_one_word :
  let r := program Sim.tools Sim.net Sim.json (Sim.opts "iphoneos" "arm64" "arm64,x86_64" "")
             Sim.world0 in
  let s := program Sim.tools Sim.net Sim.json (Sim.opts "iphonesim" "arm64" "" "arm64,x86_64")
             Sim.world0 in
  fst r = 1%N /\
  calls "lipo" (trace (snd r)) =
    [["lipo";
      "/home/u/dist/iphoneos/libssl.a.arm64 /home/u/dist/iphoneos/libssl.a.x86_64";
      "-create"; "-output"; "/home/u/dist/iphoneos/libssl.a"]] /\
  Fs.exists_at ["home"; "u"; "dist"; "iphoneos"; "libssl.a.arm64"] (fs (snd r)) = true /\
  Fs.exists_at ["home"; "u"; "dist"; "iphoneos"; "libssl.a.x86_64"] (fs (snd r)) = true /\
  Fs.exists_at ["home"; "u"; "dist"; "iphoneos"; "libssl.a"] (fs (snd r)) = false /\
  fst s = 0%N /\
  calls "lipo" (trace (snd s)) =
    [["lipo"; "/home/u/dist/iphonesim/libssl.a.arm64";
      "/home/u/dist/iphonesim/libssl.a.x86_64"; "-create"; "-output";
      "/home/u/dist/iphonesim/libssl.a"];
     ["lipo"; "/home/u/dist/iphonesim/libcrypto.a.arm64";
      "/home/u/dist/iphonesim/libcrypto.a.x86_64"; "-create"; "-output";
      "/home/u/dist/iphonesim/libcrypto.a"]] /\
  Fs.exists_at ["home"; "u"; "dist"; "iphonesim"; "libssl.a.arm64"] (fs (snd s)) = false /\
  Fs.exists_at ["home"; "u"; "dist"; "iphonesim"; "libssl.a"] (fs (snd s)) = true.
Proof. vm_compute. repeat split; reflexivity. Qed.

(* ================================================================== *)
(** ** Reuse of what an earlier run left *)
(* ================================================================== *)

Section ReuseFacts.

Variable tools : list string -> World -> cmd_result.
Variable net : string -> World -> option string.

Lemma run_cmd_rm_rf p w : run_cmd tools ["rm"; "-rf"; p] w = run_rm_rf p w.
Proof. reflexivity. Qed.

Lemma run_cmd_rm p w : run_cmd tools ["rm"; p] w = run_rm p w.
Proof. reflexivity. Qed.

Lemma run_cmd_mkdir_p p w : run_cmd tools ["mkdir"; "-p"; p] w = run_mkdir_p p w.
Proof. reflexivity. Qed.

Lemma run_cmd_cp s d w : run_cmd tools ["cp"; s; d] w = run_cp false s d w.
Proof. reflexivity. Qed.

Lemma run_cmd_cp_a s d w : run_cmd tools ["cp"; "-a"; s; d] w = run_cp true s d w.
Proof. reflexivity. Qed.

Lemma run_cmd_ls p w : run_cmd tools ["ls"; p] w = run_ls p w.
Proof. reflexivity. Qed.

Lemma sh_fs argv w r w' :
  sh tools argv w = (r, w') -> fs w' = snd (run_cmd tools argv w).
Proof.
  destruct (sh_run tools argv w) as (code & out & n & R & E). rewrite E, R.
  intros H. inversion H; subst. reflexivity.
Qed.

(** The Xcode query leaves the file system alone. *)
Lemma sh_xcode_fs a w r w' :
  sh tools ["xcode-select"; a] w = (r, w') -> fs w' = fs w.
Proof.
  intros H. rewrite (sh_fs _ _ H). unfold run_cmd. cbn.
  now destruct (tools _ w) as [[c out] n].
Qed.

Lemma sh_ls_fs p w r w' : sh tools ["ls"; p] w = (r, w') -> fs w' = fs w.
Proof.
  intros H. rewrite (sh_fs _ _ H), run_cmd_ls. unfold run_ls.
  now destruct (Fs.lookup _ _) as [[c|es]|].
Qed.

(** [mkdir -p] removes nothing. *)
Lemma sh_mkdir_keeps p q w r w' :
  sh tools ["mkdir"; "-p"; p] w = (r, w') ->
  Fs.exists_at q (fs w) = true -> Fs.exists_at q (fs w') = true.
Proof.
  intros H. rewrite (sh_fs _ _ H), run_cmd_mkdir_p. unfold run_mkdir_p.
  destruct (Fs.mkdirp _ _) as [n|] eqn:E; [|auto]. cbn [snd].
  unfold Fs.exists_at at 1. destruct (Fs.lookup q (fs w)) as [m|] eqn:L; [|discriminate].
  intros _. eapply FsFacts.mkdirp_keeps; eauto.
Qed.

(** The check at the top of [buildForAndroid] changes nothing. *)
Lemma android_check_world (archs : list string) w r w' :
  for_of archs (fun arch =>
    if negb (Js.includes arch android_valid_archs) then
      throw (JsError ("Invalid Android architecture: " +++ arch))
    else ret tt) w = (r, w') -> w' = w.
Proof.
  revert w. induction archs as [|x archs IH]; intros w; cbn [for_of].
  - intros H. now inversion H.
  - rewrite bind_run. destruct (negb _).
    + intros H. now inversion H.
    + apply IH.
Qed.

(** With [clean = false] and the source directory of the platform in place,
    the iOS preamble asks Xcode, creates the output directory, and stops. *)
Lemma iosPrepare_reuse platform tarPath o w r w' :
  clean o = false ->
  Fs.exists_at (Fs.path_of (cwd w) ("/tmp/openssl_" +++ platform)) (fs w) = true ->
  iosPrepare tools platform tarPath o w = (r, w') ->
  exists d, trace w' = trace w ++ d /\
    (exists rest, [["xcode-select"; "-print-path"];
                   ["mkdir"; "-p"; distPath o +++ "/" +++ platform]] = d ++ rest) /\
    (forall a, r = Ok a ->
       a = None /\
       d = [["xcode-select"; "-print-path"];
            ["mkdir"; "-p"; distPath o +++ "/" +++ platform]]).
Proof.
  intros Hclean Hsrc. unfold iosPrepare. rewrite bind_run.
  unfold try_catch at 1. rewrite bind_run.
  destruct (sh tools ["xcode-select"; "-print-path"] w) as [[out|e|n] w1] eqn:E1;
    destruct (sh_frame _ _ _ E1) as (T1 & C1); pose proof (sh_xcode_fs _ _ E1) as F1;
    [| unfold throw; stop_with T1 | stop_with T1].
  unfold ret at 1. rewrite bind_run.
  destruct (sh tools ["mkdir"; "-p"; distPath o +++ "/" +++ platform] w1)
    as [[out2|e|n] w2] eqn:E2; destruct (sh_frame _ _ _ E2) as (T2 & C2);
    rewrite T1, <- app_assoc in T2; cbn [app] in T2;
    [| stop_with T2 | stop_with T2].
  rewrite bind_run. unfold existsSync. rewrite C2, C1.
  rewrite (sh_mkdir_keeps _ _ _ E2) by (now rewrite F1).
  rewrite Hclean. cbn [negb andb]. rewrite bind_run. unfold log, ret.
  intros [= <- <-]. eexists. split; [exact T2|]. split; [now exists []|].
  intros a [= <-]. now split.
Qed.

(** With [clean = false] and the source directory of the platform in place,
    the iOS preamble returns as soon as its two commands have succeeded. *)
Lemma iosPrepare_reuse_returns platform tarPath o w out1 w1 out2 w2 :
  clean o = false ->
  Fs.exists_at (Fs.path_of (cwd w) ("/tmp/openssl_" +++ platform)) (fs w) = true ->
  sh tools ["xcode-select"; "-print-path"] w = (Ok out1, w1) ->
  sh tools ["mkdir"; "-p"; distPath o +++ "/" +++ platform] w1 = (Ok out2, w2) ->
  iosPrepare tools platform tarPath o w =
  (Ok None, add_log Info ("Using existing build in " +++ "/tmp/openssl_" +++ platform) w2).
Proof.
  intros Hclean Hsrc E1 E2. unfold iosPrepare. rewrite bind_run.
  unfold try_catch at 1. rewrite bind_run, E1. unfold ret at 1. rewrite bind_run, E2.
  destruct (sh_frame _ _ _ E1) as (_ & C1). destruct (sh_frame _ _ _ E2) as (_ & C2).
  rewrite bind_run. unfold existsSync. rewrite C2, C1.
  rewrite (sh_mkdir_keeps _ _ _ E2) by (now rewrite (sh_xcode_fs _ _ E1)).
  rewrite Hclean. cbn [negb andb]. rewrite bind_run. reflexivity.
Qed.

(** C7, as the code has it.  With [clean = false]: an archive already
    downloaded is returned without any command; a platform whose source
    directory [/tmp/openssl_<platform>] exists is not built at all: the run
    issues nothing beyond the toolchain query and the [mkdir -p] of the
    output directory, and once these two have succeeded it returns, having
    logged that the existing build is used (for Android the architecture
    list, the NDK variable and the toolchain directory must first have
    passed their checks).  These two checks are the only ones: no install
    directory is ever looked at, every turn of every platform loop starts by
    removing the install directory of its architecture. *)
Theorem reuse_checks (tarPath : string) (o : Options) (w : World) :
  (forall v,
     Fs.exists_at (Fs.path_of (cwd w) ("/tmp/openssl-" +++ v +++ ".tar.gz")) (fs w) = true ->
     downloadOpenssl tools net v false w =
     (Ok ("/tmp/openssl-" +++ v +++ ".tar.gz"),
      add_log Info ("Using existing OpenSSL tar in " +++ "/tmp/openssl-" +++ v +++ ".tar.gz") w)) /\
  (clean o = false ->
   Fs.exists_at ["tmp"; "openssl_android"] (fs w) = true ->
   traces_from w (buildForAndroid tools tarPath o w)
     [["ls"; Js.show_str (env_get "ANDROID_NDK_HOME" (env w)) +++ "/toolchains/llvm/prebuilt"];
      ["mkdir"; "-p"; distPath o +++ "/android"]] /\
   (forall A ndk out1 w1 out2 w2,
      androidArchs o = Some A ->
      Forall (fun a => Js.includes a android_valid_archs = true) (Js.split "," A) ->
      env_get "ANDROID_NDK_HOME" (env w) = Some ndk -> ndk <> "" ->
      Fs.exists_at (Fs.path_of (cwd w) (ndk +++ "/toolchains/llvm/prebuilt")) (fs w) = true ->
      sh tools ["ls"; ndk +++ "/toolchains/llvm/prebuilt"]
        (add_log Info "Building OpenSSL for Android" w) = (Ok out1, w1) ->
      List.length (Js.split nl_char (Js.trim out1)) = 1 ->
      sh tools ["mkdir"; "-p"; distPath o +++ "/android"] w1 = (Ok out2, w2) ->
      buildForAndroid tools tarPath o w =
      (Ok tt, add_log Info "Using existing build in /tmp/openssl_android" w2))) /\
  (clean o = false ->
   Fs.exists_at ["tmp"; "openssl_iphoneos"] (fs w) = true ->
   traces_from w (buildForIosIphoneos tools tarPath o w)
     [["xcode-select"; "-print-path"]; ["mkdir"; "-p"; distPath o +++ "/iphoneos"]] /\
   (forall out1 w1 out2 w2,
      Js.truthy_str (iphoneosArchs o) = true ->
      sh tools ["xcode-select"; "-print-path"]
        (add_log Info "Building OpenSSL for iOS devices" w) = (Ok out1, w1) ->
      sh tools ["mkdir"; "-p"; distPath o +++ "/iphoneos"] w1 = (Ok out2, w2) ->
      buildForIosIphoneos tools tarPath o w =
      (Ok tt, add_log Info "Using existing build in /tmp/openssl_iphoneos" w2))) /\
  (clean o = false ->
   Fs.exists_at ["tmp"; "openssl_iphonesim"] (fs w) = true ->
   traces_from w (buildForIosIphonesim tools tarPath o w)
     [["xcode-select"; "-print-path"]; ["mkdir"; "-p"; distPath o +++ "/iphonesim"]] /\
   (forall out1 w1 out2 w2,
      Js.truthy_str (iphonesimArchs o) = true ->
      sh tools ["xcode-select"; "-print-path"]
        (add_log Info "Building OpenSSL for iphonesim" w) = (Ok out1, w1) ->
      sh tools ["mkdir"; "-p"; distPath o +++ "/iphonesim"] w1 = (Ok out2, w2) ->
      buildForIosIphonesim tools tarPath o w =
      (Ok tt, add_log Info "Using existing build in /tmp/openssl_iphonesim" w2))) /\
  (forall ndk bin dist arch,
     starts_with ["rm"; "-rf"; "/tmp/openssl-android-" +++ arch]
       (androidArch tools o ndk bin dist arch)) /\
  (forall dist archs x arch,
     starts_with ["rm"; "-rf"; "/tmp/openssl-iphoneos-" +++ arch]
       (iphoneosArch tools o dist archs x arch)) /\
  (forall dist archs arch,
     starts_with ["rm"; "-rf"; "/tmp/openssl-iphonesim-" +++ arch]
       (iphonesimArch tools o dist archs arch)).
Proof.
  split; [|split; [|split; [|split; [|split; [|split]]]]];
    [| | | | intros; apply androidArch_starts | intros; apply iphoneosArch_starts
     | intros; apply iphonesimArch_starts].
  - intros v Hex. unfold downloadOpenssl. rewrite bind_run. unfold existsSync.
    rewrite Hex. reflexivity.
  - intros Hclean Hsrc. split.
    + unfold traces_from.
      destruct (buildForAndroid tools tarPath o w) as [r w'] eqn:H. cbn [fst snd].
      revert H. unfold buildForAndroid. rewrite bind_run. unfold log at 1.
      set (w0 := add_log Info "Building OpenSSL for Android" w).
      assert (T0 : trace w0 = trace w ++ []) by (now rewrite app_nil_r).
      unfold split_field. destruct (androidArchs o) as [A|]; [|unfold throw; stop_with T0].
      rewrite bind_run. unfold ret at 1. rewrite bind_run.
      destruct (for_of (Js.split "," A) _ w0) as [[[]|e|n] w1] eqn:Echeck;
        pose proof (android_check_world _ _ Echeck) as ->;
        [| stop_with T0 | stop_with T0].
      rewrite bind_run. unfold getenv at 1. cbn [env w0 add_log].
      destruct (negb (Js.truthy_str _)); [unfold throw; stop_with T0|].
      rewrite bind_run. unfold existsSync at 1.
      destruct (negb (Fs.exists_at _ _)); [unfold throw; stop_with T0|].
      rewrite bind_run.
      match goal with |- context [sh tools ?a w0] =>
        destruct (sh tools a w0) as [[out|e|n] w1] eqn:E1;
        destruct (sh_frame _ _ _ E1) as (T1 & C1); pose proof (sh_ls_fs _ _ E1) as F1
      end; cbn [trace w0 add_log] in T1; [| stop_with T1 | stop_with T1].
      destruct (negb (Nat.eqb _ 1)); [unfold throw; stop_with T1|].
      rewrite bind_run.
      match goal with |- context [sh tools ?a w1] =>
        destruct (sh tools a w1) as [[out2|e|n] w2] eqn:E2;
        destruct (sh_frame _ _ _ E2) as (T2 & C2)
      end; rewrite T1, <- app_assoc in T2; cbn [app] in T2; [| stop_with T2 | stop_with T2].
      rewrite bind_run. unfold existsSync at 1.
      change (Fs.path_of (cwd w2) "/tmp/openssl_android") with ["tmp"; "openssl_android"].
      rewrite (sh_mkdir_keeps _ _ _ E2) by (now rewrite F1).
      rewrite Hclean. cbn [negb andb]. unfold log.
      intros [= <- <-]. eexists. split; [exact T2|]. split; [now exists [] | reflexivity].
    + intros A ndk out1 w1 out2 w2 HA Hvalid Hndk Hne Htool E1 Hone E2.
      unfold buildForAndroid. rewrite bind_run. unfold log at 1.
      rewrite HA. unfold split_field. rewrite bind_run. unfold ret at 1.
      rewrite (bind_ok _ _ _ (android_check_passes _ Hvalid)).
      rewrite bind_run. unfold getenv at 1. cbn [env add_log]. rewrite Hndk.
      assert (Ht : Js.truthy_str (Some ndk) = true).
      { cbn. destruct (String.eqb_spec ndk ""); [congruence | reflexivity]. }
      rewrite Ht. cbn [negb Js.show_str]. rewrite bind_run. unfold existsSync at 1.
      cbn [cwd fs add_log]. rewrite Htool. cbn [negb].
      rewrite bind_run, E1, Hone. cbn [Nat.eqb negb].
      rewrite bind_run, E2. rewrite bind_run. unfold existsSync at 1.
      change (Fs.path_of (cwd w2) "/tmp/openssl_android") with ["tmp"; "openssl_android"].
      rewrite (sh_mkdir_keeps _ _ _ E2) by (now rewrite (sh_ls_fs _ _ E1)).
      rewrite Hclean. reflexivity.
  - intros Hclean Hsrc. split.
    + unfold traces_from.
      destruct (buildForIosIphoneos tools tarPath o w) as [r w'] eqn:H. cbn [fst snd].
      revert H. unfold buildForIosIphoneos. rewrite bind_run. unfold log at 1.
      set (w0 := add_log Info "Building OpenSSL for iOS devices" w).
      assert (T0 : trace w0 = trace w ++ []) by (now rewrite app_nil_r).
      destruct (negb (Js.truthy_str _)); [unfold throw; stop_with T0|].
      rewrite bind_run.
      destruct (iosPrepare tools "iphoneos" tarPath o w0) as [[a|e|n] w1] eqn:E;
        destruct (iosPrepare_reuse "iphoneos" tarPath o w0 Hclean Hsrc E) as (d & T & R & F);
        cbn [trace w0 add_log] in T; [| stop_with T; exact R | stop_with T; exact R].
      destruct (F a eq_refl) as [-> ->]. unfold ret.
      intros [= <- <-]. eexists. split; [exact T|]. split; [now exists [] | reflexivity].
    + intros out1 w1 out2 w2 Ht E1 E2.
      unfold buildForIosIphoneos. rewrite bind_run. unfold log at 1. rewrite Ht. cbn [negb].
      rewrite bind_run.
      now rewrite (@iosPrepare_reuse_returns "iphoneos" tarPath o
                   (add_log Info "Building OpenSSL for iOS devices" w) _ _ _ _ Hclean Hsrc E1 E2).
  - intros Hclean Hsrc. split.
    + unfold traces_from.
      destruct (buildForIosIphonesim tools tarPath o w) as [r w'] eqn:H. cbn [fst snd].
      revert H. unfold buildForIosIphonesim. rewrite bind_run. unfold log at 1.
      set (w0 := add_log Info "Building OpenSSL for iphonesim" w).
      assert (T0 : trace w0 = trace w ++ []) by (now rewrite app_nil_r).
      destruct (negb (Js.truthy_str _)); [unfold throw; stop_with T0|].
      rewrite bind_run.
      destruct (iosPrepare tools "iphonesim" tarPath o w0) as [[a|e|n] w1] eqn:E;
        destruct (iosPrepare_reuse "iphonesim" tarPath o w0 Hclean Hsrc E) as (d & T & R & F);
        cbn [trace w0 add_log] in T; [| stop_with T; exact R | stop_with T; exact R].
      destruct (F a eq_refl) as [-> ->]. unfold ret.
      intros [= <- <-]. eexists. split; [exact T|]. split; [now exists [] | reflexivity].
    + intros out1 w1 out2 w2 Ht E1 E2.
      unfold buildForIosIphonesim. rewrite bind_run. unfold log at 1. rewrite Ht. cbn [negb].
      rewrite bind_run.
      now rewrite (@iosPrepare_reuse_returns "iphonesim" tarPath o
                   (add_log Info "Building OpenSSL for iphonesim" w) _ _ _ _ Hclean Hsrc E1 E2).
Qed.

End ReuseFacts.

Lemma reuse_checks_witness :
  let r := buildForIosIphoneos Sim.tools "/tmp/openssl-3.4.0.tar.gz" Sim.options_keep
             Sim.world_stale_source in
  fst r = Ok tt /\
  trace (snd r) =
    [["xcode-select"; "-print-path"]; ["mkdir"; "-p"; "/home/u/dist/iphoneos"]].
Proof.
  cbv zeta.
  destruct (reuse_checks Sim.tools Sim.net "/tmp/openssl-3.4.0.tar.gz" Sim.options_keep
              Sim.world_stale_source) as (_ & _ & H & _).
  destruct (H eq_refl eq_refl) as (_ & Hret).
  pose (w0 := add_log Info "Building OpenSSL for iOS devices" Sim.world_stale_source).
  pose (w1 := snd (sh Sim.tools ["xcode-select"; "-print-path"] w0)).
  pose (w2 := snd (sh Sim.tools ["mkdir"; "-p"; "/home/u/dist/iphoneos"] w1)).
  assert (E1 : sh Sim.tools ["xcode-select"; "-print-path"] w0 =
               (Ok ("/Applications/Xcode.app/Contents/Developer" +++ Fs.nl), w1))
    by (vm_compute; reflexivity).
  assert (E2 : sh Sim.tools ["mkdir"; "-p"; distPath Sim.options_keep +++ "/iphoneos"] w1 =
               (Ok "", w2))
    by (vm_compute; reflexivity).
  rewrite (Hret _ _ _ _ eq_refl E1 E2). split; reflexivity.
Defined.

(** C7 as stated fails for install directories: with [clean = false], no
    source directory, and the install directory of [iphoneos/arm64] left by
    an earlier run, that directory is removed and the architecture is
    configured, compiled and installed again. *)
Lemma install_directory_not_reused :
  let r := buildForIosIphoneos Sim.tools "/tmp/openssl-3.4.0.tar.gz" Sim.options_keep
             Sim.world_stale_install in
  clean Sim.options_keep = false /\
  Fs.exists_at ["tmp"; "openssl-iphoneos-arm64"; "stale"] (fs Sim.world_stale_install) = true /\
  fst r = Ok tt /\
  calls "rm" (trace (snd r)) =
    [["rm"; "-rf"; "/tmp/openssl_iphoneos"];
     ["rm"; "-rf"; "/tmp/openssl-iphoneos-arm64"];
     ["rm"; "-rf"; "/home/u/dist/iphoneos/include"]] /\
  calls "./Configure" (trace (snd r)) =
    [["./Configure"; "ios64-xcrun"; "no-ui-console"; "no-engine"; "no-filenames";
      "no-shared"; "--prefix=/tmp/openssl-iphoneos-arm64"]] /\
  calls "make" (trace (snd r)) =
    [["make"; "-j8"]; ["make"; "-j8"; "install_sw"]; ["make"; "-j8"; "install_ssldirs"]] /\
  Fs.exists_at ["tmp"; "openssl-iphoneos-arm64"; "stale"] (fs (snd r)) = false.
Proof. vm_compute. repeat split; reflexivity. Qed.

(* ================================================================== *)
(** ** An iOS build of one architecture *)
(* ================================================================== *)

(** Run the command at the head of the script: in the branch where it
    succeeds, [T] is extended by it; in the others the run ends. *)
Ltac run_sh T :=
  rewrite bind_run;
  match goal with
  | |- context [sh ?tools ?a ?w] =>
      let out := fresh "out" in
      let e := fresh "e" in
      let n := fresh "n" in
      let w1 := fresh "w" in
      let E := fresh "E" in
      let T' := fresh "T" in
      let C := fresh "C" in
      destruct (sh tools a w) as [[out|e|n] w1] eqn:E;
      destruct (sh_frame _ _ _ E) as (T' & C);
      cbn [trace cwd add_log add_hook set_env set_cwd set_fs] in T', C;
      rewrite T, <- app_assoc in T'; cbn [app] in T';
      [ clear T; rename T' into T | stop_with T' | stop_with T' ]
  end.

Ltac traces_step :=
  first
    [ apply traces_sh_bind; intros
    | apply traces_quiet_bind; [solve [auto 10 with script] | intros]
    | apply traces_throw
    | apply traces_quiet; solve [auto 10 with script] ].

Section SingleArch.

Variable tools : list string -> World -> cmd_result.

(** The iOS preamble: five commands, or the first two when an existing
    source directory is reused. *)
Lemma iosPrepare_traces platform tarPath o w r w' :
  iosPrepare tools platform tarPath o w = (r, w') ->
  exists d, trace w' = trace w ++ d /\
    (exists rest, firstn 5 (ios_single_run platform "" tarPath o "") = d ++ rest) /\
    (forall a, r = Ok a ->
       (a <> None /\ d = firstn 5 (ios_single_run platform "" tarPath o "")) \/
       (a = None /\ clean o = false /\
        d = firstn 2 (ios_single_run platform "" tarPath o ""))).
Proof.
  cbn [firstn ios_single_run].
  assert (T : trace w = trace w ++ []) by (now rewrite app_nil_r).
  unfold iosPrepare. rewrite bind_run. unfold try_catch at 1.
  run_sh T. unfold ret at 1. run_sh T.
  rewrite bind_run. unfold existsSync at 1.
  destruct (_ && negb (clean o)) eqn:Hreuse.
  - rewrite bind_run. unfold log, ret.
    intros [= <- <-]. eexists. split; [exact T|]. split; [now eexists|].
    intros a [= <-]. right. apply andb_prop in Hreuse as [_ Hc].
    apply negb_true_iff in Hc. auto.
  - run_sh T. run_sh T. rewrite bind_run. unfold log at 1.
    rewrite bind_run. unfold try_catch at 1. run_sh T.
    unfold ret at 1. rewrite bind_run. unfold existsSync at 1.
    match goal with |- context [negb ?b] => destruct (negb b) end;
      [unfold throw; stop_with T|].
    rewrite bind_run.
    assert (Hq : quiet (when (clean o) (onExit ("/tmp/openssl_" +++ platform))))
      by auto with script.
    destruct (when (clean o) (onExit ("/tmp/openssl_" +++ platform)) _)
      as [[[]|e|n] w5] eqn:E5; destruct (Hq _ _ _ E5) as (_ & _ & T5);
      rewrite T in T5; [| stop_with T5 | stop_with T5].
    unfold ret. intros [= <- <-]. eexists. split; [exact T5|]. split; [now exists []|].
    intros a [= <-]. left. split; [discriminate | reflexivity].
Qed.

Ltac traces_lib_copy :=
  apply traces_quiet_bind; [auto with script|];
  intros [|]; [|apply traces_throw];
  cbn [Nat.ltb Nat.leb List.length]; repeat traces_step.

(** One turn of the iOS device loop when [arch] is the only architecture. *)
Lemma iphoneosArch_single_traces o tarPath x arch :
  traces (iphoneosArch tools o (distPath o +++ "/iphoneos") [arch] x arch)
    (skipn 5 (ios_single_run "iphoneos"
                (if String.eqb arch "arm64" then "ios64-xcrun" else "ios-xcrun")
                tarPath o arch)).
Proof.
  cbn [skipn ios_single_run]. unfold iphoneosArch.
  traces_step. apply traces_try_catch;
    [| intros; apply quiet_throw | apply rethrows_throw].
  do 8 traces_step.
  apply traces_bind with
    (L1 := [["cp"; "/tmp/openssl-iphoneos-" +++ arch +++ "/lib/libssl.a";
             (distPath o +++ "/iphoneos") +++ "/libssl.a"];
            ["cp"; "/tmp/openssl-iphoneos-" +++ arch +++ "/lib/libcrypto.a";
             (distPath o +++ "/iphoneos") +++ "/libcrypto.a"]]).
  - unfold ios_libs. cbn [for_of].
    apply traces_bind with
      (L1 := [["cp"; "/tmp/openssl-iphoneos-" +++ arch +++ "/lib/libssl.a";
               (distPath o +++ "/iphoneos") +++ "/libssl.a"]]);
      [traces_lib_copy | intros _].
    apply traces_bind with
      (L1 := [["cp"; "/tmp/openssl-iphoneos-" +++ arch +++ "/lib/libcrypto.a";
               (distPath o +++ "/iphoneos") +++ "/libcrypto.a"]]);
      [traces_lib_copy | intros _].
    traces_step.
  - intros _. repeat traces_step.
Qed.

(** One turn of the simulator loop when [arch] is the only architecture. *)
Lemma iphonesimArch_single_traces o tarPath arch :
  traces (iphonesimArch tools o (distPath o +++ "/iphonesim") [arch] arch)
    (skipn 5 (ios_single_run "iphonesim"
                (if String.eqb arch "arm64" then "iossimulator-arm64-xcrun"
                 else "iossimulator-x86_64-xcrun")
                tarPath o arch)).
Proof.
  cbn [skipn ios_single_run]. unfold iphonesimArch.
  traces_step. apply traces_try_catch;
    [| intros; apply quiet_throw | apply rethrows_throw].
  do 7 traces_step.
  apply traces_bind with
    (L1 := [["cp"; "/tmp/openssl-iphonesim-" +++ arch +++ "/lib/libssl.a";
             (distPath o +++ "/iphonesim") +++ "/libssl.a"];
            ["cp"; "/tmp/openssl-iphonesim-" +++ arch +++ "/lib/libcrypto.a";
             (distPath o +++ "/iphonesim") +++ "/libcrypto.a"]]).
  - unfold ios_libs. cbn [for_of].
    apply traces_bind with
      (L1 := [["cp"; "/tmp/openssl-iphonesim-" +++ arch +++ "/lib/libssl.a";
               (distPath o +++ "/iphonesim") +++ "/libssl.a"]]);
      [traces_lib_copy | intros _].
    apply traces_bind with
      (L1 := [["cp"; "/tmp/openssl-iphonesim-" +++ arch +++ "/lib/libcrypto.a";
               (distPath o +++ "/iphonesim") +++ "/libcrypto.a"]]);
      [traces_lib_copy | intros _].
    traces_step.
  - intros _. repeat traces_step.
Qed.

Lemma after_prefix (w w1 w' : World) (P : Prop) (L1 L2 d2 : list (list string)) :
  trace w1 = trace w ++ L1 ->
  trace w' = trace w1 ++ d2 ->
  (exists rest, L2 = d2 ++ rest) ->
  (P -> d2 = L2) ->
  exists d, trace w' = trace w ++ d /\
            (exists rest, L1 ++ L2 = d ++ rest) /\
            (P -> d = L1 ++ L2).
Proof.
  intros T1 T2 [rest R] F. exists (L1 ++ d2). rewrite T2, T1, <- app_assoc.
  split; [reflexivity|]. split.
  - exists rest. now rewrite R, <- app_assoc.
  - intros HP. now rewrite (F HP).
Qed.


End SingleArch.


(* ================================================================== *)
(** ** Headers: the last architecture wins *)
(* ================================================================== *)

Module HeaderFacts.
Import Fs FsFacts.

Lemma last_snoc (p : path) (x d : string) : List.last (p ++ [x]) d = x.
Proof. apply List.last_last. Qed.

Lemma is_prefix_refl p : is_prefix p p = true.
Proof. rewrite <- (app_nil_r p) at 2. apply is_prefix_app. Qed.

(** Nothing exists below a path that does not exist. *)
Lemma lookup_none_below p q n : lookup p n = None -> lookup (p ++ q) n = None.
Proof. intros H. now rewrite lookup_app, H. Qed.

Lemma not_prefix_of_missing p q n m :
  lookup p n = None -> lookup q n = Some m -> is_prefix p q = false.
Proof.
  intros Hp Hq. destruct (is_prefix p q) eqn:E; [|reflexivity].
  apply is_prefix_spec in E as [r ->]. rewrite (lookup_none_below _ _ _ Hp) in Hq.
  discriminate.
Qed.

(** Two distinct children of one directory: neither path contains the
    other. *)
Lemma sibling_not_prefix p x y : String.eqb x y = false -> is_prefix (p ++ [x]) (p ++ [y]) = false.
Proof.
  intros H. induction p as [|z p IH]; simpl.
  - now rewrite H.
  - now rewrite String.eqb_refl, IH.
Qed.

(** A path that ends in [x] and is an initial part of one that ends in a
    different [y] is an initial part of its parent. *)
Lemma prefix_of_parent p x q y :
  String.eqb x y = false -> is_prefix (p ++ [x]) (q ++ [y]) = true -> is_prefix (p ++ [x]) q = true.
Proof.
  revert q. induction p as [|z p IH]; intros q Hxy H.
  - destruct q as [|u q]; simpl in *.
    + now rewrite Hxy in H.
    + apply andb_prop in H as [H _]. now rewrite H.
  - destruct q as [|u q]; simpl in *.
    + apply andb_prop in H as [_ H]. destruct p; discriminate.
    + apply andb_prop in H as [Hz H]. rewrite Hz. simpl. now apply IH.
Qed.

Lemma is_prefix_long p q : List.length q < List.length p -> is_prefix p q = false.
Proof.
  revert q. induction p as [|x p IH]; intros q H; [inversion H|].
  destruct q as [|y q]; [reflexivity|]. cbn in *.
  rewrite IH by lia. apply andb_false_r.
Qed.

Lemma is_prefix_trans_app p q r : is_prefix p q = true -> is_prefix p (q ++ r) = true.
Proof.
  intros H. apply is_prefix_spec in H as [s ->]. rewrite <- app_assoc. apply is_prefix_app.
Qed.

(** Removing [p] leaves every path that neither contains [p] nor lies
    inside it as it was. *)
Lemma remove_lookup_other p q n :
  is_prefix p q = false -> is_prefix q p = false -> lookup q (remove p n) = lookup q n.
Proof.
  revert q n. induction p as [|x p IH]; intros q n Hpq Hqp; [discriminate|].
  destruct q as [|y q]; [discriminate|].
  destruct n as [|es]; [reflexivity|].
  simpl in Hpq, Hqp.
  destruct (String.eqb_spec x y) as [->|Hne].
  - rewrite String.eqb_refl in Hqp. simpl in Hpq, Hqp.
    destruct p as [|z p]; [discriminate|].
    rewrite remove_cons by discriminate.
    destruct (assoc y es) as [c|] eqn:Ec; [|reflexivity].
    cbn [lookup]. rewrite assoc_set_same, Ec. now apply IH.
  - destruct p as [|z p].
    + cbn [remove lookup]. now rewrite assoc_del_other.
    + rewrite remove_cons by discriminate.
      destruct (assoc x es) as [c|] eqn:Ec; [|reflexivity].
      cbn [lookup]. now rewrite assoc_set_other.
Qed.

End HeaderFacts.

(** Unfold a script that returned a value into the steps it took. *)
Ltac ok_chain H :=
  repeat (apply bind_ok_inv in H;
          let a := fresh "a" in
          let w := fresh "w" in
          let S := fresh "S" in
          destruct H as (a & w & S & H)).

(** The script has come to its [ret]. *)
Ltac ok_ret H := unfold ret in H; injection H as ?; subst.

(** A script that returned a value did not take the branch that throws. *)
Ltac ok_if H :=
  match type of H with
  | (if ?b then _ else _) _ = (Ok _, _) =>
      let E := fresh "E" in
      destruct b eqn:E; [unfold throw in H; discriminate H|]
  end.

Section Headers.

Variable tools : list string -> World -> cmd_result.

Import Fs FsFacts HeaderFacts.

(** What a successful copy has done. *)
Lemma run_cp_ok recursive src dst w out n :
  run_cp recursive src dst w = (0%N, out, n) ->
  let s := path_of (cwd w) src in
  let d := path_of (cwd w) dst in
  let t := if dir_at d (fs w) then d ++ [List.last s ""] else d in
  exists v v',
    lookup s (fs w) = Some v /\
    is_prefix s t = false /\
    write t v' (fs w) = Some n /\
    (lookup t (fs w) = None -> v' = v).
Proof.
  unfold run_cp. cbv zeta.
  destruct (lookup (path_of (cwd w) src) (fs w)) as [v|]; [|discriminate].
  destruct (is_dir v && negb recursive); [discriminate|].
  set (t := if dir_at _ _ then _ else _).
  destruct (is_prefix _ t) eqn:Hp; [discriminate|].
  destruct (lookup t (fs w)) as [old|] eqn:Ht.
  - destruct (overlay v old) as [v' ok].
    destruct (write t v' (fs w)) as [r|] eqn:Hw; [|discriminate].
    destruct ok; [|discriminate]. intros [= <- <-].
    exists v, v'. repeat split; auto. discriminate.
  - destruct (write t v (fs w)) as [r|] eqn:Hw; [|discriminate].
    intros [= <- <-]. exists v, v. repeat split; auto.
Qed.

(** After a successful copy to [dst], the directory [dst] was to be created
    in is a directory. *)
Lemma run_cp_parent recursive src dst w out n p x :
  run_cp recursive src dst w = (0%N, out, n) ->
  path_of (cwd w) dst = p ++ [x] ->
  dir_at p n = true.
Proof.
  intros H Hd. destruct (run_cp_ok _ _ _ _ H) as (v & v' & _ & _ & Hw & _).
  rewrite Hd in Hw. destruct (dir_at (p ++ [x]) (fs w)).
  - apply write_parent in Hw. eapply dir_at_prefix; eauto.
  - eapply write_parent; eauto.
Qed.

Lemma sh_cp_parent src dst w out w' p x :
  sh tools ["cp"; src; dst] w = (Ok out, w') ->
  path_of (cwd w) dst = p ++ [x] ->
  dir_at p (fs w') = true /\ cwd w' = cwd w.
Proof.
  intros H Hd. destruct (sh_ok_inv _ _ _ H) as (n & R & ->).
  rewrite run_cmd_cp in R. split; [|reflexivity]. eapply run_cp_parent; eauto.
Qed.

Lemma sh_cp_a_parent src dst w out w' p x :
  sh tools ["cp"; "-a"; src; dst] w = (Ok out, w') ->
  path_of (cwd w) dst = p ++ [x] ->
  dir_at p (fs w') = true /\ cwd w' = cwd w.
Proof.
  intros H Hd. destruct (sh_ok_inv _ _ _ H) as (n & R & ->).
  rewrite run_cmd_cp_a in R. split; [|reflexivity]. eapply run_cp_parent; eauto.
Qed.

(** The two commands that close every turn of a platform loop: once the
    output directory [dist] exists, replacing its [include] by a copy of the
    install directory's leaves the two equal. *)
Lemma headers_step dist install w2 w3 w' out1 out2 :
  dist <> "" -> install <> "" ->
  dir_at (path_of (cwd w2) dist) (fs w2) = true ->
  sh tools ["rm"; "-rf"; dist +++ "/include"] w2 = (Ok out1, w3) ->
  sh tools ["cp"; "-a"; install +++ "/include"; dist] w3 = (Ok out2, w') ->
  same_headers w' dist install /\
  cwd w' = cwd w2 /\
  is_prefix (path_of (cwd w2) install ++ ["include"]) (path_of (cwd w2) dist ++ ["include"])
    = false.
Proof.
  intros Hd Hi Hdir Hrm Hcp.
  destruct (sh_ok_inv _ _ _ Hrm) as (n3 & R3 & ->).
  destruct (sh_ok_inv _ _ _ Hcp) as (n' & R' & ->).
  rewrite run_cmd_rm_rf in R3. rewrite run_cmd_cp_a in R'.
  cbn [cwd fs set_fs add_trace] in *.
  unfold run_rm_rf in R3.
  assert (HT : path_of (cwd w2) (dist +++ "/include") = path_of (cwd w2) dist ++ ["include"])
    by (apply path_of_child; auto).
  assert (HS : path_of (cwd w2) (install +++ "/include") = path_of (cwd w2) install ++ ["include"])
    by (apply path_of_child; auto).
  rewrite HT in R3.
  destruct (path_of (cwd w2) dist ++ ["include"]) as [|t0 T] eqn:ET;
    [now destruct (path_of (cwd w2) dist)|].
  rewrite <- ET in *. injection R3 as _ <-.
  destruct (run_cp_ok _ _ _ _ R') as (v & v' & Hs & Hp & Hw & Hv).
  cbn [cwd fs set_fs add_trace] in *.
  rewrite ?HS in Hs, Hp, Hw, Hv.
  rewrite (remove_keeps_dir _ "include" [] _ Hdir), last_snoc in Hp, Hw, Hv.
  rewrite (Hv (remove_lookup_same _ _ _)) in Hw.
  split; [|split; [reflexivity | exact Hp]].
  unfold same_headers. cbn [cwd fs set_fs add_trace].
  exists v. rewrite HT, HS. split.
  - eapply write_lookup_same; eauto.
  - rewrite (write_lookup_other _ _ _ _ Hw); auto.
    eapply not_prefix_of_missing; eauto. apply remove_lookup_same.
Qed.

(** Every valid Android architecture is a plain directory name. *)
Lemma android_arch_plain arch :
  Js.includes arch android_valid_archs = true ->
  Js.lacks "/" arch = true /\ kept arch = true.
Proof.
  unfold Js.includes, android_valid_archs. cbn [existsb].
  rewrite !orb_true_iff, !String.eqb_eq.
  intros [->|[->|[->|[->|H]]]]; try discriminate; now split.
Qed.

(** A turn of the Android loop that completes leaves in the output
    directory the headers of the architecture it built. *)
Lemma androidArch_headers o ndk bin dist arch w w' :
  dist <> "" ->
  Js.includes arch android_valid_archs = true ->
  androidArch tools o ndk bin dist arch w = (Ok tt, w') ->
  same_headers w' dist ("/tmp/openssl-android-" +++ arch).
Proof.
  intros Hd Hvalid H. destruct (android_arch_plain _ Hvalid) as [Hplain Hkept].
  unfold androidArch in H. ok_chain H.
  apply try_catch_ok_inv in H; [|apply rethrows_throw].
  ok_chain H. unfold android_libs in *. cbn [for_of] in *.
  ok_ret H.
  match goal with
  | Hl : (_ ;; _) _ = (Ok _, _) |- _ => ok_chain Hl; ok_ret Hl
  end.
  match goal with
  | Hl : (_ <- existsSync (_ +++ "/lib/" +++ "libcrypto.so") ;; _) ?w0 = (Ok _, _) |- _ =>
      ok_chain Hl;
      match type of Hl with (if ?b then _ else _) _ = _ => destruct b; [|discriminate] end;
      ok_chain Hl; ok_ret Hl
  end.
  lazymatch goal with
  | Hc : sh tools ["cp"; "-a"; _; (dist +++ "/" +++ arch) +++ "/" +++ "libcrypto.so"] ?w0
         = (Ok _, ?w1),
    Hrm : sh tools ["rm"; "-rf"; dist +++ "/include"] ?w1 = (Ok _, _),
    Hcp : sh tools ["cp"; "-a"; _ +++ "/include"; dist] _ = (Ok _, _) |- _ =>
      destruct (sh_cp_a_parent _ _ _ (path_of (cwd w0) dist ++ [arch]) "libcrypto.so" Hc)
        as [Hdir Hcwd];
      [ rewrite path_of_child_app by (try reflexivity; now destruct dist);
        f_equal; apply path_of_child; auto
      | apply dir_at_prefix in Hdir; rewrite <- Hcwd in Hdir;
        assert (Hi : "/tmp/openssl-android-" +++ arch <> "") by (cbn; discriminate);
        destruct (@headers_step dist _ _ _ _ _ _ Hd Hi Hdir Hrm Hcp) as (Hh & _ & _);
        exact Hh ]
  end.
Qed.

(** A list that passes the check at the top of [buildForAndroid] holds
    valid architectures only. *)
Lemma android_check_ok (archs : list string) w w' :
  for_of archs (fun arch =>
    if negb (Js.includes arch android_valid_archs) then
      throw (JsError ("Invalid Android architecture: " +++ arch))
    else ret tt) w = (Ok tt, w') ->
  Forall (fun a => Js.includes a android_valid_archs = true) archs.
Proof.
  revert w. induction archs as [|x archs IH]; intros w H; [constructor|].
  cbn [for_of] in H. ok_chain H.
  destruct (Js.includes x android_valid_archs) eqn:E; [|discriminate].
  constructor; eauto.
Qed.

(** A [withDir] that returns has run its callback to a value; the closing
    [chdir] does not touch the file system. *)
Lemma withDir_ok_inv {T} dirPath (callback : M T) w a w' :
  withDir dirPath callback w = (Ok a, w') ->
  exists w0 w1, callback w0 = (Ok a, w1) /\ fs w' = fs w1.
Proof.
  unfold withDir. intros H. ok_chain H. unfold try_finally in H.
  destruct ((chdir dirPath;; callback) w0) as [[x|e|n] w1] eqn:E; [| |discriminate].
  - destruct (chdir a0 w1) as [[[]|e|n] w2] eqn:Ec; try discriminate.
    injection H as <- <-. ok_chain E. do 2 eexists. split; [eassumption|].
    now destruct (quiet_chdir _ _ Ec).
  - destruct (chdir a0 w1) as [[[]|e'|n] w2]; discriminate.
Qed.

Lemma starts_with_slash_app a b :
  Js.starts_with_slash a = true -> Js.starts_with_slash (a +++ b) = true.
Proof. destruct a; [discriminate | auto]. Qed.

Lemma path_of_absolute c1 c2 p :
  Js.starts_with_slash p = true -> path_of c1 p = path_of c2 p.
Proof. unfold path_of. now intros ->. Qed.

(** Between absolute directories, [same_headers] depends on the file system
    only. *)
Lemma same_headers_absolute w w' dist install :
  Js.starts_with_slash dist = true -> Js.starts_with_slash install = true ->
  fs w' = fs w -> same_headers w dist install -> same_headers w' dist install.
Proof.
  intros Hd Hi Hfs (n & H1 & H2). exists n. rewrite Hfs.
  rewrite (path_of_absolute (cwd w') (cwd w)) by (now apply starts_with_slash_app).
  rewrite (path_of_absolute (cwd w') (cwd w) (install +++ _))
    by (now apply starts_with_slash_app).
  now split.
Qed.

(** An Android run that returns after building leaves the headers of the
    last architecture of the list. *)
Lemma buildForAndroid_headers tarPath o w w' A init last :
  clean o = true ->
  Js.starts_with_slash (distPath o) = true ->
  androidArchs o = Some A ->
  Js.split "," A = init ++ [last] ->
  buildForAndroid tools tarPath o w = (Ok tt, w') ->
  same_headers w' (distPath o +++ "/android") ("/tmp/openssl-android-" +++ last).
Proof.
  intros Hclean Habs HA Hsplit H.
  unfold buildForAndroid in H. rewrite HA in H. unfold split_field in H.
  ok_chain H. ok_ret S0. rewrite Hsplit in *.
  repeat match goal with x : unit |- _ => destruct x end.
  apply android_check_ok in S1. apply Forall_app in S1 as [_ Hlast].
  inversion Hlast as [|? ? Hvalid _]; subst.
  ok_if H. ok_chain H. ok_if H. ok_chain H. ok_if H. ok_chain H.
  rewrite Hclean, andb_false_r in H. ok_chain H. ok_if H.
  apply withDir_ok_inv in H as (wa & wb & H & Hfs).
  apply for_of_last_inv in H as (wl & _ & H).
  apply androidArch_headers in H; [| now destruct (distPath o) | assumption].
  eapply same_headers_absolute; eauto.
  now apply starts_with_slash_app.
Qed.

(** The proof both iOS loops share: the last library copied shows that the
    output directory exists, and [headers_step] does the rest. *)
Ltac ios_arch_headers H Hd Hplain arch :=
  ok_chain H;
  (apply try_catch_ok_inv in H; [|apply rethrows_throw]);
  ok_chain H; unfold ios_libs in *; cbn [for_of] in *;
  ok_ret H;
  match goal with
  | Hl : (_ ;; _) _ = (Ok _, _) |- _ => ok_chain Hl; ok_ret Hl
  end;
  match goal with
  | Hl : (_ <- existsSync (_ +++ "/lib/" +++ "libcrypto.a") ;; _) _ = (Ok _, _) |- _ =>
      ok_chain Hl;
      match type of Hl with (if ?b then _ else _) _ = _ => destruct b; [|discriminate] end;
      ok_chain Hl; ok_ret Hl
  end;
  lazymatch goal with
  | Hc : (if ?b then _ else _) ?w0 = (Ok _, ?w1),
    Hrm : sh _ ["rm"; "-rf"; ?dist +++ "/include"] ?w1 = (Ok _, _),
    Hcp : sh _ ["cp"; "-a"; ?install +++ "/include"; ?dist] _ = (Ok _, _) |- _ =>
      assert (Hdir : dir_at (path_of (cwd w1) dist) (fs w1) = true);
      [ destruct b;
        [ destruct (sh_cp_parent _ _ _ (path_of (cwd w0) dist)
                      ("libcrypto.a" +++ "." +++ arch) Hc) as [Hdir Hcwd];
          [ rewrite !JsFacts.append_assoc;
            apply path_of_child_app; [exact Hd | cbn; exact Hplain | reflexivity]
          | now rewrite Hcwd ]
        | destruct (sh_cp_parent _ _ _ (path_of (cwd w0) dist) "libcrypto.a" Hc)
            as [Hdir Hcwd];
          [ apply path_of_child_app; [exact Hd | reflexivity | reflexivity]
          | now rewrite Hcwd ] ]
      | assert (Hi : install <> "") by (cbn; discriminate);
        destruct (@headers_step dist install _ _ _ _ _ Hd Hi Hdir Hrm Hcp)
          as (Hh & Hcwd & Hp);
        split; [exact Hh | rewrite Hcwd; exact Hp] ]
  end.

(** A turn of the iOS device loop that completes leaves in the output
    directory the headers of the architecture it built. *)
Lemma iphoneosArch_headers o dist archs x arch w w' :
  dist <> "" ->
  Js.lacks "/" arch = true ->
  iphoneosArch tools o dist archs x arch w = (Ok tt, w') ->
  same_headers w' dist ("/tmp/openssl-iphoneos-" +++ arch) /\
  is_prefix (path_of (cwd w') ("/tmp/openssl-iphoneos-" +++ arch) ++ ["include"])
    (path_of (cwd w') dist ++ ["include"]) = false.
Proof.
  intros Hd Hplain H. unfold iphoneosArch in H. ios_arch_headers H Hd Hplain arch.
Qed.

(** The same for the simulator loop. *)
Lemma iphonesimArch_headers o dist archs arch w w' :
  dist <> "" ->
  Js.lacks "/" arch = true ->
  iphonesimArch tools o dist archs arch w = (Ok tt, w') ->
  same_headers w' dist ("/tmp/openssl-iphonesim-" +++ arch) /\
  is_prefix (path_of (cwd w') ("/tmp/openssl-iphonesim-" +++ arch) ++ ["include"])
    (path_of (cwd w') dist ++ ["include"]) = false.
Proof.
  intros Hd Hplain H. unfold iphonesimArch in H. ios_arch_headers H Hd Hplain arch.
Qed.

Lemma keeps_quiet {A} q (m : M A) : quiet m -> keeps q m.
Proof. intros Hq w r w' H. destruct (Hq _ _ _ H) as (F & _). now rewrite F. Qed.

Lemma keeps_bind {A B} q (m : M A) (k : A -> M B) :
  keeps q m -> (forall a, keeps q (k a)) -> keeps q (bind m k).
Proof.
  intros Hm Hk w r w'. rewrite bind_run.
  destruct (m w) as [[a|e|n] w1] eqn:E; intros H.
  - rewrite (Hk a _ _ _ H). eapply Hm; eauto.
  - injection H as <- <-. eapply Hm; eauto.
  - injection H as <- <-. eapply Hm; eauto.
Qed.

Lemma keeps_for_of {A} q (l : list A) (f : A -> M unit) :
  (forall x, In x l -> keeps q (f x)) -> keeps q (for_of l f).
Proof.
  induction l as [|x l IH]; intros Hf; cbn [for_of].
  - apply keeps_quiet, quiet_ret.
  - apply keeps_bind; [apply Hf; now left|]. intros _. apply IH.
    intros y Hy. apply Hf. now right.
Qed.

Lemma clear_of_include d : clear_of d (d ++ ["include"]).
Proof.
  intros x Hx. destruct x as [|a x]; [discriminate|]. cbn in Hx.
  apply Ascii.eqb_eq in Hx. subst a. split; now apply sibling_not_prefix.
Qed.

(** The headers of an install directory [/tmp/<name>] are clear of the
    library files of an output directory whose last component is not
    [tmp], provided the two header directories are apart. *)
Lemma clear_of_install dparent platform name :
  String.eqb platform "tmp" = false ->
  lib_name name = false ->
  is_prefix (["tmp"; name] ++ ["include"]) ((dparent ++ [platform]) ++ ["include"]) = false ->
  clear_of (dparent ++ [platform]) (["tmp"; name] ++ ["include"]).
Proof.
  intros Hplat Hname Hapart x Hx.
  assert (Hxi : String.eqb x "include" = false)
    by (destruct x as [|a x]; [discriminate|]; cbn in Hx;
        apply Ascii.eqb_eq in Hx; now subst a).
  assert (Hxt : String.eqb x "tmp" = false)
    by (destruct x as [|a x]; [discriminate|]; cbn in Hx;
        apply Ascii.eqb_eq in Hx; now subst a).
  assert (Hxn : String.eqb x name = false).
  { destruct (String.eqb_spec x name) as [->|]; [congruence | reflexivity]. }
  split.
  - destruct (is_prefix ((dparent ++ [platform]) ++ [x]) (["tmp"; name] ++ ["include"])) eqn:E;
      [|reflexivity].
    apply (prefix_of_parent _ _ ["tmp"; name]) in E; [|assumption].
    destruct dparent as [|a dparent].
    + cbn in E. now rewrite Hplat in E.
    + rewrite is_prefix_long in E; [discriminate|].
      rewrite !length_app. cbn. lia.
  - destruct (is_prefix (["tmp"; name] ++ ["include"]) ((dparent ++ [platform]) ++ [x])) eqn:E;
      [|reflexivity].
    apply prefix_of_parent in E; [|now rewrite String.eqb_sym].
    apply (is_prefix_trans_app _ _ ["include"]) in E. congruence.
Qed.

Lemma keeps_lipo q args :
  lipo_confined tools ->
  Js.starts_with_slash (List.last args "") = true ->
  is_prefix (path_of "" (List.last args "")) q = false ->
  is_prefix q (path_of "" (List.last args "")) = false ->
  keeps q (sh tools ("lipo" :: args)).
Proof.
  intros Hconf Habs H1 H2 w r w' H. rewrite (sh_fs _ _ _ H).
  change (run_cmd tools ("lipo" :: args) w) with (tools ("lipo" :: args) w).
  apply Hconf; now rewrite (path_of_absolute (cwd w) "").
Qed.

Lemma keeps_rm q file :
  Js.starts_with_slash file = true ->
  is_prefix (path_of "" file) q = false ->
  is_prefix q (path_of "" file) = false ->
  keeps q (sh tools ["rm"; file]).
Proof.
  intros Habs H1 H2 w r w' H. rewrite (sh_fs _ _ _ H), run_cmd_rm. unfold run_rm.
  rewrite (path_of_absolute (cwd w) "") by assumption.
  destruct (lookup (path_of "" file) (fs w)) as [[c|es]|]; try reflexivity.
  cbn [snd]. now apply remove_lookup_other.
Qed.

Lemma last_app_cons {A} (l : list A) (x y z d : A) : List.last (l ++ [x; y; z]) d = z.
Proof.
  change [x; y; z] with ([x; y] ++ [z]). rewrite app_assoc. apply List.last_last.
Qed.

(** Where a library, or a staged copy of one, lies. *)
Lemma lib_path dist x :
  Js.starts_with_slash dist = true -> Js.lacks "/" x = true -> lib_name x = true ->
  Js.starts_with_slash (dist +++ "/" +++ x) = true /\
  path_of "" (dist +++ "/" +++ x) = path_of "" dist ++ [x].
Proof.
  intros Habs Hplain Hlib. split; [now apply starts_with_slash_app|].
  apply path_of_child_app; [now destruct dist | assumption |].
  destruct x as [|a x]; [discriminate|]. cbn in Hlib.
  apply Ascii.eqb_eq in Hlib. now subst a.
Qed.

(** The removal of the staged copies of [lib] keeps what is clear of the
    libraries. *)
Lemma keeps_unstage q dist lib archs :
  Js.starts_with_slash dist = true ->
  In lib ios_libs ->
  Forall (fun a => Js.lacks "/" a = true) archs ->
  clear_of (path_of "" dist) q ->
  keeps q (for_of archs (fun arch =>
             sh tools ["rm"; dist +++ "/" +++ lib +++ "." +++ arch] ;; ret tt)).
Proof.
  intros Habs Hlib Hplain Hclear. apply keeps_for_of. intros arch Harch.
  rewrite Forall_forall in Hplain. specialize (Hplain _ Harch).
  apply keeps_bind; [|intros; apply keeps_quiet, quiet_ret].
  assert (Hx : Js.lacks "/" (lib +++ "." +++ arch) = true /\
               lib_name (lib +++ "." +++ arch) = true)
    by (destruct Hlib as [<-|[<-|[]]]; now cbn).
  destruct Hx as [Hx1 Hx2]. destruct (@lib_path dist _ Habs Hx1 Hx2) as [Ha Hp].
  apply keeps_rm; [assumption | |]; rewrite Hp; now apply Hclear.
Qed.

Lemma ios_lib_plain lib :
  In lib ios_libs -> Js.lacks "/" lib = true /\ lib_name lib = true.
Proof. intros [<-|[<-|[]]]; now split. Qed.

(** The merge step of the device build keeps what is clear of the
    libraries. *)
Lemma iphoneosMerge_keeps q dist archs :
  lipo_confined tools ->
  Js.starts_with_slash dist = true ->
  Forall (fun a => Js.lacks "/" a = true) archs ->
  clear_of (path_of "" dist) q ->
  keeps q (iphoneosMerge tools dist archs).
Proof.
  intros Hconf Habs Hplain Hclear. unfold iphoneosMerge.
  destruct (Nat.ltb 1 (List.length archs)); cbn [when];
    [|apply keeps_quiet, quiet_ret].
  apply keeps_bind; [apply keeps_quiet, quiet_log|]. intros _.
  apply keeps_for_of. intros lib Hlib.
  destruct (@ios_lib_plain lib Hlib) as [Hl1 Hl2].
  destruct (@lib_path dist lib Habs Hl1 Hl2) as [Ha Hp].
  apply keeps_bind; [|intros _; now apply keeps_unstage].
  apply keeps_lipo; cbn [List.last]; [assumption | assumption | |];
    rewrite Hp; now apply Hclear.
Qed.

(** The merge step of the simulator build keeps what is clear of the
    libraries. *)
Lemma iphonesimMerge_keeps q dist archs :
  lipo_confined tools ->
  Js.starts_with_slash dist = true ->
  Forall (fun a => Js.lacks "/" a = true) archs ->
  clear_of (path_of "" dist) q ->
  keeps q (iphonesimMerge tools dist archs).
Proof.
  intros Hconf Habs Hplain Hclear. unfold iphonesimMerge.
  destruct (Nat.ltb 1 (List.length archs)); cbn [when];
    [|apply keeps_quiet, quiet_ret].
  apply keeps_bind; [apply keeps_quiet, quiet_log|]. intros _.
  apply keeps_for_of. intros lib Hlib.
  destruct (@ios_lib_plain lib Hlib) as [Hl1 Hl2].
  destruct (@lib_path dist lib Habs Hl1 Hl2) as [Ha Hp].
  apply keeps_bind; [|intros _; now apply keeps_unstage].
  change (["lipo"] ++ ?l) with ("lipo" :: l).
  apply keeps_lipo; rewrite ?last_app_cons; [assumption | assumption | |];
    rewrite Hp; now apply Hclear.
Qed.

(** With [clean = true] the iOS preamble never reuses anything. *)
Lemma iosPrepare_clean platform tarPath o w a w1 :
  clean o = true ->
  iosPrepare tools platform tarPath o w = (Ok a, w1) ->
  exists x, a = Some x.
Proof.
  intros Hclean H. destruct (iosPrepare_traces _ _ _ _ _ H) as (d & _ & _ & F).
  destruct (F a eq_refl) as [[Ha _]|(_ & Hc & _)]; [|congruence].
  destruct a as [x|]; [now exists x | congruence].
Qed.

(** A device run that returns after building leaves the headers of the
    last architecture of the list, provided the names in the list are plain
    and [lipo] writes nothing but its output. *)
Lemma buildForIosIphoneos_headers tarPath o w w' A init last :
  lipo_confined tools ->
  clean o = true ->
  Js.starts_with_slash (distPath o) = true ->
  iphoneosArchs o = Some A ->
  Js.split "," A = init ++ [last] ->
  Forall (fun a => Js.lacks "/" a = true) (init ++ [last]) ->
  buildForIosIphoneos tools tarPath o w = (Ok tt, w') ->
  same_headers w' (distPath o +++ "/iphoneos") ("/tmp/openssl-iphoneos-" +++ last).
Proof.
  intros Hconf Hclean Habs HA Hsplit Hplain H.
  assert (Hlast : Js.lacks "/" last = true)
    by (apply Forall_app in Hplain as [_ Hl]; now inversion Hl).
  assert (HabsD : Js.starts_with_slash (distPath o +++ "/iphoneos") = true)
    by (now apply starts_with_slash_app).
  unfold buildForIosIphoneos in H. ok_chain H. ok_if H. ok_chain H.
  destruct (iosPrepare_clean _ _ _ _ Hclean S0) as [x ->].
  apply withDir_ok_inv in H as (wa & wb & H & Hfs).
  rewrite HA in H. cbn [Js.show_str] in H. rewrite Hsplit in H.
  ok_chain H. repeat match goal with u : unit |- _ => destruct u end.
  apply for_of_last_inv in S2 as (wl & _ & Hbody).
  apply iphoneosArch_headers in Hbody as [(n & HT & HS) Hapart];
    [| now destruct (distPath o) | assumption].
  repeat match goal with
  | Hx : context [path_of (cwd ?v) ?q] |- _ =>
      rewrite (path_of_absolute (cwd v) "" q) in Hx
        by (first [reflexivity | now apply starts_with_slash_app | assumption])
  end.
  assert (HpD : path_of "" (distPath o +++ "/iphoneos") = path_of "" (distPath o) ++ ["iphoneos"])
    by (apply path_of_child_app; [now destruct (distPath o) | reflexivity | reflexivity]).
  assert (HpT : path_of "" ((distPath o +++ "/iphoneos") +++ "/include")
                = (path_of "" (distPath o) ++ ["iphoneos"]) ++ ["include"])
    by (rewrite <- HpD; apply path_of_child; [now destruct (distPath o) | reflexivity | reflexivity]).
  assert (HpI : path_of "" ("/tmp/openssl-iphoneos-" +++ last)
                = ["tmp"; "openssl-iphoneos-" +++ last])
    by (apply (@path_of_child_app "" "/tmp" ("openssl-iphoneos-" +++ last));
        [discriminate | exact Hlast | reflexivity]).
  assert (HpS : path_of "" (("/tmp/openssl-iphoneos-" +++ last) +++ "/include")
                = ["tmp"; "openssl-iphoneos-" +++ last] ++ ["include"])
    by (rewrite <- HpI; apply path_of_child; [discriminate | reflexivity | reflexivity]).
  rewrite HpD, HpI in Hapart. rewrite HpT in HT. rewrite HpS in HS.
  assert (KT : keeps ((path_of "" (distPath o) ++ ["iphoneos"]) ++ ["include"])
                 (iphoneosMerge tools (distPath o +++ "/iphoneos") (init ++ [last])))
    by (apply iphoneosMerge_keeps; auto; rewrite HpD; apply clear_of_include).
  assert (KS : keeps (["tmp"; "openssl-iphoneos-" +++ last] ++ ["include"])
                 (iphoneosMerge tools (distPath o +++ "/iphoneos") (init ++ [last])))
    by (apply iphoneosMerge_keeps; auto; rewrite HpD;
        apply clear_of_install; [reflexivity | reflexivity | exact Hapart]).
  exists n. rewrite Hfs.
  rewrite (path_of_absolute (cwd w') "") by (now apply starts_with_slash_app).
  rewrite (path_of_absolute (cwd w') "" (("/tmp/openssl-iphoneos-" +++ last) +++ _))
    by reflexivity.
  rewrite HpT, HpS, (KT _ _ _ H), (KS _ _ _ H). now split.
Qed.

(** A simulator run that returns after building leaves the headers of the
    last architecture of the list, provided the names in the list are plain
    and [lipo] writes nothing but its output. *)
Lemma buildForIosIphonesim_headers tarPath o w w' A init last :
  lipo_confined tools ->
  clean o = true ->
  Js.starts_with_slash (distPath o) = true ->
  iphonesimArchs o = Some A ->
  Js.split "," A = init ++ [last] ->
  Forall (fun a => Js.lacks "/" a = true) (init ++ [last]) ->
  buildForIosIphonesim tools tarPath o w = (Ok tt, w') ->
  same_headers w' (distPath o +++ "/iphonesim") ("/tmp/openssl-iphonesim-" +++ last).
Proof.
  intros Hconf Hclean Habs HA Hsplit Hplain H.
  assert (Hlast : Js.lacks "/" last = true)
    by (apply Forall_app in Hplain as [_ Hl]; now inversion Hl).
  assert (HabsD : Js.starts_with_slash (distPath o +++ "/iphonesim") = true)
    by (now apply starts_with_slash_app).
  unfold buildForIosIphonesim in H. ok_chain H. ok_if H. ok_chain H.
  destruct (iosPrepare_clean _ _ _ _ Hclean S0) as [x ->].
  apply withDir_ok_inv in H as (wa & wb & H & Hfs).
  rewrite HA in H. cbn [Js.show_str] in H. rewrite Hsplit in H.
  ok_chain H. repeat match goal with u : unit |- _ => destruct u end.
  apply for_of_last_inv in S1 as (wl & _ & Hbody).
  apply iphonesimArch_headers in Hbody as [(n & HT & HS) Hapart];
    [| now destruct (distPath o) | assumption].
  repeat match goal with
  | Hx : context [path_of (cwd ?v) ?q] |- _ =>
      rewrite (path_of_absolute (cwd v) "" q) in Hx
        by (first [reflexivity | now apply starts_with_slash_app | assumption])
  end.
  assert (HpD : path_of "" (distPath o +++ "/iphonesim") = path_of "" (distPath o) ++ ["iphonesim"])
    by (apply path_of_child_app; [now destruct (distPath o) | reflexivity | reflexivity]).
  assert (HpT : path_of "" ((distPath o +++ "/iphonesim") +++ "/include")
                = (path_of "" (distPath o) ++ ["iphonesim"]) ++ ["include"])
    by (rewrite <- HpD; apply path_of_child; [now destruct (distPath o) | reflexivity | reflexivity]).
  assert (HpI : path_of "" ("/tmp/openssl-iphonesim-" +++ last)
                = ["tmp"; "openssl-iphonesim-" +++ last])
    by (apply (@path_of_child_app "" "/tmp" ("openssl-iphonesim-" +++ last));
        [discriminate | exact Hlast | reflexivity]).
  assert (HpS : path_of "" (("/tmp/openssl-iphonesim-" +++ last) +++ "/include")
                = ["tmp"; "openssl-iphonesim-" +++ last] ++ ["include"])
    by (rewrite <- HpI; apply path_of_child; [discriminate | reflexivity | reflexivity]).
  rewrite HpD, HpI in Hapart. rewrite HpT in HT. rewrite HpS in HS.
  assert (KT : keeps ((path_of "" (distPath o) ++ ["iphonesim"]) ++ ["include"])
                 (iphonesimMerge tools (distPath o +++ "/iphonesim") (init ++ [last])))
    by (apply iphonesimMerge_keeps; auto; rewrite HpD; apply clear_of_include).
  assert (KS : keeps (["tmp"; "openssl-iphonesim-" +++ last] ++ ["include"])
                 (iphonesimMerge tools (distPath o +++ "/iphonesim") (init ++ [last])))
    by (apply iphonesimMerge_keeps; auto; rewrite HpD;
        apply clear_of_install; [reflexivity | reflexivity | exact Hapart]).
  exists n. rewrite Hfs.
  rewrite (path_of_absolute (cwd w') "") by (now apply starts_with_slash_app).
  rewrite (path_of_absolute (cwd w') "" (("/tmp/openssl-iphonesim-" +++ last) +++ _))
    by reflexivity.
  rewrite HpT, HpS, (KT _ _ _ H), (KS _ _ _ H). now split.
Qed.


End Headers.

(** The simulated [lipo] writes its output and nothing else. *)
Lemma sim_lipo_confined : lipo_confined Sim.tools.
Proof.
  intros args w q H1 H2.
  change (Sim.tools ("lipo" :: args) w)
    with (match Sim.read_all (cwd w) (Sim.lipo_inputs args) (fs w) with
          | Some fat =>
              (0%N, "",
               Sim.write_all [(Fs.path_of (cwd w) (List.last args ""), fat)] (fs w))
          | None => (1%N, "", fs w)
          end).
  destruct (Sim.read_all _ _ _) as [fat|]; [|reflexivity].
  cbn [snd Sim.write_all].
  destruct (Fs.mkdirp _ (fs w)) as [n1|] eqn:E1; [|reflexivity].
  assert (L1 : Fs.lookup q n1 = Fs.lookup q (fs w)).
  { eapply FsFacts.mkdirp_lookup_other; eauto.
    destruct (Fs.is_prefix q (removelast _)) eqn:E; [|reflexivity].
    apply FsFacts.is_prefix_removelast in E. congruence. }
  destruct (Fs.write _ _ n1) as [n2|] eqn:E2; [|exact L1].
  rewrite <- L1. eapply FsFacts.write_lookup_other; eauto.
Qed.


(* ================================================================== *)
(** ** Invariants of a run *)
(* ================================================================== *)

Lemma preserves_ret {A X} (f : World -> X) (a : A) : preserves f (ret a).
Proof. unfold ret. intros w r w' [= <- <-]. reflexivity. Qed.

Lemma preserves_throw {A X} (f : World -> X) e : preserves f (@throw A e).
Proof. unfold throw. intros w r w' [= <- <-]. reflexivity. Qed.

Lemma preserves_bind {A B X} (f : World -> X) (m : M A) (k : A -> M B) :
  preserves f m -> (forall a, preserves f (k a)) -> preserves f (bind m k).
Proof.
  intros Hm Hk w r w'. rewrite bind_run.
  destruct (m w) as [[a|e|n] w1] eqn:E; intros H.
  - rewrite (Hk a _ _ _ H). eapply Hm; eauto.
  - injection H as <- <-. eapply Hm; eauto.
  - injection H as <- <-. eapply Hm; eauto.
Qed.

Lemma preserves_try_catch {A X} (f : World -> X) (m : M A) h :
  preserves f m -> (forall e, preserves f (h e)) -> preserves f (try_catch m h).
Proof.
  intros Hm Hh w r w'. unfold try_catch.
  destruct (m w) as [[a|e|n] w1] eqn:E; intros H.
  - injection H as <- <-. eapply Hm; eauto.
  - rewrite (Hh e _ _ _ H). eapply Hm; eauto.
  - injection H as <- <-. eapply Hm; eauto.
Qed.

Lemma preserves_try_finally {A X} (f : World -> X) (m : M A) fin :
  preserves f m -> preserves f fin -> preserves f (try_finally m fin).
Proof.
  intros Hm Hf w r w'. unfold try_finally.
  destruct (m w) as [[a|e|n] w1] eqn:E.
  - destruct (fin w1) as [[[]|e'|n'] w2] eqn:Ef; intros [= <- <-];
      rewrite (Hf _ _ _ Ef); eapply Hm; eauto.
  - destruct (fin w1) as [[[]|e'|n'] w2] eqn:Ef; intros [= <- <-];
      rewrite (Hf _ _ _ Ef); eapply Hm; eauto.
  - intros [= <- <-]. eapply Hm; eauto.
Qed.

Lemma preserves_for_of {A X} (f : World -> X) (l : list A) (g : A -> M unit) :
  (forall x, preserves f (g x)) -> preserves f (for_of l g).
Proof.
  intros Hg. induction l as [|x l IH]; cbn [for_of].
  - apply preserves_ret.
  - apply preserves_bind; auto.
Qed.

Lemma preserves_when {X} (f : World -> X) b m : preserves f m -> preserves f (when b m).
Proof. destruct b; cbn [when]; [auto | intros _; apply preserves_ret]. Qed.

Lemma preserves_log {X} (f : World -> X) l s :
  (forall w, f (add_log l s w) = f w) -> preserves f (log l s).
Proof. intros Hf w r w'. unfold log. intros [= <- <-]. apply Hf. Qed.

Lemma preserves_onExit {X} (f : World -> X) p :
  (forall h w, f (add_hook h w) = f w) -> preserves f (onExit p).
Proof. intros Hf w r w'. unfold onExit. intros [= <- <-]. apply Hf. Qed.

Lemma preserves_onExitVar {X} (f : World -> X) x :
  (forall h w, f (add_hook h w) = f w) -> preserves f (onExitVar x).
Proof. intros Hf w r w'. unfold onExitVar. intros [= <- <-]. apply Hf. Qed.

Lemma preserves_assign {X} (f : World -> X) x v :
  (forall l w, f (set_vars l w) = f w) -> preserves f (assign x v).
Proof. intros Hf w r w'. unfold assign. intros [= <- <-]. apply Hf. Qed.

Lemma preserves_newVar {X} (f : World -> X) v :
  (forall l w, f (set_vars l w) = f w) -> preserves f (newVar v).
Proof. intros Hf w r w'. unfold newVar. intros [= <- <-]. apply Hf. Qed.

Lemma preserves_setenv {X} (f : World -> X) k v :
  (forall e w, f (set_env e w) = f w) -> preserves f (setenv k v).
Proof. intros Hf w r w'. unfold setenv. intros [= <- <-]. apply Hf. Qed.

Lemma preserves_chdir {X} (f : World -> X) p :
  (forall c w, f (set_cwd c w) = f w) -> preserves f (chdir p).
Proof.
  intros Hf w r w'. unfold chdir.
  destruct (Fs.dir_at _ _); intros [= <- <-]; [apply Hf | reflexivity].
Qed.

Lemma preserves_bunWrite {X} (f : World -> X) p c :
  (forall n w, f (set_fs n w) = f w) -> preserves f (bunWrite p c).
Proof.
  intros Hf w r w'. unfold bunWrite.
  destruct (Fs.dir_at _ _); [intros [= <- <-]; reflexivity|].
  destruct (Fs.write _ _ _); intros [= <- <-]; [apply Hf | reflexivity].
Qed.

Lemma preserves_existsSync {X} (f : World -> X) p : preserves f (existsSync p).
Proof. intros w r w'. unfold existsSync. intros [= <- <-]. reflexivity. Qed.

Lemma preserves_getenv {X} (f : World -> X) k : preserves f (getenv k).
Proof. intros w r w'. unfold getenv. intros [= <- <-]. reflexivity. Qed.

Lemma preserves_getcwd {X} (f : World -> X) : preserves f getcwd.
Proof. intros w r w'. unfold getcwd. intros [= <- <-]. reflexivity. Qed.

Lemma preserves_path_resolve {X} (f : World -> X) p : preserves f (path_resolve p).
Proof. intros w r w'. unfold path_resolve. destruct p; intros [= <- <-]; reflexivity. Qed.

Lemma preserves_sh {X} (f : World -> X) tools argv :
  (forall n a w, f (set_fs n (add_trace a w)) = f w) -> preserves f (sh tools argv).
Proof.
  intros Hf w r w'. destruct (sh_run tools argv w) as (code & out & n & _ & E).
  rewrite E. intros [= <- <-]. apply Hf.
Qed.

Lemma preserves_fetch {X} (f : World -> X) net url : preserves f (fetch net url).
Proof. intros w r w'. unfold fetch. destruct (net url w); intros [= <- <-]; reflexivity. Qed.

(** Show that a script leaves a component of the world alone; what is left
    are the steps that do touch it. *)
Ltac preserves_tac :=
  cbv zeta;
  repeat first
    [ apply preserves_bind; [|intros]
    | apply preserves_try_catch; [|intros]
    | apply preserves_try_finally
    | apply preserves_for_of; intros
    | apply preserves_when
    | apply preserves_ret
    | apply preserves_throw
    | apply preserves_existsSync
    | apply preserves_getenv
    | apply preserves_getcwd
    | apply preserves_path_resolve
    | apply preserves_fetch
    | apply preserves_sh; reflexivity
    | apply preserves_log; reflexivity
    | apply preserves_onExit; reflexivity
    | apply preserves_onExitVar; reflexivity
    | apply preserves_assign; reflexivity
    | apply preserves_newVar; reflexivity
    | apply preserves_setenv; reflexivity
    | apply preserves_chdir; reflexivity
    | apply preserves_bunWrite; reflexivity
    | match goal with |- preserves _ (if ?b then _ else _) => destruct b end
    | match goal with |- preserves _ (match ?x with _ => _ end) => destruct x end
    | progress cbv zeta ].

(* ------------------------------------------------------------------ *)
(** *** Lists the run adds to *)

Lemma appends_preserves {A X} (f : World -> list X) (m : M A) :
  preserves f m -> appends f m [].
Proof.
  intros Hp w r w' H. exists []. rewrite app_nil_r, (Hp _ _ _ H).
  repeat split; auto. now exists [].
Qed.

Lemma appends_bind {A B X} (f : World -> list X) (m : M A) (k : A -> M B) L1 L2 :
  appends f m L1 -> (forall a, appends f (k a) L2) -> appends f (bind m k) (L1 ++ L2).
Proof.
  intros Hm Hk w r w'. rewrite bind_run.
  destruct (m w) as [[a|e|n] w1] eqn:E; intros H.
  - destruct (Hm _ _ _ E) as (d1 & T1 & _ & F1). rewrite (F1 a eq_refl) in T1.
    destruct (Hk a _ _ _ H) as (d2 & T2 & (rest & R2) & F2).
    exists (L1 ++ d2). rewrite T2, T1, app_assoc. split; [reflexivity|]. split.
    + exists rest. now rewrite R2, app_assoc.
    + intros b Hb. now rewrite (F2 b Hb).
  - injection H as <- <-. destruct (Hm _ _ _ E) as (d1 & T1 & (rest & R1) & _).
    exists d1. split; [assumption|]. split; [|discriminate].
    exists (rest ++ L2). now rewrite R1, app_assoc.
  - injection H as <- <-. destruct (Hm _ _ _ E) as (d1 & T1 & (rest & R1) & _).
    exists d1. split; [assumption|]. split; [|discriminate].
    exists (rest ++ L2). now rewrite R1, app_assoc.
Qed.

Lemma appends_after {A B X} (f : World -> list X) (m : M A) (k : A -> M B) L :
  preserves f m -> (forall a, appends f (k a) L) -> appends f (bind m k) L.
Proof.
  intros Hm Hk. change L with ([] ++ L).
  apply appends_bind; [now apply appends_preserves | assumption].
Qed.

Lemma appends_before {A B X} (f : World -> list X) (m : M A) (k : A -> M B) L :
  appends f m L -> (forall a, preserves f (k a)) -> appends f (bind m k) L.
Proof.
  intros Hm Hk. rewrite <- (app_nil_r L).
  apply appends_bind; [assumption | intros; now apply appends_preserves].
Qed.

Lemma appends_try_catch {A X} (f : World -> list X) (m : M A) h L :
  appends f m L -> (forall e, preserves f (h e)) -> rethrows h ->
  appends f (try_catch m h) L.
Proof.
  intros Hm Hq Hh w r w'. unfold try_catch.
  destruct (m w) as [[a|e|n] w1] eqn:E; intros H.
  - injection H as <- <-. eauto.
  - destruct (Hm _ _ _ E) as (d & T & R & _). pose proof (Hq e _ _ _ H) as T'.
    destruct (Hh e w1) as [e' E']. rewrite E' in H. injection H as <- <-.
    exists d. repeat split; auto. discriminate.
  - injection H as <- <-. eauto.
Qed.

Lemma appends_try_finally {A X} (f : World -> list X) (m : M A) fin L :
  appends f m L -> preserves f fin -> appends f (try_finally m fin) L.
Proof.
  intros Hm Hq w r w'. unfold try_finally.
  destruct (m w) as [[a|e|n] w1] eqn:E.
  - destruct (Hm _ _ _ E) as (d & T & R & F).
    destruct (fin w1) as [[[]|e'|n'] w2] eqn:Ef; intros [= <- <-];
      pose proof (Hq _ _ _ Ef) as T'; exists d; rewrite T';
      repeat split; eauto; try discriminate.
  - destruct (Hm _ _ _ E) as (d & T & R & F).
    destruct (fin w1) as [[[]|e'|n'] w2] eqn:Ef; intros [= <- <-];
      pose proof (Hq _ _ _ Ef) as T'; exists d; rewrite T';
      repeat split; auto; discriminate.
  - intros [= <- <-]. eauto.
Qed.

Lemma appends_for_of {A X} (f : World -> list X) (l : list A) (g : A -> M unit)
  (h : A -> list X) :
  (forall x, appends f (g x) (h x)) -> appends f (for_of l g) (List.concat (map h l)).
Proof.
  intros Hg. induction l as [|x l IH]; cbn [for_of map List.concat].
  - apply appends_preserves, preserves_ret.
  - apply appends_bind; auto.
Qed.

Lemma appends_withDir {T X} (f : World -> list X) dirPath (callback : M T) L :
  (forall c w, f (set_cwd c w) = f w) ->
  appends f callback L -> appends f (withDir dirPath callback) L.
Proof.
  intros Hf Hc. unfold withDir.
  apply appends_after; [apply preserves_getcwd|]. intros originalDir.
  apply appends_try_finally; [|now apply preserves_chdir].
  apply appends_after; [now apply preserves_chdir | auto].
Qed.

Lemma appends_sh tools argv : appends trace (sh tools argv) [argv].
Proof. exact (traces_sh tools argv). Qed.

Lemma appends_onExit p : appends exitHooks (onExit p) [Remove p].
Proof.
  intros w r w'. unfold onExit. intros [= <- <-]. exists [Remove p].
  repeat split; auto. now exists [].
Qed.

Lemma appends_onExitVar x : appends exitHooks (onExitVar x) [RemoveVar x].
Proof.
  intros w r w'. unfold onExitVar. intros [= <- <-]. exists [RemoveVar x].
  repeat split; auto. now exists [].
Qed.

(* ------------------------------------------------------------------ *)
(** *** Runs that never end the process *)

Lemma no_exit_ret {A} (a : A) : no_exit (ret a).
Proof. unfold ret. intros w r w' [= <- <-] n. discriminate. Qed.

Lemma no_exit_throw {A} e : no_exit (@throw A e).
Proof. unfold throw. intros w r w' [= <- <-] n. discriminate. Qed.

Lemma no_exit_bind {A B} (m : M A) (k : A -> M B) :
  no_exit m -> (forall a, no_exit (k a)) -> no_exit (bind m k).
Proof.
  intros Hm Hk w r w'. rewrite bind_run.
  destruct (m w) as [[a|e|n] w1] eqn:E; intros H.
  - eapply Hk; eauto.
  - injection H as <- <-. discriminate.
  - now destruct (Hm _ _ _ E n).
Qed.

Lemma no_exit_try_catch {A} (m : M A) h :
  no_exit m -> (forall e, no_exit (h e)) -> no_exit (try_catch m h).
Proof.
  intros Hm Hh w r w'. unfold try_catch.
  destruct (m w) as [[a|e|n] w1] eqn:E; intros H.
  - injection H as <- <-. discriminate.
  - eapply Hh; eauto.
  - now destruct (Hm _ _ _ E n).
Qed.

Lemma no_exit_try_finally {A} (m : M A) fin :
  no_exit m -> no_exit fin -> no_exit (try_finally m fin).
Proof.
  intros Hm Hf w r w'. unfold try_finally.
  destruct (m w) as [[a|e|n] w1] eqn:E; [| |now destruct (Hm _ _ _ E n)];
    (destruct (fin w1) as [[[]|e'|n'] w2] eqn:Ef; [| |now destruct (Hf _ _ _ Ef n')]);
    intros [= <- <-]; discriminate.
Qed.

Lemma no_exit_for_of {A} (l : list A) (g : A -> M unit) :
  (forall x, no_exit (g x)) -> no_exit (for_of l g).
Proof.
  intros Hg. induction l as [|x l IH]; cbn [for_of].
  - apply no_exit_ret.
  - apply no_exit_bind; auto.
Qed.

Lemma no_exit_when b m : no_exit m -> no_exit (when b m).
Proof. destruct b; cbn [when]; [auto | intros _; apply no_exit_ret]. Qed.

Lemma no_exit_log l s : no_exit (log l s).
Proof. unfold log. intros w r w' [= <- <-] n. discriminate. Qed.

Lemma no_exit_onExit p : no_exit (onExit p).
Proof. unfold onExit. intros w r w' [= <- <-] n. discriminate. Qed.

Lemma no_exit_onExitVar x : no_exit (onExitVar x).
Proof. unfold onExitVar. intros w r w' [= <- <-] n. discriminate. Qed.

Lemma no_exit_assign x v : no_exit (assign x v).
Proof. unfold assign. intros w r w' [= <- <-] n. discriminate. Qed.

Lemma no_exit_newVar v : no_exit (newVar v).
Proof. unfold newVar. intros w r w' [= <- <-] n. discriminate. Qed.

Lemma no_exit_setenv k v : no_exit (setenv k v).
Proof. unfold setenv. intros w r w' [= <- <-] n. discriminate. Qed.

Lemma no_exit_getenv k : no_exit (getenv k).
Proof. unfold getenv. intros w r w' [= <- <-] n. discriminate. Qed.

Lemma no_exit_getcwd : no_exit getcwd.
Proof. unfold getcwd. intros w r w' [= <- <-] n. discriminate. Qed.

Lemma no_exit_existsSync p : no_exit (existsSync p).
Proof. unfold existsSync. intros w r w' [= <- <-] n. discriminate. Qed.

Lemma no_exit_chdir p : no_exit (chdir p).
Proof.
  unfold chdir. intros w r w'.
  destruct (Fs.dir_at _ _); intros [= <- <-] k; discriminate.
Qed.

Lemma no_exit_bunWrite p c : no_exit (bunWrite p c).
Proof.
  unfold bunWrite. intros w r w'.
  destruct (Fs.dir_at _ _); [intros [= <- <-] k; discriminate|].
  destruct (Fs.write _ _ _); intros [= <- <-] k; discriminate.
Qed.

Lemma no_exit_path_resolve p : no_exit (path_resolve p).
Proof. unfold path_resolve. intros w r w'. destruct p; intros [= <- <-] k; discriminate. Qed.

Lemma no_exit_sh tools argv : no_exit (sh tools argv).
Proof.
  intros w r w'. destruct (sh_run tools argv w) as (code & out & n & _ & E).
  rewrite E. destruct (N.eqb code 0); intros [= <- <-] k; discriminate.
Qed.

Lemma no_exit_fetch net url : no_exit (fetch net url).
Proof. unfold fetch. intros w r w'. destruct (net url w); intros [= <- <-] k; discriminate. Qed.

(** Show that a script never ends the process. *)
Ltac no_exit_tac :=
  cbv zeta;
  repeat first
    [ apply no_exit_bind; [|intros]
    | apply no_exit_try_catch; [|intros]
    | apply no_exit_try_finally
    | apply no_exit_for_of; intros
    | apply no_exit_when
    | apply no_exit_ret
    | apply no_exit_throw
    | apply no_exit_log
    | apply no_exit_onExit
    | apply no_exit_onExitVar
    | apply no_exit_assign
    | apply no_exit_newVar
    | apply no_exit_setenv
    | apply no_exit_getenv
    | apply no_exit_getcwd
    | apply no_exit_existsSync
    | apply no_exit_chdir
    | apply no_exit_bunWrite
    | apply no_exit_path_resolve
    | apply no_exit_sh
    | apply no_exit_fetch
    | match goal with |- no_exit (if ?b then _ else _) => destruct b end
    | match goal with |- no_exit (match ?x with _ => _ end) => destruct x end
    | progress cbv zeta ].

Section NoExit.

Variable tools : list string -> World -> cmd_result.
Variable net : string -> World -> option string.
Variable json_stringify : Options -> string.

Lemma no_exit_createOptions input : no_exit (createOptions input).
Proof. unfold createOptions. no_exit_tac. Qed.

Lemma no_exit_downloadOpenssl v c : no_exit (downloadOpenssl tools net v c).
Proof. unfold downloadOpenssl. no_exit_tac. Qed.

Lemma no_exit_buildForAndroid tarPath o : no_exit (buildForAndroid tools tarPath o).
Proof.
  unfold buildForAndroid, split_field, withDir, androidArch, android_libs. no_exit_tac.
Qed.

Lemma no_exit_iosPrepare platform tarPath o : no_exit (iosPrepare tools platform tarPath o).
Proof. unfold iosPrepare. no_exit_tac. Qed.

Lemma no_exit_buildForIosIphoneos tarPath o : no_exit (buildForIosIphoneos tools tarPath o).
Proof.
  unfold buildForIosIphoneos.
  apply no_exit_bind; [apply no_exit_log|]. intros _.
  destruct (negb _); [apply no_exit_throw|].
  apply no_exit_bind; [apply no_exit_iosPrepare|]. intros [x|]; [|apply no_exit_ret].
  unfold withDir, iphoneosArch, iphoneosMerge, ios_libs. no_exit_tac.
Qed.

Lemma no_exit_buildForIosIphonesim tarPath o : no_exit (buildForIosIphonesim tools tarPath o).
Proof.
  unfold buildForIosIphonesim.
  apply no_exit_bind; [apply no_exit_log|]. intros _.
  destruct (negb _); [apply no_exit_throw|].
  apply no_exit_bind; [apply no_exit_iosPrepare|]. intros [x|]; [|apply no_exit_ret].
  unfold withDir, iphonesimArch, iphonesimMerge, ios_libs. no_exit_tac.
Qed.

Lemma no_exit_mainSetup opts : no_exit (mainSetup tools net json_stringify opts).
Proof.
  unfold mainSetup.
  apply no_exit_bind; [apply no_exit_createOptions|]. intros o.
  apply no_exit_bind; [apply no_exit_log|]. intros _.
  apply no_exit_bind; [no_exit_tac|]. intros _.
  apply no_exit_bind; [apply no_exit_sh|]. intros _.
  apply no_exit_bind; [apply no_exit_downloadOpenssl|]. intros. apply no_exit_ret.
Qed.

Lemma no_exit_mainBuilds o tarPath : no_exit (mainBuilds tools o tarPath).
Proof.
  unfold mainBuilds.
  apply no_exit_bind; [apply no_exit_when, no_exit_buildForAndroid|]. intros _.
  apply no_exit_bind; [apply no_exit_when, no_exit_buildForIosIphoneos|]. intros _.
  apply no_exit_bind; [apply no_exit_when, no_exit_buildForIosIphonesim|]. intros _.
  apply no_exit_log.
Qed.

End NoExit.

(* ================================================================== *)
(** ** The program as a whole *)
(* ================================================================== *)

Lemma appends_throw {A X} (f : World -> list X) e L : appends f (@throw A e) L.
Proof.
  unfold throw. intros w r w' [= <- <-]. exists []. rewrite app_nil_r.
  repeat split; [now exists L | discriminate].
Qed.

Lemma appends_sh_bind {B} tools argv (k : string -> M B) L :
  (forall out, appends trace (k out) L) -> appends trace (bind (sh tools argv) k) (argv :: L).
Proof. exact (@traces_sh_bind tools B argv k L). Qed.

(** One step of a script whose commands are listed in the goal. *)
Ltac appends_step :=
  first
    [ apply appends_sh_bind; intros
    | apply appends_after; [solve [preserves_tac] | intros]
    | apply appends_throw
    | apply appends_preserves; solve [preserves_tac] ].

(** What [createOptions] returns, read off the input. *)
Lemma createOptions_ok_inv (input : Input) (w w' : World) (o : Options) :
  createOptions input w = (Ok o, w') ->
  w' = w /\ clean o = true /\
  in_opensslVersion input = Some (opensslVersion o) /\
  target o = in_target input /\
  androidArchs o = in_androidArchs input /\
  iphoneosArchs o = in_iphoneosArchs input /\
  iphonesimArchs o = in_iphonesimArchs input /\
  exists d, in_distPath input = Some d /\ distPath o = Fs.render (Fs.path_of (cwd w) d).
Proof.
  unfold createOptions.
  destruct (in_opensslVersion input) as [v|]; [|discriminate].
  destruct (String.eqb v ""); [discriminate|].
  rewrite bind_run. unfold path_resolve.
  destruct (in_distPath input) as [d|]; [|discriminate].
  unfold ret. intros [= <- <-]. cbn.
  repeat split; eauto. now destruct (in_clean input) as [[|]|].
Qed.

Section ProgramFacts.

Variable tools : list string -> World -> cmd_result.
Variable net : string -> World -> option string.
Variable json_stringify : Options -> string.
Variable parse : list string -> M Input.

(** A download that does not reuse: three commands, then the request. *)
Lemma downloadOpenssl_commands v :
  appends trace (downloadOpenssl tools net v true)
    [["rm"; "-rf"; archive_of v];
     ["rm"; "-rf"; "/tmp/openssl-" +++ v];
     ["mkdir"; "-p"; "/tmp/openssl-" +++ v]].
Proof.
  unfold downloadOpenssl, archive_of. cbv zeta.
  apply appends_after; [preserves_tac|]. intros present.
  rewrite andb_false_r. repeat appends_step.
Qed.

Lemma downloadOpenssl_path v c w p w' :
  downloadOpenssl tools net v c w = (Ok p, w') -> p = archive_of v.
Proof.
  unfold downloadOpenssl, archive_of. cbv zeta. intros H. ok_chain H.
  destruct (_ && _); ok_chain H; now ok_ret H.
Qed.

(** The commands of [main] before the first build. *)
Lemma mainSetup_commands opts w o w0 r w' :
  createOptions opts w = (Ok o, w0) ->
  mainSetup tools net json_stringify opts w = (r, w') ->
  exists d, trace w' = trace w ++ d /\
    (exists rest, setup_commands o = d ++ rest) /\
    (forall x, r = Ok x ->
       d = setup_commands o /\ x = (o, archive_of (opensslVersion o))).
Proof.
  intros Hc. destruct (createOptions_ok_inv _ _ Hc) as (-> & Hclean & _).
  unfold mainSetup. rewrite (bind_ok _ _ _ Hc), Hclean. cbn [when].
  intros H.
  assert (Ha : appends trace
            (log Info ("Options: " +++ json_stringify o);;
             (sh tools ["rm"; "-rf"; distPath o];; ret tt);;
             sh tools ["mkdir"; "-p"; distPath o];;
             tarPath <- downloadOpenssl tools net (opensslVersion o) true;;
             ret (o, tarPath))
            (setup_commands o)).
  { unfold setup_commands. appends_step.
    apply appends_bind with (L1 := [["rm"; "-rf"; distPath o]]);
      [repeat appends_step | intros _].
    appends_step.
    apply appends_before; [apply downloadOpenssl_commands | intros; preserves_tac]. }
  destruct (Ha _ _ _ H) as (d & T & R & F). exists d. split; [exact T|].
  split; [exact R|]. intros x ->. split; [now apply (F x)|].
  ok_chain H. ok_ret H. f_equal. eapply downloadOpenssl_path; eauto.
Qed.

(** A run of the builds that returns has just logged its success. *)
Lemma mainBuilds_ok_inv o tarPath w w' :
  mainBuilds tools o tarPath w = (Ok tt, w') ->
  exists w1, w' = add_log Info "Build completed successfully!" w1.
Proof.
  unfold mainBuilds. intros H. ok_chain H. unfold log in H.
  injection H as <-. eauto.
Qed.

(** [main] from the point where the command line has been parsed never
    ends the process unless the help flag is set. *)
Lemma no_exit_main opts :
  Js.truthy_bool (in_help opts) = false -> no_exit (main tools net json_stringify opts).
Proof.
  intros Hhelp. unfold main. rewrite Hhelp.
  apply no_exit_bind; [apply no_exit_mainSetup | intros; apply no_exit_mainBuilds].
Qed.

(** X1.  The exit status of the whole program, from the command line.  When
    commander ends the process while it parses the command line, as it does
    with status 1 for an option that was not declared, that is the exit
    status and nothing of the script has run after it: neither the help flag
    nor the handler at the top level comes into play.  An error commander
    throws is caught at the top level: it is logged and the status is 1.
    Once commander has returned the options: with the help flag set the help
    text is printed and the status is 0, whatever the other options;
    without it the process ends through the top-level handler only: either
    [main] returns, its last log line reports success and the status is 0,
    or [main] throws, the error is logged and the status is 1. *)
Theorem program_exit_status (argv : list string) (w : World) :
  (forall n w0,
     parse argv w = (Exit n, w0) ->
     programArgv tools net json_stringify parse argv w = (n, w0)) /\
  (forall e w0,
     parse argv w = (Throw e, w0) ->
     programArgv tools net json_stringify parse argv w =
       (1%N, add_log Error (show_error e) w0)) /\
  (forall opts w0,
     parse argv w = (Ok opts, w0) ->
     (Js.truthy_bool (in_help opts) = true ->
        programArgv tools net json_stringify parse argv w =
          (0%N, add_log Console HELP_TEXT w0)) /\
     (Js.truthy_bool (in_help opts) = false ->
        (exists w1,
           mainArgv tools net json_stringify parse argv w =
             (Ok tt, add_log Info "Build completed successfully!" w1) /\
           programArgv tools net json_stringify parse argv w =
             (0%N, add_log Info "Build completed successfully!" w1)) \/
        (exists e w1,
           mainArgv tools net json_stringify parse argv w = (Throw e, w1) /\
           programArgv tools net json_stringify parse argv w =
             (1%N, add_log Error (show_error e) w1)))).
Proof.
  unfold programArgv, mainArgv. split; [|split].
  - intros n w0 Hp. now rewrite bind_run, Hp.
  - intros e w0 Hp. now rewrite bind_run, Hp.
  - intros opts w0 Hp. rewrite bind_run, Hp. split; intros Hhelp.
    + unfold main. now rewrite Hhelp.
    + destruct (main tools net json_stringify opts w0) as [[[]|e|n] w1] eqn:E.
      * left. unfold main in E. rewrite Hhelp in E.
        apply bind_ok_inv in E as (s & w2 & _ & E).
        apply mainBuilds_ok_inv in E as [w3 ->]. now exists w3.
      * right. now exists e, w1.
      * exfalso. exact (@no_exit_main opts Hhelp _ _ _ E n eq_refl).
Qed.

End ProgramFacts.

Lemma program_exit_status_witness :
  let run := programArgv Sim.tools Sim.net Sim.json Sim.parse in
  fst (run ["bun"; "index.ts"; "--cc"; "/usr/bin/clang"; "--help"] Sim.world0) = 1%N /\
  trace (snd (run ["bun"; "index.ts"; "--cc"; "/usr/bin/clang"; "--help"] Sim.world0)) = [] /\
  fst (run ["bun"; "index.ts"; "--target=android"; "--help"] Sim.world0) = 0%N /\
  fst (run ["bun"; "index.ts"; "--target=iphoneos"; "--iphoneos-archs"; "arm64"]
         Sim.world0) = 0%N /\
  fst (run ["bun"; "index.ts"; "--target"; "android"; "--android-archs=mips"]
         Sim.world0) = 1%N.
Proof.
  cbv zeta. split; [|split; [|split; [|split]]].
  - destruct (program_exit_status Sim.tools Sim.net Sim.json Sim.parse
                ["bun"; "index.ts"; "--cc"; "/usr/bin/clang"; "--help"] Sim.world0)
      as (H & _).
    now rewrite (H 1%N (add_log Error "error: unknown option '--cc'" Sim.world0) eq_refl).
  - destruct (program_exit_status Sim.tools Sim.net Sim.json Sim.parse
                ["bun"; "index.ts"; "--cc"; "/usr/bin/clang"; "--help"] Sim.world0)
      as (H & _).
    now rewrite (H 1%N (add_log Error "error: unknown option '--cc'" Sim.world0) eq_refl).
  - destruct (program_exit_status Sim.tools Sim.net Sim.json Sim.parse
                ["bun"; "index.ts"; "--target=android"; "--help"] Sim.world0)
      as (_ & _ & H).
    destruct (H _ _ eq_refl) as (Hh & _). now rewrite (Hh eq_refl).
  - destruct (program_exit_status Sim.tools Sim.net Sim.json Sim.parse
                ["bun"; "index.ts"; "--target=iphoneos"; "--iphoneos-archs"; "arm64"]
                Sim.world0) as (_ & _ & H).
    destruct (H _ _ eq_refl) as (_ & Hr).
    destruct (Hr eq_refl) as [(w1 & _ & ->) | (e & w1 & Hm & _)]; [reflexivity|].
    exfalso. vm_compute in Hm. discriminate.
  - destruct (program_exit_status Sim.tools Sim.net Sim.json Sim.parse
                ["bun"; "index.ts"; "--target"; "android"; "--android-archs=mips"]
                Sim.world0) as (_ & _ & H).
    destruct (H _ _ eq_refl) as (_ & Hr).
    destruct (Hr eq_refl) as [(w1 & Hm & _) | (e & w1 & _ & ->)]; [|reflexivity].
    exfalso. vm_compute in Hm. discriminate.
Defined.

Section TargetFacts.

Variable tools : list string -> World -> cmd_result.
Variable net : string -> World -> option string.
Variable json_stringify : Options -> string.

(** X2.  Whatever the input says about [clean], the run of [main] starts by
    removing the output directory and the archive: once [createOptions] has
    accepted the input, the commands before the first build are an initial
    part of [setup_commands], and all of them when the setup returns, which
    it does with the options and the path of the archive. *)
Theorem main_setup_always_cleans (opts : Input) (w w0 : World) (o : Options) :
  createOptions opts w = (Ok o, w0) ->
  forall r w', mainSetup tools net json_stringify opts w = (r, w') ->
    exists d, trace w' = trace w ++ d /\
      (exists rest, setup_commands o = d ++ rest) /\
      (forall x, r = Ok x ->
         d = setup_commands o /\ x = (o, archive_of (opensslVersion o))).
Proof. intros Hc r w' H. eapply mainSetup_commands; eauto. Qed.

(** X3.  With target [all], a run whose device list or simulator list is
    empty or absent never succeeds: whatever the tools do, the exit status
    is 1. *)
Theorem target_all_needs_ios_lists (opts : Input) (w : World) :
  Js.truthy_bool (in_help opts) = false ->
  in_target opts = Some "all" ->
  Js.truthy_str (in_iphoneosArchs opts) = false \/
  Js.truthy_str (in_iphonesimArchs opts) = false ->
  fst (program tools net json_stringify opts w) = 1%N.
Proof.
  intros Hhelp Htarget Hlists. unfold program.
  destruct (main tools net json_stringify opts w) as [[[]|e|n] w1] eqn:E;
    [exfalso | reflexivity | exfalso].
  - unfold main in E. rewrite Hhelp in E.
    apply bind_ok_inv in E as ([o tarPath] & w2 & Hs & Hb). cbn [fst snd] in Hb.
    unfold mainSetup in Hs. apply bind_ok_inv in Hs as (o' & w3 & Hc & Hs).
    ok_chain Hs. ok_ret Hs.
    destruct (createOptions_ok_inv _ _ Hc) as (_ & _ & _ & Ht & _ & Hd & Hsim & _).
    unfold mainBuilds, target_is in Hb. rewrite Ht, Htarget in Hb.
    cbn [String.eqb Ascii.eqb Bool.eqb orb andb when] in Hb.
    apply bind_ok_inv in Hb as (? & ? & _ & Hb).
    apply bind_ok_inv in Hb as (? & ? & Hdev & Hb).
    apply bind_ok_inv in Hb as (? & ? & Hsm & _).
    destruct Hlists as [Hl|Hl].
    + unfold buildForIosIphoneos in Hdev. rewrite bind_run in Hdev.
      unfold log in Hdev. rewrite Hd, Hl in Hdev. discriminate.
    + unfold buildForIosIphonesim in Hsm. rewrite bind_run in Hsm.
      unfold log in Hsm. rewrite Hsim, Hl in Hsm. discriminate.
  - unfold main in E. rewrite Hhelp in E.
    assert (Hn : no_exit (setup <- mainSetup tools net json_stringify opts;;
                          mainBuilds tools (fst setup) (snd setup)))
      by (apply no_exit_bind;
          [apply no_exit_mainSetup | intros; apply no_exit_mainBuilds]).
    now apply (Hn _ _ _ E n).
Qed.

(** X4.  A target that is none of [android], [iphoneos], [iphonesim] and
    [all] (or no target at all) is not rejected: once the setup has
    returned, no build is run, no further command is issued, success is
    logged and the exit status is 0. *)
Theorem unknown_target_builds_nothing (opts : Input) (w w1 : World) (o : Options)
  (tarPath : string) :
  Js.truthy_bool (in_help opts) = false ->
  (forall t, In t ["android"; "iphoneos"; "iphonesim"; "all"] -> in_target opts <> Some t) ->
  mainSetup tools net json_stringify opts w = (Ok (o, tarPath), w1) ->
  program tools net json_stringify opts w =
    (0%N, add_log Info "Build completed successfully!" w1) /\
  trace w1 = trace w ++ setup_commands o.
Proof.
  intros Hhelp Htarget Hs.
  assert (Hc : createOptions opts w = (Ok o, w)).
  { pose proof Hs as Hs'. unfold mainSetup in Hs'.
    apply bind_ok_inv in Hs' as (o' & w3 & Hc & Hs'). ok_chain Hs'. ok_ret Hs'.
    now destruct (createOptions_ok_inv _ _ Hc) as (-> & _). }
  split.
  - destruct (createOptions_ok_inv _ _ Hc) as (_ & _ & _ & Ht & _).
    assert (Hno : forall t, In t ["android"; "iphoneos"; "iphonesim"; "all"] ->
                            target_is o t = false).
    { intros t Hin. unfold target_is. rewrite Ht.
      destruct (in_target opts) as [s|] eqn:Es; [|reflexivity].
      destruct (String.eqb_spec s t) as [->|]; [|reflexivity].
      now destruct (Htarget t Hin). }
    unfold program, main. rewrite Hhelp, (bind_ok _ _ _ Hs). cbn [fst snd].
    unfold mainBuilds.
    rewrite (Hno "android"), (Hno "iphoneos"), (Hno "iphonesim"), (Hno "all")
      by (cbn; auto).
    reflexivity.
  - destruct (@mainSetup_commands tools net json_stringify opts w o w _ _ Hc Hs)
      as (d & T & _ & F).
    destruct (F _ eq_refl) as [-> _]. exact T.
Qed.

End TargetFacts.

Lemma main_setup_always_cleans_witness :
  in_clean Sim.defaults = Some false /\
  trace (snd (mainSetup Sim.tools Sim.net Sim.json Sim.defaults Sim.world0)) =
    [["rm"; "-rf"; "/home/u/dist"];
     ["mkdir"; "-p"; "/home/u/dist"];
     ["rm"; "-rf"; "/tmp/openssl-3.4.0.tar.gz"];
     ["rm"; "-rf"; "/tmp/openssl-3.4.0"];
     ["mkdir"; "-p"; "/tmp/openssl-3.4.0"]].
Proof.
  split; [reflexivity|].
  pose (s := mainSetup Sim.tools Sim.net Sim.json Sim.defaults Sim.world0).
  pose (o := match fst (createOptions Sim.defaults Sim.world0) with
             | Ok x => x
             | _ => Sim.options_keep
             end).
  destruct (@main_setup_always_cleans Sim.tools Sim.net Sim.json Sim.defaults
              Sim.world0 Sim.world0 o eq_refl (fst s) (snd s) eq_refl)
    as (d & T & _ & F).
  destruct (F (o, "/tmp/openssl-3.4.0.tar.gz")) as [Hd _]; [vm_compute; reflexivity|].
  fold s. rewrite T, Hd. reflexivity.
Defined.

Lemma target_all_needs_ios_lists_witness :
  fst (program Sim.tools Sim.net Sim.json Sim.defaults Sim.world0) = 1%N.
Proof.
  apply target_all_needs_ios_lists; [reflexivity | reflexivity | left; reflexivity].
Defined.

Lemma unknown_target_builds_nothing_witness :
  fst (program Sim.tools Sim.net Sim.json (Sim.opts "ios" "arm64" "arm64" "arm64")
         Sim.world0) = 0%N.
Proof.
  pose (opts := Sim.opts "ios" "arm64" "arm64" "arm64").
  pose (s := mainSetup Sim.tools Sim.net Sim.json opts Sim.world0).
  pose (o := match fst s with Ok x => fst x | _ => Sim.options_keep end).
  destruct (@unknown_target_builds_nothing Sim.tools Sim.net Sim.json opts
              Sim.world0 (snd s) o "/tmp/openssl-3.4.0.tar.gz") as [Hp _].
  - reflexivity.
  - intros t [<-|[<-|[<-|[<-|[]]]]]; discriminate.
  - vm_compute. reflexivity.
  - fold opts. rewrite Hp. reflexivity.
Defined.

(* ================================================================== *)
(** ** downloadOpenssl *)
(* ================================================================== *)

Lemma bind_throw_inv {A B} (m : M A) (k : A -> M B) w e w' :
  bind m k w = (Throw e, w') ->
  m w = (Throw e, w') \/ exists a w1, m w = (Ok a, w1) /\ k a w1 = (Throw e, w').
Proof.
  rewrite bind_run. destruct (m w) as [[a|e0|n] w1]; intros H; try discriminate.
  - right. now exists a, w1.
  - left. now injection H as -> ->.
Qed.

Lemma lacks_app c a b : Js.lacks c (a +++ b) = Js.lacks c a && Js.lacks c b.
Proof. induction a as [|x a IH]; cbn; [reflexivity|]. now rewrite IH, andb_assoc. Qed.

(** A string is not equal to itself followed by something. *)
Lemma eqb_append_longer v a s : String.eqb (v +++ String a s) v = false.
Proof.
  induction v as [|c v IH]; cbn; [reflexivity|]. now rewrite Ascii.eqb_refl.
Qed.

(** Removal creates nothing. *)
Lemma remove_absent p : forall q n,
  Fs.lookup q n = None -> Fs.lookup q (Fs.remove p n) = None.
Proof.
  induction p as [|x p IH]; intros q n Hq; [exact Hq|].
  destruct n as [c|es]; [exact Hq|].
  destruct q as [|y q]; [discriminate|].
  destruct p as [|z p].
  - cbn [Fs.remove Fs.lookup] in *.
    destruct (String.eqb_spec x y) as [->|Hne].
    + now rewrite FsFacts.assoc_del_same.
    + now rewrite FsFacts.assoc_del_other.
  - rewrite FsFacts.remove_cons by discriminate.
    destruct (Fs.assoc x es) as [c|] eqn:Ec; [|exact Hq].
    cbn [Fs.lookup] in *.
    destruct (String.eqb_spec x y) as [->|Hne].
    + rewrite FsFacts.assoc_set_same. rewrite Ec in Hq. now apply IH.
    + now rewrite FsFacts.assoc_set_other.
Qed.

(** What is removed is gone. *)
Lemma remove_lookup_gone p n : p <> [] -> Fs.lookup p (Fs.remove p n) = None.
Proof.
  intros Hp. destruct (exists_last Hp) as (q & x & ->).
  apply FsFacts.remove_lookup_same.
Qed.

(** Where the archive and the directory beside it lie. *)
Lemma archive_path c v :
  Js.lacks "/" v = true ->
  Fs.path_of c (archive_of v) = ["tmp"; "openssl-" +++ v +++ ".tar.gz"] /\
  Fs.path_of c ("/tmp/openssl-" +++ v) = ["tmp"; "openssl-" +++ v].
Proof.
  intros Hv. split.
  - apply (@FsFacts.path_of_child_app c "/tmp" ("openssl-" +++ v +++ ".tar.gz"));
      [discriminate | | reflexivity].
    cbn. now rewrite lacks_app, Hv.
  - apply (@FsFacts.path_of_child_app c "/tmp" ("openssl-" +++ v));
      [discriminate | exact Hv | reflexivity].
Qed.

Lemma fetch_ok_inv net url w body w' :
  fetch net url w = (Ok body, w') -> net url w = Some body /\ w' = w.
Proof. unfold fetch. destruct (net url w); intros [= <- <-]; auto. Qed.

Lemma bunWrite_ok_inv p c w w' :
  bunWrite p c w = (Ok tt, w') ->
  exists n, Fs.write (Fs.path_of (cwd w) p) (Fs.File c) (fs w) = Some n /\ w' = set_fs n w.
Proof.
  unfold bunWrite. destruct (Fs.dir_at _ _); [discriminate|].
  destruct (Fs.write _ _ _) as [n|]; intros [= <-]. now exists n.
Qed.

Lemma bunWrite_throw_inv p c w e w' : bunWrite p c w = (Throw e, w') -> w' = w.
Proof.
  unfold bunWrite. destruct (Fs.dir_at _ _); [now intros [= _ <-]|].
  destruct (Fs.write _ _ _) as [n|]; [discriminate | now intros [= _ <-]].
Qed.

Section DownloadFacts.

Variable tools : list string -> World -> cmd_result.
Variable net : string -> World -> option string.

(** X5.  [downloadOpenssl] returns no other path than that of the archive,
    and when it returns the archive exists.  Either it reused the archive
    (only with [shouldClean] off): nothing was run, removed or registered.
    Or it ran its three commands and the archive is a file that holds the
    very body the server sent; its removal at exit is registered exactly
    when [shouldClean] is on. *)
Theorem downloadOpenssl_delivers (v : string) (shouldClean : bool) (w w' : World)
  (p : string) :
  downloadOpenssl tools net v shouldClean w = (Ok p, w') ->
  p = archive_of v /\
  cwd w' = cwd w /\
  ((shouldClean = false /\
    Fs.exists_at (Fs.path_of (cwd w) (archive_of v)) (fs w) = true /\
    fs w' = fs w /\ trace w' = trace w /\ exitHooks w' = exitHooks w)
   \/
   (trace w' = trace w ++ [["rm"; "-rf"; archive_of v];
                           ["rm"; "-rf"; "/tmp/openssl-" +++ v];
                           ["mkdir"; "-p"; "/tmp/openssl-" +++ v]] /\
    (exists body wf,
       net ("https://www.openssl.org/source/openssl-" +++ v +++ ".tar.gz") wf = Some body /\
       Fs.lookup (Fs.path_of (cwd w') (archive_of v)) (fs w') = Some (Fs.File body)) /\
    exitHooks w' = exitHooks w ++ (if shouldClean then [Remove (archive_of v)] else []))).
Proof.
  intros H. split; [eapply downloadOpenssl_path; eauto|].
  unfold downloadOpenssl in H. fold (archive_of v) in H. cbv zeta in H.
  apply bind_ok_inv in H as (present & w1 & He & H).
  unfold existsSync in He. injection He as <- <-.
  destruct (Fs.exists_at _ _ && negb shouldClean) eqn:Hreuse.
  - apply andb_prop in Hreuse as [Hex Hc]. apply negb_true_iff in Hc.
    apply bind_ok_inv in H as (u & w2 & Hl & H).
    unfold log in Hl. unfold ret in H. injection Hl as _ <-. injection H as _ <-.
    cbn. split; [reflexivity|]. left. auto.
  - apply bind_ok_inv in H as (? & w2 & H1 & H).
    apply bind_ok_inv in H as (? & w3 & H2 & H).
    apply bind_ok_inv in H as (? & w4 & H3 & H).
    apply bind_ok_inv in H as (? & w5 & H4 & H).
    apply bind_ok_inv in H as (body & w6 & H5 & H).
    apply bind_ok_inv in H as ([] & w7 & H6 & H).
    apply bind_ok_inv in H as (? & w8 & H7 & H).
    unfold ret in H. injection H as _ ->.
    apply sh_ok_inv in H1 as (n1 & _ & ->).
    apply sh_ok_inv in H2 as (n2 & _ & ->).
    apply sh_ok_inv in H3 as (n3 & _ & ->).
    unfold log in H4. injection H4 as _ <-.
    apply fetch_ok_inv in H5 as [Hnet ->].
    apply bunWrite_ok_inv in H6 as (n & Hw & ->).
    cbn [cwd fs set_fs add_trace add_log] in Hw.
    assert (E8 : cwd w' = cwd w /\ fs w' = n /\
                 trace w' = ((trace w ++ [["rm"; "-rf"; archive_of v]]) ++
                             [["rm"; "-rf"; "/tmp/openssl-" +++ v]]) ++
                            [["mkdir"; "-p"; "/tmp/openssl-" +++ v]] /\
                 exitHooks w' = exitHooks w ++ (if shouldClean then [Remove (archive_of v)] else [])).
    { destruct shouldClean; cbn [when] in H7.
      - unfold onExit in H7. injection H7 as _ <-. now cbn.
      - unfold ret in H7. injection H7 as _ <-. cbn. now rewrite app_nil_r. }
    destruct E8 as (Ec & Ef & Et & Eh). split; [exact Ec|]. right.
    split; [now rewrite Et, <- !app_assoc|]. split; [|exact Eh].
    eexists body, _. split; [exact Hnet|].
    rewrite Ec, Ef. eapply FsFacts.write_lookup_same; eauto.
Qed.

(** Whatever its exit status, [rm -rf] creates nothing: what was absent
    stays absent. *)
Lemma sh_rm_rf_creates_nothing p a w r w' :
  sh tools ["rm"; "-rf"; p] w = (r, w') ->
  Fs.lookup a (fs w) = None -> Fs.lookup a (fs w') = None.
Proof.
  intros H Ha. rewrite (sh_fs _ _ _ H), run_cmd_rm_rf. unfold run_rm_rf.
  destruct (Fs.path_of (cwd w) p); [exact Ha|]. cbn [snd]. now apply remove_absent.
Qed.

(** X6.  Once the removal of the archive, the first command of a download
    with [shouldClean] on, has succeeded, a download that fails leaves no
    archive behind, not even the one an earlier run had left: the two
    commands that follow cannot bring it back, whether they succeed or fail,
    and the archive is written only after the server has answered. *)
Theorem failed_download_leaves_no_archive (v : string) (w w1 w' : World) (out : string)
  (e : error) :
  Js.lacks "/" v = true ->
  sh tools ["rm"; "-rf"; archive_of v] w = (Ok out, w1) ->
  downloadOpenssl tools net v true w = (Throw e, w') ->
  Fs.exists_at ["tmp"; "openssl-" +++ v +++ ".tar.gz"] (fs w') = false.
Proof.
  intros Hv Hrm H. unfold downloadOpenssl in H. fold (archive_of v) in H. cbv zeta in H.
  rewrite bind_run in H. unfold existsSync at 1 in H. rewrite andb_false_r in H.
  destruct (@archive_path (cwd w) v Hv) as [Pa Ps].
  rewrite (bind_ok _ _ _ Hrm) in H.
  assert (A1 : Fs.lookup ["tmp"; "openssl-" +++ v +++ ".tar.gz"] (fs w1) = None).
  { destruct (sh_ok_inv _ _ _ Hrm) as (n & R & ->). rewrite run_cmd_rm_rf in R.
    unfold run_rm_rf in R. rewrite Pa in R. injection R as _ <-. cbn [fs set_fs].
    apply (FsFacts.remove_lookup_same ["tmp"]). }
  assert (C1 : cwd w1 = cwd w) by (now destruct (sh_frame _ _ _ Hrm)).
  assert (Hdone : forall w3 : World,
             Fs.lookup ["tmp"; "openssl-" +++ v +++ ".tar.gz"] (fs w3) = None ->
             Fs.exists_at ["tmp"; "openssl-" +++ v +++ ".tar.gz"] (fs w3) = false)
    by (intros w3 E3; unfold Fs.exists_at; now rewrite E3).
  apply bind_throw_inv in H as [H|(? & w2 & H2 & H)];
    [now apply Hdone, (@sh_rm_rf_creates_nothing _ _ _ _ _ H)|].
  pose proof (@sh_rm_rf_creates_nothing _ _ _ _ _ H2 A1) as A2.
  assert (C2 : cwd w2 = cwd w) by (destruct (sh_frame _ _ _ H2); congruence).
  assert (A3 : forall r w3,
             sh tools ["mkdir"; "-p"; "/tmp/openssl-" +++ v] w2 = (r, w3) ->
             Fs.lookup ["tmp"; "openssl-" +++ v +++ ".tar.gz"] (fs w3) = None).
  { intros r w3 H3. rewrite (sh_fs _ _ _ H3), run_cmd_mkdir_p. unfold run_mkdir_p.
    destruct (Fs.mkdirp _ _) as [n|] eqn:Em; [|exact A2]. cbn [snd].
    rewrite (FsFacts.mkdirp_lookup_other _ _ _ Em); [exact A2|].
    rewrite C2, Ps. cbn.
    now rewrite eqb_append_longer. }
  apply bind_throw_inv in H as [H|(? & w3 & H3 & H)]; [now apply Hdone, (A3 _ _ H)|].
  apply A3 in H3.
  rewrite bind_run in H. unfold log at 1 in H.
  apply bind_throw_inv in H as [H|(body & w5 & H5 & H)].
  { apply Hdone. unfold fetch in H. destruct (net _ _); [discriminate|].
    injection H as _ <-. exact H3. }
  apply fetch_ok_inv in H5 as [_ ->].
  apply bind_throw_inv in H as [H|(? & w6 & H6 & H)].
  { apply Hdone. apply bunWrite_throw_inv in H. subst w'. exact H3. }
  cbn [when] in H. rewrite bind_run in H. unfold onExit, ret in H. discriminate.
Qed.

End DownloadFacts.

Lemma downloadOpenssl_delivers_witness :
  Fs.lookup ["tmp"; "openssl-3.4.0.tar.gz"]
    (fs (snd (downloadOpenssl Sim.tools Sim.net "3.4.0" true Sim.world0)))
  = Some (Fs.File "openssl-3.4.0").
Proof.
  pose (r := downloadOpenssl Sim.tools Sim.net "3.4.0" true Sim.world0).
  destruct (@downloadOpenssl_delivers Sim.tools Sim.net "3.4.0" true Sim.world0 (snd r)
              "/tmp/openssl-3.4.0.tar.gz" eq_refl)
    as (_ & _ & [(Hc & _) | (_ & (body & wf & Hn & Hl) & _)]); [discriminate|].
  injection Hn as <-. exact Hl.
Defined.

Lemma failed_download_leaves_no_archive_witness :
  Fs.exists_at ["tmp"; "openssl-3.4.0.tar.gz"] (fs Sim.world_archive) = true /\
  Fs.exists_at ["tmp"; "openssl-3.4.0.tar.gz"]
    (fs (snd (downloadOpenssl Sim.tools Sim.offline "3.4.0" true Sim.world_archive))) = false.
Proof.
  split; [reflexivity|].
  apply (@failed_download_leaves_no_archive Sim.tools Sim.offline "3.4.0"
           Sim.world_archive
           (snd (sh Sim.tools ["rm"; "-rf"; archive_of "3.4.0"] Sim.world_archive))
           _ "" (TypeError "fetch failed"));
    [reflexivity | vm_compute; reflexivity | vm_compute; reflexivity].
Defined.

(* ================================================================== *)
(** ** What is registered for removal at exit *)
(* ================================================================== *)

Lemma appends_ret_bind {A B X} (f : World -> list X) (a : A) (k : A -> M B) L :
  appends f (k a) L -> appends f (bind (ret a) k) L.
Proof. intros H w r w'. rewrite bind_run. unfold ret. apply H. Qed.

(** Sequencing when only some values can come out of the first part. *)
Lemma appends_bind_ok {A B X} (f : World -> list X) (m : M A) (k : A -> M B)
  (P : A -> Prop) L1 L2 :
  appends f m L1 ->
  (forall w a w1, m w = (Ok a, w1) -> P a) ->
  (forall a, P a -> appends f (k a) L2) ->
  appends f (bind m k) (L1 ++ L2).
Proof.
  intros Hm HP Hk w r w'. rewrite bind_run.
  destruct (m w) as [[a|e|n] w1] eqn:E; intros H.
  - destruct (Hm _ _ _ E) as (d1 & T1 & _ & F1). rewrite (F1 a eq_refl) in T1.
    destruct (Hk a (HP _ _ _ E) _ _ _ H) as (d2 & T2 & (rest & R2) & F2).
    exists (L1 ++ d2). rewrite T2, T1, app_assoc. split; [reflexivity|]. split.
    + exists rest. now rewrite R2, app_assoc.
    + intros b Hb. now rewrite (F2 b Hb).
  - injection H as <- <-. destruct (Hm _ _ _ E) as (d1 & T1 & (rest & R1) & _).
    exists d1. split; [assumption|]. split; [|discriminate].
    exists (rest ++ L2). now rewrite R1, app_assoc.
  - injection H as <- <-. destruct (Hm _ _ _ E) as (d1 & T1 & (rest & R1) & _).
    exists d1. split; [assumption|]. split; [|discriminate].
    exists (rest ++ L2). now rewrite R1, app_assoc.
Qed.

Lemma concat_map_singleton {A B} (g : A -> B) (l : list A) :
  List.concat (map (fun a => [g a]) l) = map g l.
Proof. induction l as [|x l IH]; cbn; [reflexivity | now rewrite IH]. Qed.

(** Walk through the part of a script that adds nothing to the list, with
    [clean] known to be on. *)
Ltac appends_walk :=
  repeat first
    [ match goal with
      | Hc : clean _ = true |- _ => progress (rewrite ?Hc, ?andb_false_r)
      end
    | progress cbv beta iota zeta delta [negb when]
    | match goal with
      | |- appends _ (bind (ret _) _) _ => apply appends_ret_bind
      | |- appends _ (throw _) _ => apply appends_throw
      | |- appends _ (bind _ _) _ => apply appends_after; [solve [preserves_tac] | intros]
      | |- appends _ (if ?b then _ else _) _ => destruct b
      end ].

Section CleanupFacts.

Variable tools : list string -> World -> cmd_result.
Variable net : string -> World -> option string.

Lemma androidArch_hooks o ndk bin dist arch :
  clean o = true ->
  appends exitHooks (androidArch tools o ndk bin dist arch)
    [Remove ("/tmp/openssl-android-" +++ arch)].
Proof.
  intros Hc. unfold androidArch. appends_walk.
  apply appends_try_catch; [| intros; preserves_tac | apply rethrows_throw].
  apply appends_before; [apply appends_onExit|]. intros _.
  unfold android_libs. preserves_tac.
Qed.

(** The handler a turn of the device loop registers closes over the
    variable, not over the path the turn has put in it. *)
Lemma iphoneosArch_hooks o dist archs x arch :
  clean o = true ->
  appends exitHooks (iphoneosArch tools o dist archs x arch) [RemoveVar x].
Proof.
  intros Hc. unfold iphoneosArch. appends_walk.
  apply appends_try_catch; [| intros; preserves_tac | apply rethrows_throw].
  apply appends_after; [preserves_tac|]. intros _.
  apply appends_before; [apply appends_onExitVar|]. intros _.
  unfold ios_libs. preserves_tac.
Qed.

Lemma iphonesimArch_hooks o dist archs arch :
  clean o = true ->
  appends exitHooks (iphonesimArch tools o dist archs arch)
    [Remove ("/tmp/openssl-iphonesim-" +++ arch)].
Proof.
  intros Hc. unfold iphonesimArch. appends_walk.
  apply appends_try_catch; [| intros; preserves_tac | apply rethrows_throw].
  apply appends_before; [apply appends_onExit|]. intros _.
  unfold ios_libs. preserves_tac.
Qed.

Lemma iosPrepare_hooks platform tarPath o :
  clean o = true ->
  appends exitHooks (iosPrepare tools platform tarPath o)
    [Remove ("/tmp/openssl_" +++ platform)].
Proof.
  intros Hc. unfold iosPrepare. appends_walk.
  apply appends_before; [apply appends_onExit | intros; preserves_tac].
Qed.

Lemma buildForAndroid_hooks tarPath o A :
  clean o = true ->
  androidArchs o = Some A ->
  appends exitHooks (buildForAndroid tools tarPath o)
    (map (fun a => Remove ("/tmp/openssl-android-" +++ a)) (Js.split "," A)).
Proof.
  intros Hc HA. unfold buildForAndroid. rewrite HA. unfold split_field. appends_walk.
  apply appends_withDir; [reflexivity|].
  rewrite <- concat_map_singleton. apply appends_for_of.
  intros arch. now apply androidArch_hooks.
Qed.

Lemma set_nth_length x v l : List.length (set_nth x v l) = List.length l.
Proof.
  revert x. induction l as [|a l IH]; intros [|x]; cbn [set_nth List.length]; auto.
Qed.

Lemma nth_set_nth x v l d : x < List.length l -> nth x (set_nth x v l) d = v.
Proof.
  revert x. induction l as [|a l IH]; intros [|x]; cbn [set_nth List.length nth];
    intros H; try lia; [reflexivity | apply IH; lia].
Qed.

Lemma concat_map_const {A B} (h : B) (l : list A) :
  List.concat (map (fun _ => [h]) l) = repeat h (List.length l).
Proof. induction l as [|x l IH]; cbn; [reflexivity | now rewrite IH]. Qed.

(** A turn of the device loop that completes has assigned the variable, and
    nothing else has. *)
Lemma iphoneosArch_vars o dist archs x arch w w' :
  iphoneosArch tools o dist archs x arch w = (Ok tt, w') ->
  vars w' = set_nth x ("/tmp/openssl-iphoneos-" +++ arch) (vars w).
Proof.
  intros H. unfold iphoneosArch in H.
  apply bind_ok_inv in H as ([] & w0 & Hl & H). unfold log in Hl. injection Hl as <-.
  apply try_catch_ok_inv in H; [|apply rethrows_throw]. cbv zeta in H.
  apply bind_ok_inv in H as ([] & w1 & Ha & H). unfold assign in Ha. injection Ha as <-.
  match type of H with
  | ?m _ = _ => assert (Hp : preserves vars m) by (unfold ios_libs; preserves_tac)
  end.
  now rewrite (Hp _ _ _ H).
Qed.

(** After the turns of the device loop the variable holds the install
    directory of the last architecture. *)
Lemma iphoneos_loop_vars o dist archs x l w w' :
  for_of l (iphoneosArch tools o dist archs x) w = (Ok tt, w') ->
  List.length (vars w') = List.length (vars w) /\
  (l <> [] -> x < List.length (vars w) ->
   nth x (vars w') "" = "/tmp/openssl-iphoneos-" +++ List.last l "").
Proof.
  revert w'. induction l as [|a l IH] using rev_ind; intros w' H.
  - cbn [for_of] in H. unfold ret in H. injection H as <-. split; [reflexivity | congruence].
  - apply for_of_last_inv in H as (wl & Hl & Ht).
    destruct (IH _ Hl) as (Hlen & _).
    rewrite (iphoneosArch_vars _ _ _ _ _ _ Ht), set_nth_length. split; [exact Hlen|].
    intros _ Hx. rewrite last_last. apply nth_set_nth. now rewrite Hlen.
Qed.

(** A [withDir] from the outside, for what [chdir] leaves alone: either the
    callback ran, or no value came out. *)
Lemma withDir_run {T} dirPath (callback : M T) w r w' :
  withDir dirPath callback w = (r, w') ->
  (exists w2 r2 w3,
     callback w2 = (r2, w3) /\
     exitHooks w2 = exitHooks w /\ vars w2 = vars w /\
     exitHooks w' = exitHooks w3 /\ vars w' = vars w3 /\
     (forall a, r = Ok a -> r2 = Ok a)) \/
  (exitHooks w' = exitHooks w /\ vars w' = vars w /\ forall a, r <> Ok a).
Proof.
  unfold withDir. rewrite bind_run. unfold getcwd at 1. unfold try_finally.
  rewrite bind_run.
  assert (Hch : forall p v r1 v1, chdir p v = (r1, v1) ->
            exitHooks v1 = exitHooks v /\ vars v1 = vars v).
  { intros p v r1 v1. unfold chdir. destruct (Fs.dir_at _ _); intros [= <- <-]; now split. }
  destruct (chdir dirPath w) as [[[]|e|n] w2] eqn:E; destruct (Hch _ _ _ _ E) as (H2 & V2).
  - destruct (callback w2) as [[a|e|n] w3] eqn:Ecb.
    + destruct (chdir (cwd w) w3) as [[[]|e|n] w4] eqn:E4;
        destruct (Hch _ _ _ _ E4) as (H4 & V4); intros [= <- <-];
        left; exists w2, (Ok a), w3; repeat split; auto; discriminate.
    + destruct (chdir (cwd w) w3) as [[[]|e'|n] w4] eqn:E4;
        destruct (Hch _ _ _ _ E4) as (H4 & V4); intros [= <- <-];
        left; exists w2, (Throw e), w3; repeat split; auto; discriminate.
    + intros [= <- <-]. left. exists w2, (Exit n), w3. repeat split; auto.
  - destruct (chdir (cwd w) w2) as [[[]|e'|n] w4] eqn:E4;
      destruct (Hch _ _ _ _ E4) as (H4 & V4); intros [= <- <-];
      right; repeat split; try congruence; try discriminate.
  - intros [= <- <-]. right. repeat split; try congruence; try discriminate.
Qed.

(** The handlers of a device build.  The variable is the one the build
    declares: it did not exist before. *)
Lemma buildForIosIphoneos_hooks tarPath o A w r w' :
  clean o = true ->
  iphoneosArchs o = Some A ->
  buildForIosIphoneos tools tarPath o w = (r, w') ->
  let x := List.length (vars w) in
  let full := Remove "/tmp/openssl_iphoneos"
                :: repeat (RemoveVar x) (List.length (Js.split "," A)) in
  exists d, exitHooks w' = exitHooks w ++ d /\
    (exists rest, full = d ++ rest) /\
    (r = Ok tt ->
     d = full /\
     hook_path w' (RemoveVar x) = "/tmp/openssl-iphoneos-" +++ List.last (Js.split "," A) "").
Proof.
  intros Hc HA. cbv zeta. unfold buildForIosIphoneos. rewrite HA, bind_run. unfold log at 1.
  set (w0 := add_log Info "Building OpenSSL for iOS devices" w).
  destruct (negb _).
  { unfold throw. intros [= <- <-]. exists []. cbn [exitHooks add_log].
    rewrite app_nil_r. split; [reflexivity|]. split; [now eexists | discriminate]. }
  rewrite bind_run.
  destruct (iosPrepare tools "iphoneos" tarPath o w0) as [[a|e|n] w1] eqn:E1;
    destruct (@iosPrepare_hooks "iphoneos" tarPath o Hc _ _ _ E1) as (d1 & T1 & (rest1 & R1) & F1);
    cbn [exitHooks w0 add_log] in T1.
  2,3: intros [= <- <-]; exists d1; (split; [exact T1|]); (split; [|discriminate]);
       exists (rest1 ++ repeat (RemoveVar (List.length (vars w))) (List.length (Js.split "," A)));
       now rewrite app_assoc, <- R1.
  assert (V1 : vars w1 = vars w).
  { assert (Hp : preserves vars (iosPrepare tools "iphoneos" tarPath o))
      by (unfold iosPrepare; preserves_tac).
    exact (Hp _ _ _ E1). }
  destruct (@iosPrepare_clean tools _ _ _ _ _ _ Hc E1) as [p ->]. rewrite (F1 _ eq_refl) in T1.
  cbv zeta. cbn [Js.show_str]. intros H.
  set (archs := Js.split "," A) in *.
  assert (Hbody : forall v,
            appends exitHooks
              (for_of archs (iphoneosArch tools o (distPath o +++ "/iphoneos") archs v) ;;
               iphoneosMerge tools (distPath o +++ "/iphoneos") archs)
              (repeat (RemoveVar v) (List.length archs))).
  { intros v. apply appends_before;
      [| intros; unfold iphoneosMerge, ios_libs; preserves_tac].
    rewrite <- concat_map_const. apply appends_for_of.
    intros arch. now apply iphoneosArch_hooks. }
  apply withDir_run in H as [(w2 & r2 & w3 & Hcb & H2 & V2 & H3 & V3 & Hr)|(H' & V' & Hr)].
  - rewrite bind_run in Hcb. unfold newVar at 1 in Hcb.
    rewrite V2, V1 in Hcb.
    destruct (Hbody _ _ _ _ Hcb) as (d2 & T2 & (rest2 & R2) & F2).
    cbn [exitHooks set_vars] in T2. rewrite H2, T1, <- app_assoc in T2. cbn [app] in T2.
    exists (Remove "/tmp/openssl_iphoneos" :: d2). rewrite H3. split; [exact T2|]. split.
    + exists rest2. cbn [app]. now rewrite <- R2.
    + intros ->. specialize (Hr tt eq_refl). subst r2.
      rewrite (F2 tt eq_refl). split; [reflexivity|].
      apply bind_ok_inv in Hcb as ([] & wl & Hloop & Hm).
      assert (Vm : vars w3 = vars wl).
      { assert (Hp : preserves vars (iphoneosMerge tools (distPath o +++ "/iphoneos") archs))
          by (unfold iphoneosMerge, ios_libs; preserves_tac).
        exact (Hp _ _ _ Hm). }
      destruct (iphoneos_loop_vars _ _ _ _ _ _ Hloop) as (_ & Hv).
      cbn [hook_path]. rewrite V3, Vm. apply Hv.
      * unfold archs. destruct (Js.split "," A) eqn:Es; [|discriminate].
        now destruct (JsFacts.split_nonempty "," A).
      * cbn [vars set_vars]. rewrite length_app. cbn [List.length]. lia.
  - exists [Remove "/tmp/openssl_iphoneos"]. rewrite H'. split; [exact T1|]. split.
    + now eexists.
    + intros ->. now destruct (Hr tt).
Qed.

Lemma buildForIosIphonesim_hooks tarPath o A :
  clean o = true ->
  iphonesimArchs o = Some A ->
  appends exitHooks (buildForIosIphonesim tools tarPath o)
    (Remove "/tmp/openssl_iphonesim"
       :: map (fun a => Remove ("/tmp/openssl-iphonesim-" +++ a)) (Js.split "," A)).
Proof.
  intros Hc HA. unfold buildForIosIphonesim. rewrite HA.
  apply appends_after; [preserves_tac|]. intros _.
  destruct (negb _); [apply appends_throw|].
  apply appends_bind_ok with (P := fun a : option string => exists x, a = Some x)
                              (L1 := [Remove "/tmp/openssl_iphonesim"]);
    [now apply iosPrepare_hooks | intros w a w1 H; eapply iosPrepare_clean; eauto |].
  intros a [x ->]. cbv zeta. apply appends_withDir; [reflexivity|].
  apply appends_before;
    [| intros; unfold iphonesimMerge, ios_libs; preserves_tac].
  rewrite <- concat_map_singleton. apply appends_for_of.
  intros arch. now apply iphonesimArch_hooks.
Qed.

(** X7.  With [clean] off nothing is ever registered for removal at exit:
    neither by the download nor by any of the three builds, whatever their
    outcome. *)
Theorem no_cleanup_without_clean (tarPath : string) (o : Options) (v : string) :
  clean o = false ->
  preserves exitHooks (downloadOpenssl tools net v false) /\
  preserves exitHooks (buildForAndroid tools tarPath o) /\
  preserves exitHooks (buildForIosIphoneos tools tarPath o) /\
  preserves exitHooks (buildForIosIphonesim tools tarPath o).
Proof.
  intros Hc. destruct o as [ver tgt c dist api a1 a2 a3]. cbn [clean] in Hc. subst c.
  repeat split.
  - unfold downloadOpenssl. cbn [when]. preserves_tac.
  - unfold buildForAndroid, split_field, withDir, androidArch, android_libs.
    cbn [clean when androidArchs]. preserves_tac.
  - unfold buildForIosIphoneos, iosPrepare, withDir, iphoneosArch, iphoneosMerge, ios_libs.
    cbn [clean when]. preserves_tac.
  - unfold buildForIosIphonesim, iosPrepare, withDir, iphonesimArch, iphonesimMerge, ios_libs.
    cbn [clean when]. preserves_tac.
Qed.

(** X8.  With [clean] on, the handlers a build registers for exit are, in
    this order: for the two iOS platforms one that removes the source
    directory [/tmp/openssl_<platform>]; then, on every platform, one per
    architecture, registered as its turn begins.  A build that fails has
    registered an initial part of that list.  The Android source directory
    [/tmp/openssl_android] is never registered.  On Android and for the
    simulator the handler of a turn removes the install directory of its
    architecture.  In the device build every such handler closes over the
    one variable [installPath], which each turn assigns: once the loop has
    completed, all of them remove the install directory of the last
    architecture, and no handler removes that of any other. *)
Theorem cleanup_registered_in_order (tarPath : string) (o : Options) :
  clean o = true ->
  (forall A, androidArchs o = Some A ->
     appends exitHooks (buildForAndroid tools tarPath o)
       (map (fun a => Remove ("/tmp/openssl-android-" +++ a)) (Js.split "," A))) /\
  (forall A, iphonesimArchs o = Some A ->
     appends exitHooks (buildForIosIphonesim tools tarPath o)
       (Remove "/tmp/openssl_iphonesim"
          :: map (fun a => Remove ("/tmp/openssl-iphonesim-" +++ a)) (Js.split "," A))) /\
  (forall A w r w',
     iphoneosArchs o = Some A ->
     buildForIosIphoneos tools tarPath o w = (r, w') ->
     let x := List.length (vars w) in
     let full := Remove "/tmp/openssl_iphoneos"
                   :: repeat (RemoveVar x) (List.length (Js.split "," A)) in
     exists d, exitHooks w' = exitHooks w ++ d /\
       (exists rest, full = d ++ rest) /\
       (r = Ok tt ->
        d = full /\
        hook_path w' (RemoveVar x) =
          "/tmp/openssl-iphoneos-" +++ List.last (Js.split "," A) "")) /\
  (forall dist archs x l w w',
     l <> [] ->
     x < List.length (vars w) ->
     for_of l (iphoneosArch tools o dist archs x) w = (Ok tt, w') ->
     exitHooks w' = exitHooks w ++ repeat (RemoveVar x) (List.length l) /\
     hook_path w' (RemoveVar x) = "/tmp/openssl-iphoneos-" +++ List.last l "").
Proof.
  intros Hc. split; [|split; [|split]].
  - intros A HA. now apply buildForAndroid_hooks.
  - intros A HA. now apply buildForIosIphonesim_hooks.
  - intros A w r w' HA H. exact (@buildForIosIphoneos_hooks tarPath o A w r w' Hc HA H).
  - intros dist archs x l w w' Hl Hx H. split.
    + assert (Ha : appends exitHooks (for_of l (iphoneosArch tools o dist archs x))
                     (repeat (RemoveVar x) (List.length l))).
      { rewrite <- concat_map_const. apply appends_for_of.
        intros arch. now apply iphoneosArch_hooks. }
      destruct (Ha _ _ _ H) as (d & T & _ & F). now rewrite T, (F tt eq_refl).
    + destruct (iphoneos_loop_vars _ _ _ _ _ _ H) as (_ & Hv). now apply Hv.
Qed.

End CleanupFacts.

Lemma no_cleanup_without_clean_witness :
  let r := buildForIosIphoneos Sim.tools "/tmp/openssl-3.4.0.tar.gz" Sim.options_keep
             Sim.world_archive in
  fst r = Ok tt /\ exitHooks (snd r) = [].
Proof.
  cbv zeta. split; [vm_compute; reflexivity|].
  pose (r := buildForIosIphoneos Sim.tools "/tmp/openssl-3.4.0.tar.gz" Sim.options_keep
               Sim.world_archive).
  destruct (@no_cleanup_without_clean Sim.tools Sim.net "/tmp/openssl-3.4.0.tar.gz"
              Sim.options_keep "3.4.0" eq_refl) as (_ & _ & H & _).
  assert (E : buildForIosIphoneos Sim.tools "/tmp/openssl-3.4.0.tar.gz" Sim.options_keep
                Sim.world_archive = (fst r, snd r)) by (vm_compute; reflexivity).
  exact (H _ _ _ E).
Defined.

Lemma cleanup_registered_in_order_witness :
  let o := Sim.options "" "arm64,x86_64" "" in
  let w := snd (newVar ""
                  (set_cwd "/tmp/openssl_iphoneos/openssl-3.4.0"
                     (snd (iosPrepare Sim.tools "iphoneos" "/tmp/openssl-3.4.0.tar.gz" o
                             Sim.world_archive)))) in
  let w' := snd (for_of ["arm64"; "x86_64"]
                   (iphoneosArch Sim.tools o "/home/u/dist/iphoneos" ["arm64"; "x86_64"] 0)
                   w) in
  map (hook_path w') (exitHooks w') =
  ["/tmp/openssl_iphoneos"; "/tmp/openssl-iphoneos-x86_64"; "/tmp/openssl-iphoneos-x86_64"].
Proof.
  cbv zeta.
  set (o := Sim.options "" "arm64,x86_64" "").
  set (w := snd (newVar ""
                   (set_cwd "/tmp/openssl_iphoneos/openssl-3.4.0"
                      (snd (iosPrepare Sim.tools "iphoneos" "/tmp/openssl-3.4.0.tar.gz" o
                              Sim.world_archive))))).
  set (w' := snd (for_of ["arm64"; "x86_64"]
                    (iphoneosArch Sim.tools o "/home/u/dist/iphoneos" ["arm64"; "x86_64"] 0)
                    w)).
  assert (E : for_of ["arm64"; "x86_64"]
                (iphoneosArch Sim.tools o "/home/u/dist/iphoneos" ["arm64"; "x86_64"] 0) w
              = (Ok tt, w')) by (vm_compute; reflexivity).
  assert (Hx : 0 < List.length (vars w)) by (vm_compute; lia).
  assert (Ew : exitHooks w = [Remove "/tmp/openssl_iphoneos"]) by (vm_compute; reflexivity).
  destruct (@cleanup_registered_in_order Sim.tools "/tmp/openssl-3.4.0.tar.gz" o eq_refl)
    as (_ & _ & _ & H).
  destruct (H "/home/u/dist/iphoneos" ["arm64"; "x86_64"] 0 ["arm64"; "x86_64"] w w'
              ltac:(discriminate) Hx E) as (Hh & Hp).
  rewrite Hh, Ew. cbn [app repeat List.length map]. rewrite Hp. reflexivity.
Defined.

(* ================================================================== *)
(** ** The working directory after a build *)
(* ================================================================== *)

Lemma absolute_cwd_same w w1 : cwd w1 = cwd w -> absolute_cwd w -> absolute_cwd w1.
Proof. unfold absolute_cwd, cwd_path. now intros ->. Qed.

Lemma returns_home_preserves {A} (m : M A) : preserves cwd m -> returns_home m.
Proof. intros Hp w a w' _ H. exact (Hp _ _ _ H). Qed.

Lemma returns_home_bind {A B} (m : M A) (k : A -> M B) :
  returns_home m -> (forall a, returns_home (k a)) -> returns_home (bind m k).
Proof.
  intros Hm Hk w b w' Habs H. apply bind_ok_inv in H as (a & w1 & H1 & H2).
  pose proof (Hm _ _ _ Habs H1) as E1.
  rewrite <- E1. apply (Hk a _ _ _ (absolute_cwd_same _ E1 Habs) H2).
Qed.

Lemma returns_home_when b m : returns_home m -> returns_home (when b m).
Proof.
  destruct b; cbn [when]; [auto | intros _; apply returns_home_preserves, preserves_ret].
Qed.

(** Whatever the callback does, a [withDir] that returns is back where it
    started. *)
Lemma returns_home_withDir {T} dirPath (callback : M T) :
  returns_home (withDir dirPath callback).
Proof.
  intros w a w' [Habs Hnorm] H. unfold withDir in H. rewrite bind_run in H.
  unfold getcwd at 1 in H. unfold try_finally in H.
  destruct ((chdir dirPath;; callback) w) as [[x|e|n] w1]; [| |discriminate].
  - unfold chdir in H.
    assert (E : Fs.path_of (cwd w1) (cwd w) = cwd_path w)
      by (unfold Fs.path_of, cwd_path; now rewrite Habs).
    rewrite E in H. destruct (Fs.dir_at _ _); [|discriminate].
    injection H as _ <-. cbn. exact Hnorm.
  - destruct (chdir (cwd w) w1) as [[[]|e'|n'] w2]; discriminate.
Qed.

(** Show that a script that returns ends where it started. *)
Ltac returns_home_tac :=
  cbv zeta;
  repeat first
    [ apply returns_home_withDir
    | match goal with |- returns_home (bind _ _) => apply returns_home_bind; [|intros] end
    | apply returns_home_when
    | match goal with |- returns_home (if ?b then _ else _) => destruct b end
    | match goal with |- returns_home (match ?x with _ => _ end) => destruct x end
    | apply returns_home_preserves; solve [preserves_tac]
    | progress cbv zeta ].

Section HomeFacts.

Variable tools : list string -> World -> cmd_result.
Variable net : string -> World -> option string.
Variable json_stringify : Options -> string.

Lemma returns_home_buildForAndroid tarPath o :
  returns_home (buildForAndroid tools tarPath o).
Proof. unfold buildForAndroid, split_field. returns_home_tac. Qed.

Lemma returns_home_buildForIosIphoneos tarPath o :
  returns_home (buildForIosIphoneos tools tarPath o).
Proof. unfold buildForIosIphoneos, iosPrepare. returns_home_tac. Qed.

Lemma returns_home_buildForIosIphonesim tarPath o :
  returns_home (buildForIosIphonesim tools tarPath o).
Proof. unfold buildForIosIphonesim, iosPrepare. returns_home_tac. Qed.

(** X9.  Started in an absolute directory, each of the three builds that
    returns, and so every run of [main] that returns, ends in the directory
    it started in, although the builds run inside the extracted source
    tree. *)
Theorem builds_return_home (tarPath : string) (o : Options) (opts : Input) :
  returns_home (buildForAndroid tools tarPath o) /\
  returns_home (buildForIosIphoneos tools tarPath o) /\
  returns_home (buildForIosIphonesim tools tarPath o) /\
  returns_home (main tools net json_stringify opts).
Proof.
  split; [apply returns_home_buildForAndroid|].
  split; [apply returns_home_buildForIosIphoneos|].
  split; [apply returns_home_buildForIosIphonesim|].
  unfold main. destruct (Js.truthy_bool _).
  - intros w a w' _ H. rewrite bind_run in H. discriminate.
  - apply returns_home_bind.
    + apply returns_home_preserves.
      unfold mainSetup, createOptions, downloadOpenssl. preserves_tac.
    + intros s. unfold mainBuilds.
      apply returns_home_bind;
        [apply returns_home_when, returns_home_buildForAndroid | intros _].
      apply returns_home_bind;
        [apply returns_home_when, returns_home_buildForIosIphoneos | intros _].
      apply returns_home_bind;
        [apply returns_home_when, returns_home_buildForIosIphonesim | intros _].
      apply returns_home_preserves. preserves_tac.
Qed.

End HomeFacts.

Lemma builds_return_home_witness :
  cwd (snd (main Sim.tools Sim.net Sim.json (Sim.opts "all" "arm64" "arm64" "arm64,x86_64")
              Sim.world0)) = cwd Sim.world0.
Proof.
  destruct (@builds_return_home Sim.tools Sim.net Sim.json "" Sim.options_keep
              (Sim.opts "all" "arm64" "arm64" "arm64,x86_64")) as (_ & _ & _ & H).
  apply (H Sim.world0 tt); [split; reflexivity | vm_compute; reflexivity].
Defined.

(* ================================================================== *)
(** ** The Android build and its environment *)
(* ================================================================== *)

Lemma env_get_set_same k v e : env_get k (env_set k v e) = Some v.
Proof.
  induction e as [|[k' v'] e IH]; cbn.
  - now rewrite String.eqb_refl.
  - destruct (String.eqb k k') eqn:E; cbn; [now rewrite String.eqb_refl | now rewrite E].
Qed.

Lemma env_get_set_other k k' v e : k <> k' -> env_get k' (env_set k v e) = env_get k' e.
Proof.
  intros Hne. induction e as [|[k0 v0] e IH]; cbn.
  - destruct (String.eqb_spec k' k); [congruence | reflexivity].
  - destruct (String.eqb_spec k k0) as [->|]; cbn.
    + destruct (String.eqb_spec k' k0); [congruence | reflexivity].
    + now rewrite IH.
Qed.

Lemma prepend_times_comm n bin p :
  prepend_times n bin (bin +++ ":" +++ p) = bin +++ ":" +++ prepend_times n bin p.
Proof. induction n as [|n IH]; cbn [prepend_times]; [reflexivity | now rewrite IH]. Qed.

(** A [withDir] that returns: the three steps it took. *)
Lemma withDir_ok_steps {T} dirPath (callback : M T) w a w' :
  withDir dirPath callback w = (Ok a, w') ->
  exists w0 w1,
    chdir dirPath w = (Ok tt, w0) /\ callback w0 = (Ok a, w1) /\
    chdir (cwd w) w1 = (Ok tt, w').
Proof.
  unfold withDir. rewrite bind_run. unfold getcwd at 1. unfold try_finally.
  destruct ((chdir dirPath;; callback) w) as [[x|e|n] w1] eqn:E; [| |discriminate].
  - destruct (chdir (cwd w) w1) as [[[]|e|n] w2] eqn:Ec; try discriminate.
    intros [= <- <-]. apply bind_ok_inv in E as ([] & w0 & E0 & E1). now exists w0, w1.
  - destruct (chdir (cwd w) w1) as [[[]|e'|n] w2]; discriminate.
Qed.

(** The environment is the same after a step that does not assign to it. *)
Ltac env_same Hi :=
  match type of Hi with
  | ?m ?w0 = (_, ?w1) =>
      let E := fresh "E" in
      assert (E : env w1 = env w0)
        by (apply (fun P : preserves env m => P _ _ _ Hi); preserves_tac)
  end.

Section AndroidFacts.

Variable tools : list string -> World -> cmd_result.

(** X10.  Once the architecture list has passed its check, [buildForAndroid]
    fails before it runs any command when [ANDROID_NDK_HOME] is unset or
    empty, and when the NDK it names has no [toolchains/llvm/prebuilt]: each
    case throws its own error and leaves nothing behind but the first log
    line. *)
Theorem android_needs_ndk (tarPath : string) (o : Options) (A : string) (w : World) :
  androidArchs o = Some A ->
  Forall (fun a => Js.includes a android_valid_archs = true) (Js.split "," A) ->
  (Js.truthy_str (env_get "ANDROID_NDK_HOME" (env w)) = false ->
   buildForAndroid tools tarPath o w =
     (Throw (JsError "Please set ANDROID_NDK_HOME environment variable"),
      add_log Info "Building OpenSSL for Android" w)) /\
  (forall ndk,
     env_get "ANDROID_NDK_HOME" (env w) = Some ndk -> ndk <> "" ->
     Fs.exists_at (Fs.path_of (cwd w) (ndk +++ "/toolchains/llvm/prebuilt")) (fs w) = false ->
     buildForAndroid tools tarPath o w =
       (Throw (JsError "Please set ANDROID_NDK_HOME environment variable to the correct path"),
        add_log Info "Building OpenSSL for Android" w)).
Proof.
  intros HA Hvalid.
  split.
  - intros Hndk. unfold buildForAndroid. rewrite bind_run. unfold log at 1.
    rewrite HA. unfold split_field. rewrite bind_run. unfold ret at 1.
    rewrite (bind_ok _ _ _ (android_check_passes _ Hvalid)).
    rewrite bind_run. unfold getenv at 1. cbn [env add_log]. rewrite Hndk. reflexivity.
  - intros ndk Hndk Hne Hmissing. unfold buildForAndroid. rewrite bind_run. unfold log at 1.
    rewrite HA. unfold split_field. rewrite bind_run. unfold ret at 1.
    rewrite (bind_ok _ _ _ (android_check_passes _ Hvalid)).
    rewrite bind_run. unfold getenv at 1. cbn [env add_log]. rewrite Hndk.
    assert (Ht : Js.truthy_str (Some ndk) = true).
    { cbn. destruct (String.eqb_spec ndk ""); [congruence | reflexivity]. }
    rewrite Ht. cbn [negb Js.show_str]. rewrite bind_run. unfold existsSync at 1.
    cbn [cwd fs add_log]. rewrite Hmissing. reflexivity.
Qed.

(** One turn of the Android loop that completes has assigned three
    variables, the search path last. *)
Lemma androidArch_env o ndk bin dist arch w w' :
  androidArch tools o ndk bin dist arch w = (Ok tt, w') ->
  env w' =
  env_set "PATH"
    (bin +++ ":" +++
     Js.show_str (env_get "PATH"
       (env_set "ANDROID_API" (Js.show_str (androidAPI o))
          (env_set "ANDROID_NDK_HOME" ndk (env w)))))
    (env_set "ANDROID_API" (Js.show_str (androidAPI o))
       (env_set "ANDROID_NDK_HOME" ndk (env w))).
Proof.
  intros H. unfold androidArch in H.
  apply bind_ok_inv in H as (? & w0 & H0 & H). env_same H0.
  apply try_catch_ok_inv in H; [|apply rethrows_throw]. cbv zeta in H.
  apply bind_ok_inv in H as (? & w1 & H1 & H). env_same H1.
  apply bind_ok_inv in H as (? & w2 & H2 & H). env_same H2.
  apply bind_ok_inv in H as (? & w3 & H3 & H).
  apply bind_ok_inv in H as (? & w4 & H4 & H).
  apply bind_ok_inv in H as (oldPath & w5 & H5 & H).
  apply bind_ok_inv in H as (? & w6 & H6 & H).
  unfold android_libs in H. env_same H.
  unfold setenv in H3, H4, H6. unfold getenv in H5.
  injection H3 as _ <-. injection H4 as _ <-. injection H5 as <- <-. injection H6 as _ <-.
  cbn [env set_env] in *.
  match goal with E2 : env w' = _ |- _ => rewrite E2 end.
  replace (env w2) with (env w) by congruence. reflexivity.
Qed.

Lemma androidArch_path o ndk bin dist arch w w' :
  androidArch tools o ndk bin dist arch w = (Ok tt, w') ->
  env_get "PATH" (env w') = Some (bin +++ ":" +++ Js.show_str (env_get "PATH" (env w))) /\
  env_get "ANDROID_NDK_HOME" (env w') = Some ndk.
Proof.
  intros H. rewrite (@androidArch_env _ _ _ _ _ _ _ H). split.
  - rewrite env_get_set_same, !env_get_set_other by discriminate. reflexivity.
  - rewrite !env_get_set_other by discriminate. apply env_get_set_same.
Qed.

Lemma android_loop_path o ndk bin dist archs : forall w w' p,
  env_get "PATH" (env w) = Some p ->
  for_of archs (androidArch tools o ndk bin dist) w = (Ok tt, w') ->
  env_get "PATH" (env w') = Some (prepend_times (List.length archs) bin p).
Proof.
  induction archs as [|x archs IH]; intros w w' p Hp H; cbn [for_of] in H.
  - unfold ret in H. injection H as <-. exact Hp.
  - apply bind_ok_inv in H as ([] & w1 & H1 & H).
    destruct (@androidArch_path _ _ _ _ _ _ _ H1) as [E1 _]. rewrite Hp in E1.
    rewrite (IH _ _ _ E1 H). cbn [List.length prepend_times Js.show_str].
    now rewrite prepend_times_comm.
Qed.

Lemma android_loop_ndk o ndk bin dist archs : forall w w',
  env_get "ANDROID_NDK_HOME" (env w) = Some ndk ->
  for_of archs (androidArch tools o ndk bin dist) w = (Ok tt, w') ->
  env_get "ANDROID_NDK_HOME" (env w') = Some ndk.
Proof.
  induction archs as [|x archs IH]; intros w w' Hp H; cbn [for_of] in H.
  - unfold ret in H. injection H as <-. exact Hp.
  - apply bind_ok_inv in H as ([] & w1 & H1 & H).
    destruct (@androidArch_path _ _ _ _ _ _ _ H1) as [_ E1]. eauto.
Qed.

(** X11.  Every turn of the Android loop puts the toolchain's [bin]
    directory in front of [PATH] again: after a build of [n] architectures
    that returns, [PATH] starts with [n] copies of it (followed by the text
    [undefined] when [PATH] was not set), and [ANDROID_NDK_HOME] is what it
    was. *)
Theorem android_search_path_grows (tarPath : string) (o : Options) (A : string)
  (w w' : World) :
  clean o = true ->
  androidArchs o = Some A ->
  buildForAndroid tools tarPath o w = (Ok tt, w') ->
  exists host,
    env_get "PATH" (env w') =
      Some (prepend_times (List.length (Js.split "," A))
              ((Js.show_str (env_get "ANDROID_NDK_HOME" (env w))
                  +++ "/toolchains/llvm/prebuilt") +++ "/" +++ host +++ "/bin")
              (Js.show_str (env_get "PATH" (env w)))) /\
    env_get "ANDROID_NDK_HOME" (env w') = env_get "ANDROID_NDK_HOME" (env w).
Proof.
  intros Hclean HA H.
  unfold buildForAndroid in H. rewrite HA in H. unfold split_field in H.
  apply bind_ok_inv in H as (? & w0 & H0 & H). env_same H0.
  apply bind_ok_inv in H as (archs & w1 & H1 & H). env_same H1.
  unfold ret in H1. injection H1 as <- _.
  apply bind_ok_inv in H as (? & w2 & H2 & H). env_same H2.
  apply bind_ok_inv in H as (ndk & w3 & H3 & H). env_same H3.
  unfold getenv in H3. injection H3 as <- _.
  ok_if H. cbv zeta in H.
  apply bind_ok_inv in H as (? & w4 & H4 & H). env_same H4.
  ok_if H.
  apply bind_ok_inv in H as (output & w5 & H5 & H). env_same H5.
  ok_if H. cbv zeta in H.
  apply bind_ok_inv in H as (? & w6 & H6 & H). env_same H6.
  apply bind_ok_inv in H as (? & w7 & H7 & H). env_same H7.
  rewrite Hclean, andb_false_r in H.
  apply bind_ok_inv in H as (? & w8 & H8 & H). env_same H8.
  apply bind_ok_inv in H as (? & w9 & H9 & H). env_same H9.
  apply bind_ok_inv in H as (? & w10 & H10 & H). env_same H10.
  apply bind_ok_inv in H as (? & w11 & H11 & H). env_same H11.
  apply bind_ok_inv in H as (? & w12 & H12 & H). env_same H12.
  ok_if H.
  apply withDir_ok_steps in H as (wa & wb & Ha & Hloop & Hb).
  env_same Ha. env_same Hb.
  assert (Eenv : env wa = env w) by congruence.
  assert (Hndk : env_get "ANDROID_NDK_HOME" (env w) =
                 Some (Js.show_str (env_get "ANDROID_NDK_HOME" (env w)))).
  { match goal with
    | E : negb (Js.truthy_str (env_get "ANDROID_NDK_HOME" (env ?v))) = false |- _ =>
        replace (env v) with (env w) in E by congruence;
        destruct (env_get "ANDROID_NDK_HOME" (env w)); [reflexivity | discriminate E]
    end. }
  replace (env w2) with (env w) in Hloop by congruence.
  exists (hd "" (Js.split nl_char (Js.trim output))).
  replace (env w') with (env wb) by congruence.
  destruct (Js.split "," A) as [|arch0 archs] eqn:Es;
    [now apply JsFacts.split_nonempty in Es|].
  cbn [for_of] in Hloop. apply bind_ok_inv in Hloop as ([] & wc & Hfirst & Hrest).
  destruct (@androidArch_path _ _ _ _ _ _ _ Hfirst) as [P1 N1].
  split.
  - rewrite (@android_loop_path _ _ _ _ _ _ _ _ P1 Hrest).
    cbn [List.length prepend_times]. rewrite prepend_times_comm, Eenv. reflexivity.
  - rewrite (@android_loop_ndk _ _ _ _ _ _ _ N1 Hrest). now rewrite Hndk.
Qed.

End AndroidFacts.

Lemma android_needs_ndk_witness :
  buildForAndroid Sim.tools "/tmp/openssl-3.4.0.tar.gz" (Sim.options "arm64" "" "")
    Sim.world_no_ndk =
  (Throw (JsError "Please set ANDROID_NDK_HOME environment variable"),
   add_log Info "Building OpenSSL for Android" Sim.world_no_ndk).
Proof.
  destruct (@android_needs_ndk Sim.tools "/tmp/openssl-3.4.0.tar.gz"
              (Sim.options "arm64" "" "") "arm64" Sim.world_no_ndk eq_refl) as [H _].
  - repeat constructor.
  - apply H. reflexivity.
Defined.

Lemma android_search_path_grows_witness :
  let o := Sim.options "arm64,x86_64" "" "" in
  let w' := snd (buildForAndroid Sim.tools "/tmp/openssl-3.4.0.tar.gz" o Sim.world_archive) in
  exists host,
    env_get "PATH" (env w') =
      Some (prepend_times 2 ("/ndk/toolchains/llvm/prebuilt/" +++ host +++ "/bin") "/usr/bin").
Proof.
  cbv zeta.
  destruct (@android_search_path_grows Sim.tools "/tmp/openssl-3.4.0.tar.gz"
              (Sim.options "arm64,x86_64" "" "") "arm64,x86_64" Sim.world_archive
              (snd (buildForAndroid Sim.tools "/tmp/openssl-3.4.0.tar.gz"
                      (Sim.options "arm64,x86_64" "" "") Sim.world_archive))
              eq_refl eq_refl) as (host & HP & _); [vm_compute; reflexivity|].
  exists host. exact HP.
Defined.

(* ================================================================== *)
(** ** What a turn of a platform loop throws *)
(* ================================================================== *)

Lemma throws_only_bind {A B} P (m : M A) (k : A -> M B) :
  throws_only P m -> (forall a, throws_only P (k a)) -> throws_only P (bind m k).
Proof.
  intros Hm Hk w e w' H. apply bind_throw_inv in H as [H|(a & w1 & _ & H)].
  - eapply Hm; eauto.
  - eapply Hk; eauto.
Qed.

Lemma throws_only_for_of {A} P (l : list A) (g : A -> M unit) :
  (forall x, In x l -> throws_only P (g x)) -> throws_only P (for_of l g).
Proof.
  induction l as [|x l IH]; intros Hg; cbn [for_of].
  - intros w e w'. unfold ret. discriminate.
  - apply throws_only_bind; [apply Hg; now left|]. intros _. apply IH.
    intros y Hy. apply Hg. now right.
Qed.

Lemma throws_only_throw {A} (P : error -> Prop) e : P e -> throws_only P (@throw A e).
Proof. intros He w e' w'. unfold throw. now intros [= <- _]. Qed.

(** A step that cannot fail. *)
Lemma throws_only_unfailing {A} P (m : M A) : unfailing m -> throws_only P m.
Proof. intros Hm w e w' H. destruct (Hm w) as (a & w1 & E & _). congruence. Qed.

Lemma unfailing_setenv k v : unfailing (setenv k v).
Proof. intros w. now eexists _, _. Qed.

Lemma unfailing_getenv k : unfailing (getenv k).
Proof. intros w. now eexists _, _. Qed.

Lemma unfailing_existsSync p : unfailing (existsSync p).
Proof. intros w. now eexists _, _. Qed.

Lemma throws_only_sh tools (P : error -> Prop) argv :
  (forall code, code <> 0%N -> P (ShellError argv code)) -> throws_only P (sh tools argv).
Proof.
  intros HP w e w'. destruct (sh_run tools argv w) as (code & out & n & _ & E).
  rewrite E. destruct (N.eqb_spec code 0); [discriminate|]. intros [= <- _]. auto.
Qed.

(** A handler that wraps the error it caught. *)
Lemma throws_only_wrapped {A} (Q : error -> Prop) (m : M A) (g : error -> error) :
  throws_only Q m ->
  throws_only (fun e => exists cause, Q cause /\ e = g cause)
    (try_catch m (fun error => throw (g error))).
Proof.
  intros Hm w e w'. unfold try_catch.
  destruct (m w) as [[a|e0|n] w1] eqn:E; try discriminate.
  unfold throw. intros [= <- _]. exists e0. split; [eapply Hm; eauto | reflexivity].
Qed.

(** Show that the errors of the body of a turn are failed commands and
    missing libraries. *)
Ltac turn_failure_tac :=
  cbv zeta;
  repeat first
    [ apply throws_only_bind; [|intros]
    | apply throws_only_for_of; intros
    | apply throws_only_sh; intros; left; eauto
    | apply throws_only_throw; right; eexists; (split; [|reflexivity]);
      first [assumption | cbn; tauto]
    | apply throws_only_unfailing;
      first [ apply unfailing_log | apply unfailing_ret | apply unfailing_setenv
            | apply unfailing_getenv | apply unfailing_existsSync
            | apply unfailing_assign
            | apply unfailing_when, unfailing_onExit
            | apply unfailing_when, unfailing_onExitVar ]
    | match goal with |- throws_only _ (if ?b then _ else _) => destruct b end
    | progress cbv zeta ].

Section TurnErrors.

Variable tools : list string -> World -> cmd_result.

(** X12.  Whatever goes wrong inside a turn of a platform loop, a command
    that exits with a non-zero status or a library missing from the install
    directory, the turn throws one error whose message names the platform
    and the architecture and ends with the text of the cause. *)
Theorem turn_errors_name_the_architecture (o : Options) (ndk bin dist : string)
  (archs : list string) (x : nat) (arch : string) :
  throws_only
    (fun e => exists cause,
       turn_failure android_libs cause /\
       e = JsError ("Failed to build OpenSSL for Android " +++ arch +++ ": "
                    +++ show_error cause))
    (androidArch tools o ndk bin dist arch) /\
  throws_only
    (fun e => exists cause,
       turn_failure ios_libs cause /\
       e = JsError ("Failed building OpenSSL for iPhone OS " +++ arch +++ ": "
                    +++ show_error cause))
    (iphoneosArch tools o dist archs x arch) /\
  throws_only
    (fun e => exists cause,
       turn_failure ios_libs cause /\
       e = JsError ("Building OpenSSL for iphonesim " +++ arch +++ ": "
                    +++ show_error cause))
    (iphonesimArch tools o dist archs arch).
Proof.
  repeat split.
  - unfold androidArch.
    apply throws_only_bind; [apply throws_only_unfailing, unfailing_log | intros _].
    apply (throws_only_wrapped (Q := turn_failure android_libs)
             (fun error => JsError ("Failed to build OpenSSL for Android " +++ arch +++ ": "
                                    +++ show_error error))).
    unfold turn_failure. turn_failure_tac.
  - unfold iphoneosArch.
    apply throws_only_bind; [apply throws_only_unfailing, unfailing_log | intros _].
    apply (throws_only_wrapped (Q := turn_failure ios_libs)
             (fun error => JsError ("Failed building OpenSSL for iPhone OS " +++ arch +++ ": "
                                    +++ show_error error))).
    unfold turn_failure. turn_failure_tac.
  - unfold iphonesimArch.
    apply throws_only_bind; [apply throws_only_unfailing, unfailing_log | intros _].
    apply (throws_only_wrapped (Q := turn_failure ios_libs)
             (fun error => JsError ("Building OpenSSL for iphonesim " +++ arch +++ ": "
                                    +++ show_error error))).
    unfold turn_failure. turn_failure_tac.
Qed.

End TurnErrors.

Lemma turn_errors_name_the_architecture_witness :
  exists cause,
    turn_failure ios_libs cause /\
    JsError "Failed building OpenSSL for iPhone OS arm64: ShellError: Failed with exit code 127"
    = JsError ("Failed building OpenSSL for iPhone OS " +++ "arm64" +++ ": "
               +++ show_error cause).
Proof.
  destruct (@turn_errors_name_the_architecture Sim.tools Sim.options_keep "" ""
              "/home/u/dist/iphoneos" ["arm64"] 0 "arm64") as (_ & H & _).
  apply (H Sim.world0 _
           (snd (iphoneosArch Sim.tools Sim.options_keep "/home/u/dist/iphoneos"
                   ["arm64"] 0 "arm64" Sim.world0))).
  vm_compute. reflexivity.
Defined.

(* ================================================================== *)
(** ** An architecture listed twice *)
(* ================================================================== *)

Section Duplicates.

Variable tools : list string -> World -> cmd_result.

(** What a successful [rm] has done. *)
Lemma sh_rm_ok_inv file w out w' :
  sh tools ["rm"; file] w = (Ok out, w') ->
  (exists c, Fs.lookup (Fs.path_of (cwd w) file) (fs w) = Some (Fs.File c)) /\
  fs w' = Fs.remove (Fs.path_of (cwd w) file) (fs w) /\
  cwd w' = cwd w.
Proof.
  intros H. destruct (sh_ok_inv _ _ _ H) as (n & R & ->).
  rewrite run_cmd_rm in R. unfold run_rm in R.
  destruct (Fs.lookup _ _) as [[c|es]|]; try discriminate.
  injection R as _ <-. cbn. eauto.
Qed.

(** A loop of removals that completes found every file it was to remove,
    from the start. *)
Lemma unstage_needs_files (f : string -> string) (archs : list string) :
  forall w w',
    for_of archs (fun arch => sh tools ["rm"; f arch] ;; ret tt) w = (Ok tt, w') ->
    forall a, In a archs -> Fs.lookup (Fs.path_of (cwd w) (f a)) (fs w) <> None.
Proof.
  induction archs as [|x archs IH]; intros w w' H a Ha; [destruct Ha|].
  cbn [for_of] in H. apply bind_ok_inv in H as ([] & w1 & H1 & H).
  apply bind_ok_inv in H1 as (out & w2 & Hrm & Hr). unfold ret in Hr.
  injection Hr as <-.
  destruct (sh_rm_ok_inv _ _ Hrm) as ((c & Hc) & Hfs & Hcwd).
  destruct Ha as [<-|Ha]; [congruence|].
  specialize (IH _ _ H a Ha). rewrite Hcwd, Hfs in IH.
  intros Hnone. apply IH. now apply remove_absent.
Qed.

(** So it removed no file twice. *)
Lemma unstage_distinct (f : string -> string) (archs : list string) :
  forall w w',
    (forall a, In a archs -> Fs.path_of (cwd w) (f a) <> []) ->
    for_of archs (fun arch => sh tools ["rm"; f arch] ;; ret tt) w = (Ok tt, w') ->
    NoDup archs.
Proof.
  induction archs as [|x archs IH]; intros w w' Hne H; [constructor|].
  cbn [for_of] in H. apply bind_ok_inv in H as ([] & w1 & H1 & H).
  apply bind_ok_inv in H1 as (out & w2 & Hrm & Hr). unfold ret in Hr.
  injection Hr as <-.
  destruct (sh_rm_ok_inv _ _ Hrm) as (_ & Hfs & Hcwd).
  constructor.
  - intros Hin. apply (@unstage_needs_files f archs w2 w' H x Hin).
    rewrite Hcwd, Hfs. apply remove_lookup_gone, Hne. now left.
  - apply (IH w2 w'); [|exact H].
    intros a Ha. rewrite Hcwd. apply Hne. now right.
Qed.

(** Where a staged copy lies. *)
Lemma staged_path c dist lib arch :
  dist <> "" -> In lib ios_libs -> Js.lacks "/" arch = true ->
  Fs.path_of c (dist +++ "/" +++ lib +++ "." +++ arch) <> [].
Proof.
  intros Hd Hlib Hplain.
  rewrite (@FsFacts.path_of_child_app c dist (lib +++ "." +++ arch)).
  - intros E. apply app_eq_nil in E as [_ E]. discriminate.
  - exact Hd.
  - destruct Hlib as [<-|[<-|[]]]; cbn; exact Hplain.
  - destruct Hlib as [<-|[<-|[]]]; reflexivity.
Qed.

Lemma short_list_distinct (l : list string) : Nat.ltb 1 (List.length l) = false -> NoDup l.
Proof.
  destruct l as [|x [|y l]]; intros H; [constructor | | discriminate].
  constructor; [intros [] | constructor].
Qed.

Lemma iphoneosMerge_distinct dist archs w w' :
  dist <> "" ->
  Forall (fun a => Js.lacks "/" a = true) archs ->
  iphoneosMerge tools dist archs w = (Ok tt, w') ->
  NoDup archs.
Proof.
  intros Hd Hplain H. unfold iphoneosMerge in H.
  destruct (Nat.ltb 1 (List.length archs)) eqn:El; [|now apply short_list_distinct].
  cbn [when] in H. apply bind_ok_inv in H as (? & w0 & _ & H).
  unfold ios_libs in H. cbn [for_of] in H.
  apply bind_ok_inv in H as ([] & w1 & H & _).
  apply bind_ok_inv in H as (? & w2 & _ & H).
  eapply unstage_distinct; [|exact H].
  intros a Ha. apply staged_path; [exact Hd | now left |].
  rewrite Forall_forall in Hplain. now apply Hplain.
Qed.

Lemma iphonesimMerge_distinct dist archs w w' :
  dist <> "" ->
  Forall (fun a => Js.lacks "/" a = true) archs ->
  iphonesimMerge tools dist archs w = (Ok tt, w') ->
  NoDup archs.
Proof.
  intros Hd Hplain H. unfold iphonesimMerge in H.
  destruct (Nat.ltb 1 (List.length archs)) eqn:El; [|now apply short_list_distinct].
  cbn [when] in H. apply bind_ok_inv in H as (? & w0 & _ & H).
  unfold ios_libs in H. cbn [for_of] in H.
  apply bind_ok_inv in H as ([] & w1 & H & _).
  apply bind_ok_inv in H as (? & w2 & _ & H).
  eapply unstage_distinct; [|exact H].
  intros a Ha. apply staged_path; [exact Hd | now left |].
  rewrite Forall_forall in Hplain. now apply Hplain.
Qed.

(** X13.  An iOS build over plain architecture names that returns after
    building was given a list without repetition: when a name is listed
    twice, the second removal of its staged copy fails, whatever [lipo]
    did.  (The Android build, which stages nothing, has no such limit.) *)
Theorem ios_build_needs_distinct_archs (tarPath : string) (o : Options) (w w' : World) :
  clean o = true ->
  (forall A,
     iphoneosArchs o = Some A ->
     Forall (fun a => Js.lacks "/" a = true) (Js.split "," A) ->
     buildForIosIphoneos tools tarPath o w = (Ok tt, w') ->
     NoDup (Js.split "," A)) /\
  (forall A,
     iphonesimArchs o = Some A ->
     Forall (fun a => Js.lacks "/" a = true) (Js.split "," A) ->
     buildForIosIphonesim tools tarPath o w = (Ok tt, w') ->
     NoDup (Js.split "," A)).
Proof.
  intros Hclean. split; intros A HA Hplain H.
  - unfold buildForIosIphoneos in H. ok_chain H. ok_if H. ok_chain H.
    match goal with
    | S : iosPrepare _ _ _ _ _ = (Ok _, _) |- _ =>
        destruct (iosPrepare_clean _ _ _ _ _ Hclean S) as [x ->]
    end.
    apply withDir_ok_inv in H as (wa & wb & H & _).
    rewrite HA in H. cbn [Js.show_str] in H. cbv zeta in H.
    apply bind_ok_inv in H as (? & wv & _ & H).
    apply bind_ok_inv in H as (? & wc & _ & H).
    eapply iphoneosMerge_distinct; [|exact Hplain|exact H]. now destruct (distPath o).
  - unfold buildForIosIphonesim in H. ok_chain H. ok_if H. ok_chain H.
    match goal with
    | S : iosPrepare _ _ _ _ _ = (Ok _, _) |- _ =>
        destruct (iosPrepare_clean _ _ _ _ _ Hclean S) as [x ->]
    end.
    apply withDir_ok_inv in H as (wa & wb & H & _).
    rewrite HA in H. cbn [Js.show_str] in H. cbv zeta in H.
    apply bind_ok_inv in H as (? & wc & _ & H).
    eapply iphonesimMerge_distinct; [|exact Hplain|exact H]. now destruct (distPath o).
Qed.

End Duplicates.

Lemma ios_build_needs_distinct_archs_witness :
  NoDup (Js.split "," "arm64,x86_64").
Proof.
  destruct (@ios_build_needs_distinct_archs Sim.tools "/tmp/openssl-3.4.0.tar.gz"
              (Sim.options "arm64" "arm64" "arm64,x86_64") Sim.world_archive
              (snd (buildForIosIphonesim Sim.tools "/tmp/openssl-3.4.0.tar.gz"
                      (Sim.options "arm64" "arm64" "arm64,x86_64") Sim.world_archive))
              eq_refl) as [_ H].
  apply (H "arm64,x86_64");
    [reflexivity | vm_compute; repeat constructor | vm_compute; reflexivity].
Defined.

(* ================================================================== *)
(** ** The commands of a build, in order *)
(* ================================================================== *)

Lemma appends_weaken {A X} (f : World -> list X) (m : M A) L L' :
  L = L' -> appends f m L -> appends f m L'.
Proof. now intros ->. Qed.

Section Runs.

Variable tools : list string -> World -> cmd_result.

(** The copy of one library in a turn of an iOS loop. *)
Lemma ios_lib_copy_commands (src staged direct : string) (several : bool) (lib msg : string) :
  appends trace
    (present <- existsSync src ;;
     if present then
       log Debug msg ;;
       (if several then sh tools ["cp"; src; staged] else sh tools ["cp"; src; direct]) ;;
       ret tt
     else throw (JsError ("Library " +++ lib +++ " not found")))
    [["cp"; src; if several then staged else direct]].
Proof.
  apply appends_after; [preserves_tac|]. intros [|]; [|apply appends_throw].
  destruct several; repeat appends_step.
Qed.

Lemma iphoneosArch_commands o dist archs x arch :
  appends trace (iphoneosArch tools o dist archs x arch)
    (ios_turn_run "iphoneos" dist (Nat.ltb 1 (List.length archs)) arch).
Proof.
  unfold iphoneosArch, ios_turn_run, ios_config. cbv zeta.
  cbn [String.eqb Ascii.eqb Bool.eqb app].
  apply appends_after; [preserves_tac|]. intros _.
  apply appends_try_catch; [| intros; preserves_tac | apply rethrows_throw].
  do 8 appends_step.
  apply appends_bind.
  - rewrite <- concat_map_singleton. apply appends_for_of. intros lib.
    replace (staged_file dist lib arch) with ((dist +++ "/" +++ lib) +++ "." +++ arch)
      by (unfold staged_file; now rewrite JsFacts.append_assoc).
    apply ios_lib_copy_commands.
  - intros _. repeat appends_step.
Qed.

Lemma iphonesimArch_commands o dist archs arch :
  appends trace (iphonesimArch tools o dist archs arch)
    (ios_turn_run "iphonesim" dist (Nat.ltb 1 (List.length archs)) arch).
Proof.
  unfold iphonesimArch, ios_turn_run, ios_config. cbv zeta.
  cbn [String.eqb Ascii.eqb Bool.eqb app].
  apply appends_after; [preserves_tac|]. intros _.
  apply appends_try_catch; [| intros; preserves_tac | apply rethrows_throw].
  do 7 appends_step.
  apply appends_bind.
  - rewrite <- concat_map_singleton. apply appends_for_of. intros lib.
    replace (staged_file dist lib arch) with ((dist +++ "/" +++ lib) +++ "." +++ arch)
      by (unfold staged_file; now rewrite JsFacts.append_assoc).
    apply ios_lib_copy_commands.
  - intros _. repeat appends_step.
Qed.

(** The removal of the staged copies of one library. *)
Lemma unstage_commands (f : string -> string) (archs : list string) :
  appends trace (for_of archs (fun arch => sh tools ["rm"; f arch] ;; ret tt))
    (map (fun file => ["rm"; file]) (map f archs)).
Proof.
  rewrite map_map, <- concat_map_singleton. apply appends_for_of.
  intros arch. repeat appends_step.
Qed.

Lemma iphoneosMerge_commands dist archs :
  appends trace (iphoneosMerge tools dist archs)
    (if Nat.ltb 1 (List.length archs)
     then List.concat (map (merge_run (fun files => [Js.join " " files]) dist archs) ios_libs)
     else []).
Proof.
  unfold iphoneosMerge. destruct (Nat.ltb 1 (List.length archs)); cbn [when];
    [|apply appends_preserves, preserves_ret].
  apply appends_after; [preserves_tac|]. intros _.
  apply appends_for_of. intros lib. unfold merge_run, staged_files. cbn [app].
  apply appends_sh_bind. intros _. apply unstage_commands.
Qed.

Lemma iphonesimMerge_commands dist archs :
  appends trace (iphonesimMerge tools dist archs)
    (if Nat.ltb 1 (List.length archs)
     then List.concat (map (merge_run (fun files => files) dist archs) ios_libs)
     else []).
Proof.
  unfold iphonesimMerge. destruct (Nat.ltb 1 (List.length archs)); cbn [when];
    [|apply appends_preserves, preserves_ret].
  apply appends_after; [preserves_tac|]. intros _.
  apply appends_for_of. intros lib. unfold merge_run, staged_files.
  apply appends_sh_bind. intros _. apply unstage_commands.
Qed.

(** With [clean] on, the iOS preamble runs its five commands. *)
Lemma iosPrepare_commands platform tarPath o :
  clean o = true ->
  appends trace (iosPrepare tools platform tarPath o)
    [["xcode-select"; "-print-path"];
     ["mkdir"; "-p"; distPath o +++ "/" +++ platform];
     ["rm"; "-rf"; "/tmp/openssl_" +++ platform];
     ["mkdir"; "-p"; "/tmp/openssl_" +++ platform];
     ["tar"; "xf"; tarPath; "-C"; "/tmp/openssl_" +++ platform]].
Proof.
  intros Hclean w r w' H.
  destruct (iosPrepare_traces _ _ _ _ _ H) as (d & T & R & F).
  exists d. split; [exact T|]. split; [exact R|].
  intros a ->. destruct (F a eq_refl) as [[_ ->]|(_ & Hc & _)]; [reflexivity | congruence].
Qed.

Lemma buildForIosIphoneos_commands tarPath o A :
  clean o = true ->
  iphoneosArchs o = Some A ->
  appends trace (buildForIosIphoneos tools tarPath o)
    (ios_run "iphoneos" (fun files => [Js.join " " files]) tarPath o (Js.split "," A)).
Proof.
  intros Hclean HA. unfold buildForIosIphoneos, ios_run. rewrite HA. cbv zeta.
  apply appends_after; [preserves_tac|]. intros _.
  destruct (negb _); [apply appends_throw|].
  apply appends_bind_ok with (P := fun a : option string => exists x, a = Some x);
    [now apply iosPrepare_commands | intros w a w1 H; eapply iosPrepare_clean; eauto |].
  intros a [x ->]. apply appends_withDir; [reflexivity|]. cbn [Js.show_str].
  apply appends_after; [preserves_tac|]. intros v.
  apply appends_bind; [|intros _; apply iphoneosMerge_commands].
  apply appends_for_of. intros arch. apply iphoneosArch_commands.
Qed.

Lemma buildForIosIphonesim_commands tarPath o A :
  clean o = true ->
  iphonesimArchs o = Some A ->
  appends trace (buildForIosIphonesim tools tarPath o)
    (ios_run "iphonesim" (fun files => files) tarPath o (Js.split "," A)).
Proof.
  intros Hclean HA. unfold buildForIosIphonesim, ios_run. rewrite HA. cbv zeta.
  apply appends_after; [preserves_tac|]. intros _.
  destruct (negb _); [apply appends_throw|].
  apply appends_bind_ok with (P := fun a : option string => exists x, a = Some x);
    [now apply iosPrepare_commands | intros w a w1 H; eapply iosPrepare_clean; eauto |].
  intros a [x ->]. apply appends_withDir; [reflexivity|]. cbn [Js.show_str].
  apply appends_bind; [|intros _; apply iphonesimMerge_commands].
  apply appends_for_of. intros arch. apply iphonesimArch_commands.
Qed.

(** X14.  The commands of an iOS build, in order, for a list of any length
    (with [clean] on, as [main] has it): the Xcode query and the four
    commands that set up the directories and unpack the archive; for each
    architecture its turn; then, when there are several architectures, for
    each library one [lipo] and the removal of every staged copy.  A build
    that fails has run an initial part of that list.  The simulator build
    hands [lipo] the staged copies as one word each; the device build hands
    it a single word, their names joined by spaces. *)
Theorem ios_build_commands (tarPath : string) (o : Options) :
  clean o = true ->
  (forall A, iphoneosArchs o = Some A ->
     appends trace (buildForIosIphoneos tools tarPath o)
       (ios_run "iphoneos" (fun files => [Js.join " " files]) tarPath o (Js.split "," A))) /\
  (forall A, iphonesimArchs o = Some A ->
     appends trace (buildForIosIphonesim tools tarPath o)
       (ios_run "iphonesim" (fun files => files) tarPath o (Js.split "," A))).
Proof.
  intros Hclean. split; intros A HA.
  - now apply buildForIosIphoneos_commands.
  - now apply buildForIosIphonesim_commands.
Qed.

End Runs.

Lemma ios_build_commands_witness :
  trace (snd (buildForIosIphonesim Sim.tools "/tmp/openssl-3.4.0.tar.gz"
                (Sim.options "arm64" "arm64" "arm64,x86_64") Sim.world_archive)) =
  ios_run "iphonesim" (fun files => files) "/tmp/openssl-3.4.0.tar.gz"
    (Sim.options "arm64" "arm64" "arm64,x86_64") ["arm64"; "x86_64"].
Proof.
  pose (o := Sim.options "arm64" "arm64" "arm64,x86_64").
  pose (r := buildForIosIphonesim Sim.tools "/tmp/openssl-3.4.0.tar.gz" o Sim.world_archive).
  destruct (@ios_build_commands Sim.tools "/tmp/openssl-3.4.0.tar.gz" o eq_refl) as [_ H].
  assert (E : buildForIosIphonesim Sim.tools "/tmp/openssl-3.4.0.tar.gz" o
                Sim.world_archive = (Ok tt, snd r)) by (vm_compute; reflexivity).
  destruct (H "arm64,x86_64" eq_refl _ _ _ E) as (d & T & _ & F).
  fold o. fold r. rewrite T, (F tt eq_refl). reflexivity.
Defined.

Section AndroidRun.

Variable tools : list string -> World -> cmd_result.

Lemma android_lib_copy_commands (src dst lib msg : string) :
  appends trace
    (present <- existsSync src ;;
     if present then
       log Debug msg ;; sh tools ["cp"; "-a"; src; dst] ;; ret tt
     else throw (JsError ("Library " +++ lib +++ " not found")))
    [["cp"; "-a"; src; dst]].
Proof.
  apply appends_after; [preserves_tac|]. intros [|]; [|apply appends_throw].
  repeat appends_step.
Qed.

Lemma androidArch_commands o ndk bin dist arch :
  appends trace (androidArch tools o ndk bin dist arch) (android_turn_run dist arch).
Proof.
  unfold androidArch, android_turn_run. cbv zeta. cbn [app].
  apply appends_after; [preserves_tac|]. intros _.
  apply appends_try_catch; [| intros; preserves_tac | apply rethrows_throw].
  do 12 appends_step.
  apply appends_bind.
  - rewrite <- concat_map_singleton. apply appends_for_of. intros lib.
    apply android_lib_copy_commands.
  - intros _. repeat appends_step.
Qed.

Lemma buildForAndroid_commands (tarPath : string) (o : Options) (A : string)
  (w : World) :
  clean o = true ->
  androidArchs o = Some A ->
  forall r w',
    buildForAndroid tools tarPath o w = (r, w') ->
    let full := android_run (Js.show_str (env_get "ANDROID_NDK_HOME" (env w))) tarPath o
                  (Js.split "," A) in
    exists d, trace w' = trace w ++ d /\
      (exists rest, full = d ++ rest) /\
      (r = Ok tt -> d = full).
Proof.
  intros Hclean HA r w'. cbv zeta.
  unfold buildForAndroid. rewrite HA. unfold split_field.
  rewrite bind_run. unfold log at 1.
  set (w0 := add_log Info "Building OpenSSL for Android" w).
  assert (T0 : trace w0 = trace w ++ []) by (now rewrite app_nil_r).
  rewrite bind_run. unfold ret at 1. rewrite bind_run.
  destruct (for_of (Js.split "," A) _ w0) as [[[]|e|n] w1] eqn:Echeck;
    pose proof (android_check_world _ _ Echeck) as ->;
    [| stop_with T0 | stop_with T0].
  rewrite bind_run. unfold getenv at 1. change (env w0) with (env w).
  intros H.
  match type of H with
  | ?m w0 = _ =>
      assert (Ha : appends trace m
                (android_run (Js.show_str (env_get "ANDROID_NDK_HOME" (env w))) tarPath o
                   (Js.split "," A)))
  end.
  { unfold android_run. cbn [app]. appends_walk.
    apply appends_sh_bind. intros output. appends_walk.
    do 2 (apply appends_sh_bind; intros; appends_walk).
    apply appends_sh_bind. intros _. appends_walk.
    apply appends_bind with (L1 := [["tar"; "xf"; tarPath; "-C"; "/tmp/openssl_android"]]).
    { apply appends_try_catch; [| intros; preserves_tac | apply rethrows_throw].
      repeat appends_step. }
    intros _. appends_walk. apply appends_withDir; [reflexivity|].
    apply appends_for_of. intros arch. apply androidArch_commands. }
  destruct (Ha _ _ _ H) as (d & T & R & F). exists d.
  split; [exact T|]. split; [exact R|]. intros ->. now apply (F tt).
Qed.

(** X15.  The commands of an Android build, in order, for a list of any
    length (with [clean] on, as [main] has it): the listing of the NDK's
    [prebuilt] directory, the four commands that set up the directories and
    unpack the archive, then for each architecture its turn: removal of the
    install directory, configuration, three runs of [make], and the copies
    into the output directory.  A build that fails has run an initial part
    of that list. *)
Theorem android_build_commands (tarPath : string) (o : Options) (A : string)
  (w : World) :
  clean o = true ->
  androidArchs o = Some A ->
  forall r w',
    buildForAndroid tools tarPath o w = (r, w') ->
    let full := android_run (Js.show_str (env_get "ANDROID_NDK_HOME" (env w))) tarPath o
                  (Js.split "," A) in
    exists d, trace w' = trace w ++ d /\
      (exists rest, full = d ++ rest) /\
      (r = Ok tt -> d = full).
Proof. intros Hclean HA r w' H. eapply buildForAndroid_commands; eauto. Qed.

End AndroidRun.

Lemma android_build_commands_witness :
  trace (snd (buildForAndroid Sim.tools "/tmp/openssl-3.4.0.tar.gz"
                (Sim.options "arm64,x86" "" "") Sim.world_archive)) =
  android_run "/ndk" "/tmp/openssl-3.4.0.tar.gz" (Sim.options "arm64,x86" "" "")
    ["arm64"; "x86"].
Proof.
  pose (o := Sim.options "arm64,x86" "" "").
  pose (r := buildForAndroid Sim.tools "/tmp/openssl-3.4.0.tar.gz" o Sim.world_archive).
  assert (E : buildForAndroid Sim.tools "/tmp/openssl-3.4.0.tar.gz" o
                Sim.world_archive = (Ok tt, snd r)) by (vm_compute; reflexivity).
  destruct (@android_build_commands Sim.tools "/tmp/openssl-3.4.0.tar.gz" o "arm64,x86"
              Sim.world_archive eq_refl eq_refl _ _ E) as (d & T & _ & F).
  fold o. fold r. rewrite T, (F eq_refl). reflexivity.
Defined.

(* ================================================================== *)
(** ** What a turn of the Android loop leaves in the output directory *)
(* ================================================================== *)

Module DeliverFacts.
Import Fs FsFacts.

Lemma lookup_prefix_exists p q n m :
  lookup (p ++ q) n = Some m -> exists_at p n = true.
Proof.
  rewrite lookup_app. unfold exists_at. destruct (lookup p n); [reflexivity | discriminate].
Qed.

Lemma is_prefix_cancel p a b : is_prefix (p ++ a) (p ++ b) = is_prefix a b.
Proof. induction p as [|x p IH]; cbn; [reflexivity|]. now rewrite String.eqb_refl. Qed.

(** What is no initial part of [q] stays none when it is made longer. *)
Lemma is_prefix_longer p x q : is_prefix p q = false -> is_prefix (p ++ x) q = false.
Proof.
  intros H. destruct (is_prefix (p ++ x) q) eqn:E; [|reflexivity].
  apply is_prefix_spec in E as [r ->]. rewrite <- app_assoc, is_prefix_app in H.
  discriminate.
Qed.

Lemma write_cons x z t v es :
  write (x :: z :: t) v (Dir es) =
  match assoc x es with
  | Some c => match write (z :: t) v c with
              | Some c' => Some (Dir (assoc_set x c' es))
              | None => None
              end
  | None => None
  end.
Proof. reflexivity. Qed.

(** Writing at [t] removes nothing outside [t]. *)
Lemma write_keeps_exists t v : forall q n r,
  write t v n = Some r -> is_prefix t q = false ->
  exists_at q n = true -> exists_at q r = true.
Proof.
  induction t as [|x t IH]; intros q n r Hw Hp Hq; [discriminate|].
  destruct n as [c|es]; [discriminate|].
  destruct q as [|y q]; [reflexivity|].
  unfold exists_at in *. cbn [lookup] in Hq. cbn [is_prefix] in Hp.
  destruct t as [|z t].
  - cbn [write] in Hw. injection Hw as <-. cbn [lookup].
    destruct (String.eqb_spec x y) as [->|Hne]; [discriminate|].
    now rewrite assoc_set_other.
  - rewrite write_cons in Hw. destruct (assoc x es) as [c|] eqn:Ec; [|discriminate].
    destruct (write (z :: t) v c) as [c'|] eqn:Ew; [|discriminate].
    injection Hw as <-. cbn [lookup].
    destruct (String.eqb_spec x y) as [->|Hne].
    + rewrite assoc_set_same. rewrite Ec in Hq. cbn [andb] in Hp.
      exact (IH q c c' Ew Hp Hq).
    + now rewrite assoc_set_other.
Qed.

(** Removing [p] removes nothing outside [p]. *)
Lemma remove_keeps_exists p : forall q n,
  is_prefix p q = false -> exists_at q n = true -> exists_at q (remove p n) = true.
Proof.
  induction p as [|x p IH]; intros q n Hp Hq; [discriminate|].
  destruct n as [c|es]; [exact Hq|].
  destruct q as [|y q]; [reflexivity|].
  unfold exists_at in *. cbn [lookup] in Hq. cbn [is_prefix] in Hp.
  destruct p as [|z p].
  - cbn [remove lookup].
    destruct (String.eqb_spec x y) as [->|Hne]; [discriminate|].
    now rewrite assoc_del_other.
  - rewrite remove_cons by discriminate.
    destruct (assoc x es) as [c|] eqn:Ec; [|exact Hq].
    cbn [lookup].
    destruct (String.eqb_spec x y) as [->|Hne].
    + rewrite assoc_set_same. rewrite Ec in Hq. cbn [andb] in Hp.
      exact (IH q c Hp Hq).
    + now rewrite assoc_set_other.
Qed.

End DeliverFacts.

Section Deliver.

Variable tools : list string -> World -> cmd_result.

Import Fs FsFacts DeliverFacts.

(** What a successful [cp -a] leaves: the destination exists, and so does
    everything that existed outside the place written to. *)
Lemma sh_cp_a_keeps src dst w out w' :
  sh tools ["cp"; "-a"; src; dst] w = (Ok out, w') ->
  let s := path_of (cwd w) src in
  let d := path_of (cwd w) dst in
  let t := if dir_at d (fs w) then d ++ [List.last s ""] else d in
  cwd w' = cwd w /\
  exists_at d (fs w') = true /\
  (forall q, is_prefix t q = false -> exists_at q (fs w) = true ->
             exists_at q (fs w') = true).
Proof.
  intros H. cbv zeta. destruct (sh_ok_inv _ _ _ H) as (n & R & ->).
  rewrite run_cmd_cp_a in R.
  destruct (@run_cp_ok true src dst w out n R) as (v & v' & _ & _ & Hw & _).
  cbn [cwd fs set_fs add_trace]. split; [reflexivity|]. split.
  - apply write_lookup_same in Hw.
    destruct (dir_at _ (fs w)); [eapply lookup_prefix_exists; eauto|].
    unfold exists_at. now rewrite Hw.
  - intros q Hp Hq. eapply write_keeps_exists; eauto.
Qed.

(** The copy of one library in a turn of the Android loop. *)
Lemma android_lib_copy_ok (src dst lib msg : string) w w' :
  (present <- existsSync src ;;
   if present then
     log Debug msg ;; sh tools ["cp"; "-a"; src; dst] ;; ret tt
   else throw (JsError ("Library " +++ lib +++ " not found"))) w = (Ok tt, w') ->
  exists out, sh tools ["cp"; "-a"; src; dst] (add_log Debug msg w) = (Ok out, w').
Proof.
  intros H. apply bind_ok_inv in H as (present & w0 & He & H).
  unfold existsSync in He. injection He as <- <-.
  destruct (exists_at _ _); [|discriminate].
  apply bind_ok_inv in H as (? & w1 & Hl & H). unfold log in Hl. injection Hl as _ <-.
  apply bind_ok_inv in H as (out & w2 & Hc & H). unfold ret in H. injection H as <-.
  now exists out.
Qed.

End Deliver.

Section DeliverTurn.

Variable tools : list string -> World -> cmd_result.

Import Fs FsFacts DeliverFacts.

(** The loop that copies the libraries: it keeps what lies outside the
    places it writes to, and when it completes every library is there. *)
Lemma android_libs_copied (install archDist : string) (Q : path) (libs : list string) :
  forall w w',
    (forall lib, In lib libs ->
       path_of (cwd w) (archDist +++ "/" +++ lib) = Q ++ [lib] /\
       exists P, path_of (cwd w) (install +++ "/lib/" +++ lib) = P ++ [lib]) ->
    for_of libs (fun lib =>
      present <- existsSync (install +++ "/lib/" +++ lib) ;;
      if present then
        log Debug ("Copying " +++ (install +++ "/lib/" +++ lib) +++ " to "
                   +++ archDist +++ "/" +++ lib) ;;
        sh tools ["cp"; "-a"; install +++ "/lib/" +++ lib; archDist +++ "/" +++ lib] ;;
        ret tt
      else throw (JsError ("Library " +++ lib +++ " not found"))) w = (Ok tt, w') ->
    cwd w' = cwd w /\
    (forall q, (forall lib, In lib libs -> is_prefix (Q ++ [lib]) q = false) ->
               exists_at q (fs w) = true -> exists_at q (fs w') = true) /\
    (NoDup libs -> forall lib, In lib libs -> exists_at (Q ++ [lib]) (fs w') = true).
Proof.
  induction libs as [|l libs IH]; intros w w' Hpaths H; cbn [for_of] in H.
  - unfold ret in H. injection H as <-. repeat split; auto.
  - apply bind_ok_inv in H as ([] & w1 & Hcopy & H).
    apply android_lib_copy_ok in Hcopy as (out & Hcp).
    destruct (@sh_cp_a_keeps tools _ _ _ _ _ Hcp) as (Hcwd & Hex & Hkeep).
    cbn [cwd fs add_log] in Hcwd, Hex, Hkeep.
    destruct (Hpaths l (or_introl eq_refl)) as (Hdst & P & Hsrc).
    rewrite Hdst in Hex, Hkeep. rewrite Hsrc, HeaderFacts.last_snoc in Hkeep.
    assert (Hpaths1 : forall lib, In lib libs ->
              path_of (cwd w1) (archDist +++ "/" +++ lib) = Q ++ [lib] /\
              exists P, path_of (cwd w1) (install +++ "/lib/" +++ lib) = P ++ [lib])
      by (intros lib Hin; rewrite Hcwd; apply Hpaths; now right).
    destruct (IH _ _ Hpaths1 H) as (Hcwd' & Hkeep' & Hall).
    assert (Hwritten : forall q, is_prefix (Q ++ [l]) q = false ->
              is_prefix (if dir_at (Q ++ [l]) (fs w) then (Q ++ [l]) ++ [l] else Q ++ [l]) q
              = false)
      by (intros q Hq; destruct (dir_at _ _); [now apply is_prefix_longer | exact Hq]).
    split; [congruence|]. split.
    + intros q Hq Hin. apply Hkeep'; [intros lib Hl; apply Hq; now right|].
      apply Hkeep; [|exact Hin]. apply Hwritten, Hq. now left.
    + intros Hnd lib [<-|Hin].
      * apply Hkeep'; [|exact Hex].
        intros lib Hl. apply HeaderFacts.sibling_not_prefix.
        apply String.eqb_neq. intros ->. inversion Hnd; subst. contradiction.
      * inversion Hnd; subst. now apply Hall.
Qed.

(** What exists below [p] shows that [p] is a directory. *)
Lemma exists_below_dir p x q n :
  exists_at (p ++ x :: q) n = true -> dir_at p n = true.
Proof.
  unfold exists_at. destruct (lookup (p ++ x :: q) n) eqn:E; [|discriminate].
  intros _. eapply dir_at_above; eauto.
Qed.

(** X16.  A turn of the Android loop that completes for a valid
    architecture has put each of the four libraries, static and shared, in
    the directory of that architecture inside the output directory. *)
Theorem android_turn_delivers_libraries (o : Options) (ndk bin dist arch : string)
  (w w' : World) :
  dist <> "" ->
  Js.includes arch android_valid_archs = true ->
  androidArch tools o ndk bin dist arch w = (Ok tt, w') ->
  forall lib, In lib android_libs ->
    exists_at (path_of (cwd w') ((dist +++ "/" +++ arch) +++ "/" +++ lib)) (fs w') = true.
Proof.
  intros Hd Hvalid H. destruct (android_arch_plain _ Hvalid) as [Hplain Hkept].
  assert (Hinc : String.eqb "include" arch = false).
  { revert Hvalid. unfold Js.includes, android_valid_archs. cbn [existsb].
    rewrite !orb_true_iff, !String.eqb_eq.
    intros [->|[->|[->|[->|Hf]]]]; try reflexivity. discriminate. }
  unfold androidArch in H.
  apply bind_ok_inv in H as (? & w0 & _ & H).
  apply try_catch_ok_inv in H; [|apply rethrows_throw]. cbv zeta in H.
  do 12 (apply bind_ok_inv in H as (? & ? & _ & H)).
  apply bind_ok_inv in H as ([] & wl & Hlibs & H).
  apply bind_ok_inv in H as (? & wr & Hrm & H).
  apply bind_ok_inv in H as (? & wc & Hcp & H).
  unfold ret in H. injection H as ->.
  match type of Hlibs with for_of _ _ ?v = _ => set (c := cwd v) in * end.
  set (D := path_of c dist).
  assert (HarchDist : forall c0, path_of c0 (dist +++ "/" +++ arch) = path_of c0 dist ++ [arch])
    by (intros c0; apply path_of_child_app; assumption).
  assert (Hlibname : forall lib, In lib android_libs ->
            Js.lacks "/" lib = true /\ kept lib = true)
    by (intros lib [<-|[<-|[<-|[<-|[]]]]]; now split).
  assert (Hq : forall c0 lib, In lib android_libs ->
            path_of c0 ((dist +++ "/" +++ arch) +++ "/" +++ lib)
            = (path_of c0 dist ++ [arch]) ++ [lib]).
  { intros c0 lib Hin. destruct (Hlibname lib Hin) as [Hl Hk].
    rewrite <- HarchDist. apply path_of_child_app; [now destruct dist | exact Hl | exact Hk]. }
  apply android_libs_copied with (Q := D ++ [arch]) in Hlibs.
  2:{ intros lib Hin. destruct (Hlibname lib Hin) as [Hl Hk]. split; [now apply Hq|].
      exists (path_of c (("/tmp/openssl-android-" +++ arch) +++ "/lib")).
      replace (("/tmp/openssl-android-" +++ arch) +++ "/lib/" +++ lib)
        with ((("/tmp/openssl-android-" +++ arch) +++ "/lib") +++ "/" +++ lib)
        by (now rewrite JsFacts.append_assoc).
      apply path_of_child_app; [discriminate | exact Hl | exact Hk]. }
  destruct Hlibs as (Hcwd1 & _ & Hall).
  assert (Hnd : NoDup android_libs).
  { unfold android_libs. repeat constructor; cbn; intuition discriminate. }
  specialize (Hall Hnd).
  assert (Hout : forall lib, In lib android_libs ->
            is_prefix (D ++ ["include"]) ((D ++ [arch]) ++ [lib]) = false).
  { intros lib _. rewrite <- app_assoc, is_prefix_cancel. cbn [app is_prefix].
    now rewrite Hinc. }
  (* the removal of the old headers *)
  destruct (sh_ok_inv _ _ _ Hrm) as (n & R & ->). rewrite run_cmd_rm_rf in R.
  unfold run_rm_rf in R. fold c in Hcwd1. rewrite Hcwd1 in R.
  rewrite (@path_of_child c dist "include") in R
    by (first [assumption | reflexivity]).
  fold D in R.
  destruct (D ++ ["include"]) as [|t0 T] eqn:ET; [now destruct D|].
  rewrite <- ET in *. injection R as _ <-.
  (* the copy of the new ones *)
  destruct (@sh_cp_a_keeps tools _ _ _ _ _ Hcp) as (Hcwd2 & _ & Hkeep).
  cbn [cwd fs set_fs add_trace] in Hcwd2, Hkeep. rewrite Hcwd1 in Hcwd2, Hkeep.
  fold D in Hkeep.
  rewrite (@path_of_child c ("/tmp/openssl-android-" +++ arch) "include") in Hkeep
    by (first [discriminate | reflexivity]).
  rewrite HeaderFacts.last_snoc in Hkeep.
  intros lib Hin. rewrite Hcwd2, (Hq c lib Hin). fold D.
  assert (Hthere : exists_at ((D ++ [arch]) ++ [lib])
                     (remove (D ++ ["include"]) (fs wl)) = true)
    by (apply remove_keeps_exists; [now apply Hout | now apply Hall]).
  apply Hkeep; [|exact Hthere].
  rewrite <- app_assoc in Hthere. rewrite (exists_below_dir _ _ _ _ Hthere).
  now apply Hout.
Qed.

End DeliverTurn.

Lemma android_turn_delivers_libraries_witness :
  let w := set_cwd "/tmp/openssl_android/openssl-3.4.0"
             (snd (buildForAndroid Sim.tools "/tmp/openssl-3.4.0.tar.gz"
                     (Sim.options "arm64" "" "") Sim.world_archive)) in
  let w' := snd (androidArch Sim.tools (Sim.options "x86" "" "") "/ndk"
                   "/ndk/toolchains/llvm/prebuilt/darwin-x86_64/bin"
                   "/home/u/dist/android" "x86" w) in
  Fs.exists_at ["home"; "u"; "dist"; "android"; "x86"; "libcrypto.so"] (fs w') = true.
Proof.
  cbv zeta.
  set (w := set_cwd "/tmp/openssl_android/openssl-3.4.0"
              (snd (buildForAndroid Sim.tools "/tmp/openssl-3.4.0.tar.gz"
                      (Sim.options "arm64" "" "") Sim.world_archive))).
  set (w' := snd (androidArch Sim.tools (Sim.options "x86" "" "") "/ndk"
                    "/ndk/toolchains/llvm/prebuilt/darwin-x86_64/bin"
                    "/home/u/dist/android" "x86" w)).
  assert (E : androidArch Sim.tools (Sim.options "x86" "" "") "/ndk"
                "/ndk/toolchains/llvm/prebuilt/darwin-x86_64/bin"
                "/home/u/dist/android" "x86" w = (Ok tt, w')) by (vm_compute; reflexivity).
  assert (Ec : Fs.path_of (cwd w') (("/home/u/dist/android" +++ "/" +++ "x86")
                                     +++ "/" +++ "libcrypto.so")
               = ["home"; "u"; "dist"; "android"; "x86"; "libcrypto.so"]) by reflexivity.
  rewrite <- Ec.
  apply (@android_turn_delivers_libraries Sim.tools (Sim.options "x86" "" "") "/ndk"
           "/ndk/toolchains/llvm/prebuilt/darwin-x86_64/bin" "/home/u/dist/android" "x86"
           w w'); [discriminate | reflexivity | exact E | cbn; auto].
Defined.

(* ================================================================== *)
(** ** The environment outside the Android build *)
(* ================================================================== *)

Section EnvFacts.

Variable tools : list string -> World -> cmd_result.
Variable net : string -> World -> option string.
Variable json_stringify : Options -> string.

Lemma mainSetup_env opts : preserves env (mainSetup tools net json_stringify opts).
Proof. unfold mainSetup, createOptions, downloadOpenssl. preserves_tac. Qed.

(** X17.  Nothing but the Android build assigns to the environment: the
    setup of [main], the download and the two iOS builds leave it as it
    was, whatever their outcome.  What the Android build has put in [PATH]
    is therefore still there when the iOS builds of the same run start. *)
Theorem only_android_assigns_environment (tarPath : string) (o : Options) (opts : Input)
  (v : string) (shouldClean : bool) :
  preserves env (mainSetup tools net json_stringify opts) /\
  preserves env (downloadOpenssl tools net v shouldClean) /\
  preserves env (buildForIosIphoneos tools tarPath o) /\
  preserves env (buildForIosIphonesim tools tarPath o).
Proof.
  split; [apply mainSetup_env|]. split; [|split].
  - unfold downloadOpenssl. preserves_tac.
  - unfold buildForIosIphoneos, iosPrepare, withDir, iphoneosArch, iphoneosMerge, ios_libs.
    preserves_tac.
  - unfold buildForIosIphonesim, iosPrepare, withDir, iphonesimArch, iphonesimMerge, ios_libs.
    preserves_tac.
Qed.

End EnvFacts.

Lemma only_android_assigns_environment_witness :
  env (snd (buildForIosIphonesim Sim.tools "/tmp/openssl-3.4.0.tar.gz"
              (Sim.options "arm64" "arm64" "arm64,x86_64") Sim.world_archive))
  = env Sim.world_archive.
Proof.
  pose (o := Sim.options "arm64" "arm64" "arm64,x86_64").
  pose (r := buildForIosIphonesim Sim.tools "/tmp/openssl-3.4.0.tar.gz" o Sim.world_archive).
  destruct (@only_android_assigns_environment Sim.tools Sim.net Sim.json
              "/tmp/openssl-3.4.0.tar.gz" o Sim.defaults "3.4.0" true) as (_ & _ & _ & H).
  assert (E : buildForIosIphonesim Sim.tools "/tmp/openssl-3.4.0.tar.gz" o
                Sim.world_archive = (Ok tt, snd r)) by (vm_compute; reflexivity).
  exact (H _ _ _ E).
Defined.

(* ================================================================== *)
(** ** The commands of a whole run *)
(* ================================================================== *)

(** A run in two parts: the commands of the first, then those of the
    second. *)
Lemma run_in_two {A B} (m : M A) (k : A -> M B) (w : World) (L1 L2 : list (list string))
  (P : A -> World -> Prop) :
  (forall r w1, m w = (r, w1) ->
     exists d, trace w1 = trace w ++ d /\ (exists rest, L1 = d ++ rest) /\
               (forall a, r = Ok a -> d = L1 /\ P a w1)) ->
  (forall a w1 r w', P a w1 -> k a w1 = (r, w') ->
     exists d, trace w' = trace w1 ++ d /\ (exists rest, L2 = d ++ rest) /\
               (forall b, r = Ok b -> d = L2)) ->
  forall r w', bind m k w = (r, w') ->
    exists d, trace w' = trace w ++ d /\ (exists rest, L1 ++ L2 = d ++ rest) /\
              (forall b, r = Ok b -> d = L1 ++ L2).
Proof.
  intros Hm Hk r w'. rewrite bind_run.
  destruct (m w) as [[a|e|n] w1] eqn:E; intros H.
  - destruct (Hm _ _ eq_refl) as (d1 & T1 & _ & F1).
    destruct (F1 a eq_refl) as [-> HP].
    destruct (Hk _ _ _ _ HP H) as (d2 & T2 & (rest & R2) & F2).
    exists (L1 ++ d2). rewrite T2, T1, app_assoc. split; [reflexivity|]. split.
    + exists rest. now rewrite R2, app_assoc.
    + intros b Hb. now rewrite (F2 b Hb).
  - injection H as <- <-. destruct (Hm _ _ eq_refl) as (d1 & T1 & (rest & R1) & _).
    exists d1. split; [assumption|]. split; [|discriminate].
    exists (rest ++ L2). now rewrite R1, app_assoc.
  - injection H as <- <-. destruct (Hm _ _ eq_refl) as (d1 & T1 & (rest & R1) & _).
    exists d1. split; [assumption|]. split; [|discriminate].
    exists (rest ++ L2). now rewrite R1, app_assoc.
Qed.

Section WholeRun.

Variable tools : list string -> World -> cmd_result.
Variable net : string -> World -> option string.
Variable json_stringify : Options -> string.

(** X18.  The commands of a whole run with target [all], in order: those of
    the setup, of the Android build, of the device build and of the
    simulator build, nothing in between and nothing after.  A run that
    fails has run an initial part of that list; a run that returns has run
    all of it. *)
Theorem all_commands_in_order (opts : Input) (w : World) (o : Options)
  (A1 A2 A3 : string) :
  Js.truthy_bool (in_help opts) = false ->
  createOptions opts w = (Ok o, w) ->
  target o = Some "all" ->
  androidArchs o = Some A1 -> iphoneosArchs o = Some A2 -> iphonesimArchs o = Some A3 ->
  forall r w',
    main tools net json_stringify opts w = (r, w') ->
    let full := all_run (Js.show_str (env_get "ANDROID_NDK_HOME" (env w))) o
                  (Js.split "," A1) (Js.split "," A2) (Js.split "," A3) in
    exists d, trace w' = trace w ++ d /\
      (exists rest, full = d ++ rest) /\
      (r = Ok tt -> d = full).
Proof.
  intros Hhelp Hc Htarget HA1 HA2 HA3 r w' H. cbv zeta.
  destruct (createOptions_ok_inv _ _ Hc) as (_ & Hclean & _).
  unfold main in H. rewrite Hhelp in H.
  assert (Hrun : exists d, trace w' = trace w ++ d /\
            (exists rest,
               setup_commands o ++
               (android_run (Js.show_str (env_get "ANDROID_NDK_HOME" (env w)))
                  (archive_of (opensslVersion o)) o (Js.split "," A1) ++
                (ios_run "iphoneos" (fun files => [Js.join " " files])
                   (archive_of (opensslVersion o)) o (Js.split "," A2) ++
                 ios_run "iphonesim" (fun files => files)
                   (archive_of (opensslVersion o)) o (Js.split "," A3)))
               = d ++ rest) /\
            (forall b, r = Ok b ->
               d = setup_commands o ++
                   (android_run (Js.show_str (env_get "ANDROID_NDK_HOME" (env w)))
                      (archive_of (opensslVersion o)) o (Js.split "," A1) ++
                    (ios_run "iphoneos" (fun files => [Js.join " " files])
                       (archive_of (opensslVersion o)) o (Js.split "," A2) ++
                     ios_run "iphonesim" (fun files => files)
                       (archive_of (opensslVersion o)) o (Js.split "," A3))))).
  { revert r w' H.
    apply run_in_two with
      (P := fun (s : Options * string) (w1 : World) =>
              s = (o, archive_of (opensslVersion o)) /\ env w1 = env w).
    - intros r w1 Hs.
      destruct (@mainSetup_commands tools net json_stringify opts w o w r w1 Hc Hs)
        as (d & T & R & F).
      exists d. split; [exact T|]. split; [exact R|]. intros s ->.
      destruct (F s eq_refl) as [-> ->]. repeat split.
      exact (mainSetup_env tools net json_stringify opts _ Hs).
    - intros s w1 r w' [-> Henv]. cbn [fst snd]. unfold mainBuilds, target_is.
      rewrite Htarget. cbn [String.eqb Ascii.eqb Bool.eqb orb when].
      apply run_in_two with (P := fun (_ : unit) (_ : World) => True).
      + intros r2 w2 Hb.
        destruct (@buildForAndroid_commands tools (archive_of (opensslVersion o)) o A1 w1
                    Hclean HA1 r2 w2 Hb) as (d & T & R & F).
        rewrite Henv in R, F. exists d. split; [exact T|]. split; [exact R|].
        intros [] ->. split; [now apply F | exact I].
      + intros _ w2 r3 w3 _.
        pose proof (@buildForIosIphoneos_commands tools (archive_of (opensslVersion o))
                      o A2 Hclean HA2) as Hdev.
        pose proof (@buildForIosIphonesim_commands tools (archive_of (opensslVersion o))
                      o A3 Hclean HA3) as Hsim.
        assert (Ha : appends trace
                  (buildForIosIphoneos tools (archive_of (opensslVersion o)) o;;
                   buildForIosIphonesim tools (archive_of (opensslVersion o)) o;;
                   log Info "Build completed successfully!")
                  (ios_run "iphoneos" (fun files => [Js.join " " files])
                     (archive_of (opensslVersion o)) o (Js.split "," A2) ++
                   ios_run "iphonesim" (fun files => files)
                     (archive_of (opensslVersion o)) o (Js.split "," A3))).
        { apply appends_bind; [exact Hdev|]. intros _.
          apply appends_before; [exact Hsim | intros; preserves_tac]. }
        exact (Ha w2 r3 w3). }
  destruct Hrun as (d & T & R & F). exists d. split; [exact T|].
  split; [exact R|]. intros ->. now apply (F tt).
Qed.

End WholeRun.

Lemma all_commands_in_order_witness :
  trace (snd (main Sim.tools Sim.net Sim.json (Sim.opts "all" "arm64" "arm64" "arm64,x86_64")
                Sim.world0)) =
  all_run "/ndk" (Sim.options "arm64" "arm64" "arm64,x86_64")
    ["arm64"] ["arm64"] ["arm64"; "x86_64"].
Proof.
  pose (opts := Sim.opts "all" "arm64" "arm64" "arm64,x86_64").
  pose (o := Sim.options "arm64" "arm64" "arm64,x86_64").
  pose (r := main Sim.tools Sim.net Sim.json opts Sim.world0).
  assert (E : main Sim.tools Sim.net Sim.json opts Sim.world0 = (Ok tt, snd r))
    by (vm_compute; reflexivity).
  destruct (@all_commands_in_order Sim.tools Sim.net Sim.json opts Sim.world0 o
              "arm64" "arm64" "arm64,x86_64" eq_refl eq_refl eq_refl eq_refl eq_refl eq_refl
              _ _ E) as (d & T & _ & F).
  fold opts. fold r. rewrite T, (F eq_refl). reflexivity.
Defined.

(* ================================================================== *)
(** ** What a turn of an iOS loop leaves in the output directory *)
(* ================================================================== *)

Section DeliverIos.

Variable tools : list string -> World -> cmd_result.

Import Fs FsFacts DeliverFacts.

(** A loop of steps that each deliver one thing, in a fixed directory [c]:
    it keeps what lies outside the places it writes to, and when it
    completes everything is there. *)
Lemma copies_delivered (c : string) (step : string -> M unit) (dst : string -> path)
  (libs : list string) :
  forall w w',
    (forall lib v v', In lib libs -> cwd v = c -> step lib v = (Ok tt, v') ->
       cwd v' = c /\ exists_at (dst lib) (fs v') = true /\
       (forall q, is_prefix (dst lib) q = false -> exists_at q (fs v) = true ->
                  exists_at q (fs v') = true)) ->
    cwd w = c ->
    for_of libs step w = (Ok tt, w') ->
    cwd w' = c /\
    (forall q, (forall lib, In lib libs -> is_prefix (dst lib) q = false) ->
               exists_at q (fs w) = true -> exists_at q (fs w') = true) /\
    ((forall a b, In a libs -> In b libs -> a <> b -> is_prefix (dst a) (dst b) = false) ->
     NoDup libs -> forall lib, In lib libs -> exists_at (dst lib) (fs w') = true).
Proof.
  induction libs as [|l libs IH]; intros w w' Hstep Hc H; cbn [for_of] in H.
  - unfold ret in H. injection H as <-. repeat split; auto.
  - apply bind_ok_inv in H as ([] & w1 & H1 & H).
    destruct (Hstep l w w1 (or_introl eq_refl) Hc H1) as (Hc1 & Hex & Hkeep).
    assert (Hstep' : forall lib v v', In lib libs -> cwd v = c -> step lib v = (Ok tt, v') ->
              cwd v' = c /\ exists_at (dst lib) (fs v') = true /\
              (forall q, is_prefix (dst lib) q = false -> exists_at q (fs v) = true ->
                         exists_at q (fs v') = true))
      by (intros lib v v' Hin; apply Hstep; now right).
    destruct (IH _ _ Hstep' Hc1 H) as (Hc' & Hkeep' & Hall).
    split; [exact Hc'|]. split.
    + intros q Hq Hin. apply Hkeep'; [intros lib Hl; apply Hq; now right|].
      apply Hkeep; [apply Hq; now left | exact Hin].
    + intros Hapart Hnd lib [<-|Hin].
      * apply Hkeep'; [|exact Hex].
        intros lib Hl. apply Hapart; [now right | now left |].
        intros ->. inversion Hnd; subst. contradiction.
      * inversion Hnd; subst. apply Hall; auto.
        intros a b Ha Hb. apply Hapart; now right.
Qed.

(** What a successful [cp] leaves. *)
Lemma sh_cp_keeps src dst w out w' :
  sh tools ["cp"; src; dst] w = (Ok out, w') ->
  cwd w' = cwd w /\
  exists_at (path_of (cwd w) dst) (fs w') = true /\
  (forall q, is_prefix (path_of (cwd w) dst) q = false -> exists_at q (fs w) = true ->
             exists_at q (fs w') = true).
Proof.
  intros H. destruct (sh_ok_inv _ _ _ H) as (n & R & ->).
  rewrite run_cmd_cp in R.
  destruct (@run_cp_ok false src dst w out n R) as (v & v' & _ & _ & Hw & _).
  cbn [cwd fs set_fs add_trace]. split; [reflexivity|]. split.
  - apply write_lookup_same in Hw.
    destruct (dir_at _ (fs w)); [eapply lookup_prefix_exists; eauto|].
    unfold exists_at. now rewrite Hw.
  - intros q Hp Hq. eapply write_keeps_exists; eauto.
    destruct (dir_at _ (fs w)); [now apply is_prefix_longer | exact Hp].
Qed.

(** The copy of one library in a turn of an iOS loop. *)
Lemma ios_lib_copy_ok (src staged direct : string) (several : bool) (lib msg : string) w w' :
  (present <- existsSync src ;;
   if present then
     log Debug msg ;;
     (if several then sh tools ["cp"; src; staged] else sh tools ["cp"; src; direct]) ;;
     ret tt
   else throw (JsError ("Library " +++ lib +++ " not found"))) w = (Ok tt, w') ->
  exists out,
    sh tools ["cp"; src; if several then staged else direct] (add_log Debug msg w)
    = (Ok out, w').
Proof.
  intros H. apply bind_ok_inv in H as (present & w0 & He & H).
  unfold existsSync in He. injection He as <- <-.
  destruct (exists_at _ _); [|discriminate].
  apply bind_ok_inv in H as (? & w1 & Hl & H). unfold log in Hl. injection Hl as _ <-.
  apply bind_ok_inv in H as (out & w2 & Hc & H). unfold ret in H. injection H as <-.
  exists out. now destruct several.
Qed.

(** The name a turn gives to its copy of a library. *)
Lemma ios_copy_path c dist lib arch (several : bool) :
  dist <> "" -> Js.lacks "/" arch = true -> In lib ios_libs ->
  path_of c (if several then (dist +++ "/" +++ lib) +++ "." +++ arch else dist +++ "/" +++ lib)
  = path_of c dist ++ [if several then lib +++ "." +++ arch else lib].
Proof.
  intros Hd Hplain Hlib. destruct several.
  - rewrite JsFacts.append_assoc.
    apply (@path_of_child_app c dist (lib +++ "." +++ arch)); [exact Hd | |];
      destruct Hlib as [<-|[<-|[]]]; first [exact Hplain | reflexivity].
  - apply path_of_child_app; [exact Hd | |]; destruct Hlib as [<-|[<-|[]]]; reflexivity.
Qed.

(** The end of a turn, shared by the two iOS loops: the two libraries are
    copied, the old headers removed, the new ones copied. *)
Lemma ios_turn_end (install dist arch : string) (several : bool)
  (msg : string -> string) wl0 wl wr w' out1 out2 :
  dist <> "" -> install <> "" -> Js.lacks "/" arch = true ->
  for_of ios_libs (fun lib =>
    present <- existsSync (install +++ "/lib/" +++ lib) ;;
    if present then
      log Debug (msg lib) ;;
      (if several then
         sh tools ["cp"; install +++ "/lib/" +++ lib; (dist +++ "/" +++ lib) +++ "." +++ arch]
       else sh tools ["cp"; install +++ "/lib/" +++ lib; dist +++ "/" +++ lib]) ;;
      ret tt
    else throw (JsError ("Library " +++ lib +++ " not found"))) wl0 = (Ok tt, wl) ->
  sh tools ["rm"; "-rf"; dist +++ "/include"] wl = (Ok out1, wr) ->
  sh tools ["cp"; "-a"; install +++ "/include"; dist] wr = (Ok out2, w') ->
  forall lib, In lib ios_libs ->
    exists_at (path_of (cwd w')
                 (if several then staged_file dist lib arch else dist +++ "/" +++ lib))
      (fs w') = true.
Proof.
  intros Hd Hi Hplain Hlibs Hrm Hcp.
  set (c := cwd wl0). set (D := path_of c dist).
  set (name := fun lib : string => if several then lib +++ "." +++ arch else lib).
  apply (@copies_delivered c _ (fun lib => D ++ [name lib])) in Hlibs; [| |reflexivity].
  2:{ intros lib v v' Hin Hv Hstep. apply ios_lib_copy_ok in Hstep as (out & Hstep).
      destruct (@sh_cp_keeps _ _ _ _ _ Hstep) as (Hc & Hex & Hkeep).
      cbn [cwd fs add_log] in Hc, Hex, Hkeep. rewrite Hv in Hc, Hex, Hkeep.
      rewrite (@ios_copy_path c dist lib arch several Hd Hplain Hin) in Hex, Hkeep.
      unfold name, D. now destruct several. }
  destruct Hlibs as (Hcwd1 & _ & Hall).
  assert (Hthere : forall lib, In lib ios_libs -> exists_at (D ++ [name lib]) (fs wl) = true).
  { apply Hall.
    - intros a b Ha Hb Hne. apply HeaderFacts.sibling_not_prefix. unfold name.
      destruct Ha as [<-|[<-|[]]], Hb as [<-|[<-|[]]]; try congruence;
        now destruct several.
    - unfold ios_libs. repeat constructor; cbn; intuition discriminate. }
  assert (Hout : forall lib, In lib ios_libs ->
            is_prefix (D ++ ["include"]) (D ++ [name lib]) = false).
  { intros lib Hin. apply HeaderFacts.sibling_not_prefix. unfold name.
    destruct Hin as [<-|[<-|[]]]; now destruct several. }
  destruct (sh_ok_inv _ _ _ Hrm) as (n & R & ->). rewrite run_cmd_rm_rf in R.
  unfold run_rm_rf in R. rewrite Hcwd1 in R.
  rewrite (@path_of_child c dist "include") in R by (first [assumption | reflexivity]).
  fold D in R.
  destruct (D ++ ["include"]) as [|t0 T] eqn:ET; [now destruct D|].
  rewrite <- ET in *. injection R as _ <-.
  destruct (@sh_cp_a_keeps tools _ _ _ _ _ Hcp) as (Hcwd2 & _ & Hkeep).
  cbn [cwd fs set_fs add_trace] in Hcwd2, Hkeep. rewrite Hcwd1 in Hcwd2, Hkeep.
  fold D in Hkeep.
  rewrite (@path_of_child c install "include") in Hkeep
    by (first [assumption | reflexivity]).
  rewrite HeaderFacts.last_snoc in Hkeep.
  intros lib Hin. rewrite Hcwd2.
  replace (if several then staged_file dist lib arch else dist +++ "/" +++ lib)
    with (if several then (dist +++ "/" +++ lib) +++ "." +++ arch else dist +++ "/" +++ lib)
    by (unfold staged_file; now rewrite JsFacts.append_assoc).
  rewrite (@ios_copy_path c dist lib arch several Hd Hplain Hin). fold D. fold (name lib).
  assert (Hkept : exists_at (D ++ [name lib]) (remove (D ++ ["include"]) (fs wl)) = true)
    by (apply remove_keeps_exists; [now apply Hout | now apply Hthere]).
  apply Hkeep; [|exact Hkept].
  rewrite (exists_below_dir _ _ _ _ Hkept). now apply Hout.
Qed.

(** X19.  A turn of an iOS loop that completes has put both libraries in the
    output directory: under their own names when the list has a single
    architecture, under their staged names, which end in the architecture,
    when it has several. *)
Theorem ios_turn_delivers_libraries (o : Options) (dist : string) (archs : list string)
  (x : nat) (arch : string) (w w' : World) :
  dist <> "" ->
  Js.lacks "/" arch = true ->
  iphoneosArch tools o dist archs x arch w = (Ok tt, w') \/
  iphonesimArch tools o dist archs arch w = (Ok tt, w') ->
  forall lib, In lib ios_libs ->
    exists_at (path_of (cwd w')
                 (if Nat.ltb 1 (List.length archs) then staged_file dist lib arch
                  else dist +++ "/" +++ lib))
      (fs w') = true.
Proof.
  intros Hd Hplain [H|H].
  - unfold iphoneosArch in H.
    apply bind_ok_inv in H as (? & w0 & _ & H).
    apply try_catch_ok_inv in H; [|apply rethrows_throw]. cbv zeta in H.
    do 8 (apply bind_ok_inv in H as (? & ? & _ & H)).
    apply bind_ok_inv in H as ([] & wl & Hlibs & H).
    apply bind_ok_inv in H as (? & wr & Hrm & H).
    apply bind_ok_inv in H as (? & wc & Hcp & H).
    unfold ret in H. injection H as ->.
    eapply ios_turn_end with (install := "/tmp/openssl-iphoneos-" +++ arch);
      [exact Hd | discriminate | exact Hplain | exact Hlibs | exact Hrm | exact Hcp].
  - unfold iphonesimArch in H.
    apply bind_ok_inv in H as (? & w0 & _ & H).
    apply try_catch_ok_inv in H; [|apply rethrows_throw]. cbv zeta in H.
    do 7 (apply bind_ok_inv in H as (? & ? & _ & H)).
    apply bind_ok_inv in H as ([] & wl & Hlibs & H).
    apply bind_ok_inv in H as (? & wr & Hrm & H).
    apply bind_ok_inv in H as (? & wc & Hcp & H).
    unfold ret in H. injection H as ->.
    eapply ios_turn_end with (install := "/tmp/openssl-iphonesim-" +++ arch);
      [exact Hd | discriminate | exact Hplain | exact Hlibs | exact Hrm | exact Hcp].
Qed.

End DeliverIos.

Lemma ios_turn_delivers_libraries_witness :
  let w := set_cwd "/tmp/openssl_iphoneos/openssl-3.4.0"
             (snd (buildForIosIphoneos Sim.tools "/tmp/openssl-3.4.0.tar.gz"
                     (Sim.options "" "arm64" "") Sim.world_archive)) in
  let w' := snd (iphoneosArch Sim.tools (Sim.options "" "arm64,armv7" "")
                   "/home/u/dist/iphoneos" ["arm64"; "armv7"] 0 "armv7" w) in
  Fs.exists_at ["home"; "u"; "dist"; "iphoneos"; "libssl.a.armv7"] (fs w') = true.
Proof.
  cbv zeta.
  set (w := set_cwd "/tmp/openssl_iphoneos/openssl-3.4.0"
              (snd (buildForIosIphoneos Sim.tools "/tmp/openssl-3.4.0.tar.gz"
                      (Sim.options "" "arm64" "") Sim.world_archive))).
  set (w' := snd (iphoneosArch Sim.tools (Sim.options "" "arm64,armv7" "")
                    "/home/u/dist/iphoneos" ["arm64"; "armv7"] 0 "armv7" w)).
  assert (E : iphoneosArch Sim.tools (Sim.options "" "arm64,armv7" "")
                "/home/u/dist/iphoneos" ["arm64"; "armv7"] 0 "armv7" w = (Ok tt, w'))
    by (vm_compute; reflexivity).
  assert (Ec : Fs.path_of (cwd w') (staged_file "/home/u/dist/iphoneos" "libssl.a" "armv7")
               = ["home"; "u"; "dist"; "iphoneos"; "libssl.a.armv7"]) by reflexivity.
  rewrite <- Ec.
  apply (@ios_turn_delivers_libraries Sim.tools (Sim.options "" "arm64,armv7" "")
           "/home/u/dist/iphoneos" ["arm64"; "armv7"] 0 "armv7" w w');
    [discriminate | reflexivity | left; exact E | now left].
Defined.
